(** * Query fan-out simulator: the request/response protocol of the two
    Streamlit scripts

    - [streamlit/howden-query-fan-out.py]        (bulk variant, module [Bulk])
    - [streamlit/howden-query-fan-out-single.py]  (single variant, module [Single])

    The development embeds the prompt builder, the fence-stripping response
    parser, the per-lookup batch loop and the column ordering of the export,
    together with the parts of the Python runtime they rest on: [str]
    methods (module [Py]) and [json.loads] (module [Json]). *)

From Stdlib Require Import String Ascii.
From Stdlib Require Import List NArith ZArith Arith Bool Lia.
Import ListNotations.

Set Implicit Arguments.
Set Warnings "-register-all".

(* ================================================================== *)
(** * Python strings *)
(* ================================================================== *)

(** A Python [str] is a sequence of Unicode code points. *)
Module Py.

Definition char := N.
Definition str := list char.

(** ASCII literals of the scripts are written as Rocq strings. *)
Fixpoint lit (s : string) : str :=
  match s with
  | EmptyString => []
  | String a s' => N_of_ascii a :: lit s'
  end.

Arguments lit _%_string.

Definition dq : char := 34%N.        (* the double quote *)
Definition nl : char := 10%N.        (* line feed *)
Definition backtick : char := 96%N.

Fixpoint eqb (a b : str) : bool :=
  match a, b with
  | [], [] => true
  | x :: a', y :: b' => N.eqb x y && eqb a' b'
  | _, _ => false
  end.

(** [str.isspace] on one code point; this is also the set removed by
    [str.strip()] without argument. *)
Definition isspace (c : char) : bool :=
  ((9 <=? c) && (c <=? 13) || (28 <=? c) && (c <=? 32)
   || (c =? 133) || (c =? 160) || (c =? 5760)
   || (8192 <=? c) && (c <=? 8202)
   || (c =? 8232) || (c =? 8233) || (c =? 8239) || (c =? 8287)
   || (c =? 12288))%N.

Fixpoint lstrip (s : str) : str :=
  match s with
  | [] => []
  | c :: s' => if isspace c then lstrip s' else s
  end.

Definition rstrip (s : str) : str := rev (lstrip (rev s)).

(** [s.strip()] *)
Definition strip (s : str) : str := rstrip (lstrip s).

(** [s.startswith(p)] *)
Fixpoint startswith (s p : str) {struct p} : bool :=
  match p, s with
  | [], _ => true
  | x :: p', y :: s' => N.eqb x y && startswith s' p'
  | _ :: _, [] => false
  end.

(** [s.endswith(p)] *)
Definition endswith (s p : str) : bool := startswith (rev s) (rev p).

(** [s[n:]] *)
Definition slice_from (n : nat) (s : str) : str := skipn n s.

(** [s[:-n]] for a positive [n] *)
Definition slice_to_neg (n : nat) (s : str) : str :=
  firstn (length s - n) s.

(** The truth value of a string: non-empty. *)
Definition truthy (s : str) : bool :=
  match s with [] => false | _ :: _ => true end.

(** Line boundaries recognised by [str.splitlines]. *)
Definition is_linebreak (c : char) : bool :=
  ((10 <=? c) && (c <=? 13) || (28 <=? c) && (c <=? 30)
   || (c =? 133) || (c =? 8232) || (c =? 8233))%N.

(** [splitlines_from cur s]: [cur] is the current line, reversed.  A
    carriage return followed by a line feed is one boundary; no empty last
    line is produced after a final boundary. *)
Fixpoint splitlines_from (cur : str) (s : str) : list str :=
  match s with
  | [] => match cur with [] => [] | _ :: _ => [rev cur] end
  | c :: s' =>
      if is_linebreak c then
        match s' with
        | c' :: s'' =>
            if (c =? 13)%N && (c' =? 10)%N
            then rev cur :: splitlines_from [] s''
            else rev cur :: splitlines_from [] s'
        | [] => [rev cur]
        end
      else splitlines_from (c :: cur) s'
  end.

(** [s.splitlines()] *)
Definition splitlines (s : str) : list str := splitlines_from [] s.

(** [sep.join(l)] *)
Fixpoint join (sep : str) (l : list str) : str :=
  match l with
  | [] => []
  | [x] => x
  | x :: l' => x ++ sep ++ join sep l'
  end.

(** Decimal digits of a number, as [str(n)] and [%d] print it.  A number
    has no more decimal digits than binary ones, which bounds the loop. *)
Fixpoint digits_fuel (fuel : nat) (n : N) (acc : str) : str :=
  match fuel with
  | 0 => acc
  | S f =>
      let d := (48 + n mod 10)%N in
      if (n <? 10)%N then d :: acc else digits_fuel f (n / 10)%N (d :: acc)
  end.

Definition str_of_N (n : N) : str := digits_fuel (S (N.size_nat n)) n [].

Definition str_of_nat (n : nat) : str := str_of_N (N.of_nat n).

Definition str_of_Z (z : Z) : str :=
  match z with
  | Zneg p => 45%N :: str_of_N (Npos p)
  | _ => str_of_N (Z.to_N z)
  end.

(** [x in s] for strings: [x] occurs as a contiguous run of [s]. *)
Definition occurs_in (x s : str) : Prop :=
  exists a b, s = a ++ x ++ b.

End Py.

Import Py.

(* ================================================================== *)
(** * Python values and exceptions *)
(* ================================================================== *)

(** The objects the scripts handle: what [json.loads] builds, and [str].
    A [dict] keeps its keys in insertion order.  A [float] is kept as the
    numeral it was read from; the scripts only pass floats along. *)
Inductive value : Type :=
| VNone
| VBool (b : bool)
| VInt (z : Z)
| VFloat (numeral : str)
| VStr (s : str)
| VList (l : list value)
| VDict (d : list (str * value)).

Definition dict := list (str * value).

Fixpoint dict_lookup (d : dict) (k : str) : option value :=
  match d with
  | [] => None
  | (k', v) :: d' => if Py.eqb k' k then Some v else dict_lookup d' k
  end.

(** [d[k] = v]: an existing key keeps its place, a new one goes last. *)
Fixpoint dict_set (d : dict) (k : str) (v : value) : dict :=
  match d with
  | [] => [(k, v)]
  | (k', v') :: d' =>
      if Py.eqb k' k then (k', v) :: d' else (k', v') :: dict_set d' k v
  end.

Definition dict_keys (d : dict) : list str := map fst d.

(** [type(v).__name__] *)
Definition type_name (v : value) : str :=
  match v with
  | VNone => lit "NoneType"
  | VBool _ => lit "bool"
  | VInt _ => lit "int"
  | VFloat _ => lit "float"
  | VStr _ => lit "str"
  | VList _ => lit "list"
  | VDict _ => lit "dict"
  end.

(** The exceptions that can reach the handlers of the scripts.
    [OtherException] stands for any further subclass of [Exception], such
    as those of the generation client; its argument is [str(e)]. *)
Inductive exn : Type :=
| JSONDecodeError (msg : str) (doc : str) (pos : nat)
| AttributeError (msg : str)
| TypeError (msg : str)
| OtherException (msg : str).

Definition is_JSONDecodeError (e : exn) : bool :=
  match e with JSONDecodeError _ _ _ => true | _ => false end.

(** [doc.count('\n', 0, pos)] *)
Definition count_nl (doc : str) (pos : nat) : nat :=
  List.length (filter (N.eqb nl) (firstn pos doc)).

(** [doc.rfind('\n', 0, pos)]: index of the last line feed before [pos],
    or -1. *)
Fixpoint rfind_nl_from (i : nat) (s : str) (found : Z) : Z :=
  match s with
  | [] => found
  | c :: s' => rfind_nl_from (S i) s' (if N.eqb c nl then Z.of_nat i else found)
  end.

Definition rfind_nl (doc : str) (pos : nat) : Z :=
  rfind_nl_from 0 (firstn pos doc) (-1)%Z.

(** [str(e)].  For [JSONDecodeError] it is the text built by its
    constructor: ['%s: line %d column %d (char %d)']. *)
Definition str_of_exn (e : exn) : str :=
  match e with
  | JSONDecodeError msg doc pos =>
      let lineno := count_nl doc pos + 1 in
      let colno := (Z.of_nat pos - rfind_nl doc pos)%Z in
      msg ++ lit ": line " ++ str_of_nat lineno ++ lit " column "
          ++ str_of_Z colno ++ lit " (char " ++ str_of_nat pos ++ lit ")"
  | AttributeError msg => msg
  | TypeError msg => msg
  | OtherException msg => msg
  end.

(** A computation that returns or raises. *)
Inductive result (A : Type) : Type :=
| Ok (a : A)
| Raise (e : exn).

Arguments Ok {A} a.
Arguments Raise {A} e.

Definition bind {A B} (r : result A) (k : A -> result B) : result B :=
  match r with
  | Ok a => k a
  | Raise e => Raise e
  end.

Notation "x <- c ;; k" := (bind c (fun x => k))
  (at level 61, c at next level, right associativity).

(** [obj.get(key, default)]: defined on a [dict] only. *)
Definition py_get (obj : value) (key : str) (default : value) : result value :=
  match obj with
  | VDict d =>
      Ok (match dict_lookup d key with Some v => v | None => default end)
  | _ =>
      Raise (AttributeError
               ([39%N] ++ type_name obj ++ lit "' object has no attribute 'get'"))
  end.

(** [for x in obj]: the elements a [for] loop visits, in order.  A [dict]
    yields its keys, a [str] its characters. *)
Definition py_iter (obj : value) : result (list value) :=
  match obj with
  | VList l => Ok l
  | VDict d => Ok (map VStr (dict_keys d))
  | VStr s => Ok (map (fun c => VStr [c]) s)
  | _ =>
      Raise (TypeError
               ([39%N] ++ type_name obj ++ lit "' object is not iterable"))
  end.

(** [len(obj)] *)
Definition py_len (obj : value) : result nat :=
  match obj with
  | VList l => Ok (List.length l)
  | VDict d => Ok (List.length d)
  | VStr s => Ok (List.length s)
  | _ =>
      Raise (TypeError
               (lit "object of type '" ++ type_name obj ++ lit "' has no len()"))
  end.

(** The digits at the head of [s] read after [acc], their number, and
    what follows them. *)
Fixpoint read_digits (s : str) (acc : N) (n : nat) : N * nat * str :=
  match s with
  | c :: s' =>
      if ((48 <=? c) && (c <=? 57))%N
      then read_digits s' (10 * acc + (c - 48))%N (S n)
      else (acc, n, s)
  | [] => (acc, n, s)
  end.

(** The exponent part of a numeral: [e] or [E], a sign if any, digits. *)
Definition read_exponent (s : str) : Z :=
  match s with
  | c :: r =>
      if ((c =? 101) || (c =? 69))%N then
        match r with
        | sign :: r' =>
            if (sign =? 45)%N then (- Z.of_N (fst (fst (read_digits r' 0 0))))%Z
            else if (sign =? 43)%N then Z.of_N (fst (fst (read_digits r' 0 0)))
            else Z.of_N (fst (fst (read_digits r 0 0)))
        | [] => 0%Z
        end
      else 0%Z
  | [] => 0%Z
  end.

(** [float(numeral) == 0.0] for the text of a JSON number: [float] rounds
    to the nearest double, ties to even, so a decimal gives zero exactly
    when its magnitude is at most 2^-1075, half the least positive
    double.  [NaN] and the infinities have no digit at their head. *)
Definition float_is_zero (numeral : str) : bool :=
  let body :=
    match numeral with
    | c :: r => if (c =? 45)%N then r else numeral
    | [] => numeral
    end in
  let '(int_part, int_len, r1) := read_digits body 0 0 in
  match int_len with
  | O => false
  | S _ =>
      let '(mantissa, frac_len, r2) :=
        match r1 with
        | c :: r => if (c =? 46)%N then read_digits r int_part 0 else (int_part, 0, r1)
        | [] => (int_part, 0, r1)
        end in
      let scale := (read_exponent r2 - Z.of_nat frac_len)%Z in
      ((mantissa =? 0)%N
       || ((scale <? 0)%Z
           && (mantissa * 2 ^ 1075 <=? 10 ^ Z.to_N (- scale))%N))
  end.

(** The truth value of an object, as [if obj:] tests it. *)
Definition py_truthy (obj : value) : bool :=
  match obj with
  | VNone => false
  | VBool b => b
  | VInt z => negb (Z.eqb z 0)
  | VFloat numeral => negb (float_is_zero numeral)
  | VStr s => truthy s
  | VList l => match l with [] => false | _ => true end
  | VDict d => match d with [] => false | _ => true end
  end.

(* ================================================================== *)
(** * [json.loads] *)
(* ================================================================== *)

(** The decoder of the standard library with its default settings
    (strict strings, no hooks), following the scanner of CPython.  The
    input is consumed from the front; [pos] is the index in the document
    of the first character not yet consumed, as the messages report it.
    Interpreter limits (recursion depth, size of integer numerals) are not
    modelled. *)
Module Json.

(** Outcome of a scanning function: a result, a [JSONDecodeError] with its
    message and position, or exhausted fuel. *)
Inductive pres (A : Type) : Type :=
| POk (a : A)
| PErr (msg : str) (pos : nat)
| PFuel.

Arguments POk {A} a.
Arguments PErr {A} msg pos.
Arguments PFuel {A}.

Definition pbind {A B} (r : pres A) (k : A -> pres B) : pres B :=
  match r with
  | POk a => k a
  | PErr m p => PErr m p
  | PFuel => PFuel
  end.

(** A scanned item with the position and the input after it. *)
Definition scanned (A : Type) : Type := (A * nat * str)%type.

(** The whitespace of JSON: space, tab, line feed, carriage return. *)
Definition is_ws (c : char) : bool :=
  ((c =? 32) || (c =? 9) || (c =? 10) || (c =? 13))%N.

Fixpoint skip_ws (pos : nat) (s : str) : nat * str :=
  match s with
  | c :: s' => if is_ws c then skip_ws (S pos) s' else (pos, s)
  | [] => (pos, s)
  end.

Definition is_digit (c : char) : bool := ((48 <=? c) && (c <=? 57))%N.

Definition hex_digit (c : char) : option N :=
  if is_digit c then Some (c - 48)%N
  else if ((97 <=? c) && (c <=? 102))%N then Some (c - 87)%N
  else if ((65 <=? c) && (c <=? 70))%N then Some (c - 55)%N
  else None.

Definition hex4 (a b c d : char) : option N :=
  match hex_digit a, hex_digit b, hex_digit c, hex_digit d with
  | Some x, Some y, Some z, Some w => Some (((x * 16 + y) * 16 + z) * 16 + w)%N
  | _, _, _, _ => None
  end.

Definition is_high_surrogate (u : N) : bool := ((55296 <=? u) && (u <=? 56319))%N.
Definition is_low_surrogate (u : N) : bool := ((56320 <=? u) && (u <=? 57343))%N.
Definition join_surrogates (hi lo : N) : N :=
  (65536 + ((hi - 55296) * 1024 + (lo - 56320)))%N.

(** The one-character escapes after a backslash. *)
Definition unescape (c : char) : option char :=
  if (c =? 34)%N then Some 34%N            (* quote *)
  else if (c =? 92)%N then Some 92%N       (* backslash *)
  else if (c =? 47)%N then Some 47%N       (* slash *)
  else if (c =? 98)%N then Some 8%N        (* b *)
  else if (c =? 102)%N then Some 12%N      (* f *)
  else if (c =? 110)%N then Some 10%N      (* n *)
  else if (c =? 114)%N then Some 13%N      (* r *)
  else if (c =? 116)%N then Some 9%N       (* t *)
  else None.

Definition msg_unterminated : str := lit "Unterminated string starting at".
Definition msg_control : str := lit "Invalid control character at".
Definition msg_escape : str := lit "Invalid " ++ [92%N] ++ lit "escape".
Definition msg_uescape : str := lit "Invalid " ++ [92%N] ++ lit "uXXXX escape".
Definition msg_value : str := lit "Expecting value".
Definition msg_name : str :=
  lit "Expecting property name enclosed in double quotes".
Definition msg_colon : str := lit "Expecting ':' delimiter".
Definition msg_comma : str := lit "Expecting ',' delimiter".
Definition msg_extra : str := lit "Extra data".
Definition msg_bom : str := lit "Unexpected UTF-8 BOM (decode using utf-8-sig)".

(** [scanstring]: the body of a string, after its opening quote at index
    [begin].  [acc] holds the decoded characters, last first. *)
Fixpoint scanstring (begin pos : nat) (acc : str) (s : str)
  : pres (scanned str) :=
  match s with
  | [] => PErr msg_unterminated begin
  | c :: s1 =>
      if (c =? 34)%N then POk (rev acc, S pos, s1)
      else if (c =? 92)%N then
        match s1 with
        | [] => PErr msg_unterminated begin
        | e :: s2 =>
            if (e =? 117)%N then
              match s2 with
              | h1 :: h2 :: h3 :: h4 :: ((_ :: _) as s3) =>
                  match hex4 h1 h2 h3 h4 with
                  | None => PErr msg_uescape (pos + 1)
                  | Some u =>
                      match s3 with
                      | b :: u' :: g1 :: g2 :: g3 :: g4 :: ((_ :: _) as s4) =>
                          if is_high_surrogate u && (b =? 92)%N && (u' =? 117)%N
                          then
                            match hex4 g1 g2 g3 g4 with
                            | None => PErr msg_uescape (pos + 7)
                            | Some u2 =>
                                if is_low_surrogate u2
                                then scanstring begin (pos + 12)
                                       (join_surrogates u u2 :: acc) s4
                                else scanstring begin (pos + 6) (u :: acc) s3
                            end
                          else scanstring begin (pos + 6) (u :: acc) s3
                      | _ => scanstring begin (pos + 6) (u :: acc) s3
                      end
                  end
              | _ => PErr msg_uescape (pos + 1)
              end
            else
              match unescape e with
              | Some c' => scanstring begin (pos + 2) (c' :: acc) s2
              | None => PErr msg_escape pos
              end
        end
      else if (c <=? 31)%N then PErr msg_control pos
      else scanstring begin (S pos) (c :: acc) s1
  end.

(** The longest run of decimal digits at the front. *)
Fixpoint span_digits (s : str) : str * str :=
  match s with
  | c :: s' =>
      if is_digit c then let (ds, r) := span_digits s' in (c :: ds, r)
      else ([], s)
  | [] => ([], [])
  end.

Fixpoint nat_of_digits (acc : N) (ds : str) : N :=
  match ds with
  | [] => acc
  | d :: ds' => nat_of_digits (acc * 10 + (d - 48))%N ds'
  end.

(** The integer part of a numeral: an optional minus, then [0] or a
    non-zero digit followed by digits. *)
Definition scan_integer (s : str) : option (bool * str * str) :=
  let (neg, s1) :=
    match s with
    | c :: s' => if (c =? 45)%N then (true, s') else (false, s)
    | [] => (false, s)
    end in
  match s1 with
  | d :: s2 =>
      if (d =? 48)%N then Some (neg, [d], s2)
      else if is_digit d then
        let (ds, r) := span_digits s2 in Some (neg, d :: ds, r)
      else None
  | [] => None
  end.

(** The fraction: a point followed by at least one digit. *)
Definition scan_frac (s : str) : str * str :=
  match s with
  | p :: d :: s' =>
      if (p =? 46)%N && is_digit d then
        let (ds, r) := span_digits s' in (p :: d :: ds, r)
      else ([], s)
  | _ => ([], s)
  end.

(** The exponent: [e] or [E], an optional sign, at least one digit. *)
Definition scan_exp (s : str) : str * str :=
  match s with
  | e :: s1 =>
      if ((e =? 101) || (e =? 69))%N then
        let (sign, s2) :=
          match s1 with
          | g :: s' => if ((g =? 45) || (g =? 43))%N then ([g], s') else ([], s1)
          | [] => ([], s1)
          end in
        match span_digits s2 with
        | ([], _) => ([], s)
        | (ds, r) => (e :: sign ++ ds, r)
        end
      else ([], s)
  | [] => ([], s)
  end.

(** A numeral at the front of [s]: its value, its length and the rest. *)
Definition match_number (s : str) : option (value * nat * str) :=
  match scan_integer s with
  | None => None
  | Some (neg, ds, r1) =>
      let (frac, r2) := scan_frac r1 in
      let (ex, r3) := scan_exp r2 in
      let int_text := (if neg then [45%N] else []) ++ ds in
      match frac, ex with
      | [], [] =>
          let n := Z.of_N (nat_of_digits 0 ds) in
          Some (VInt (if neg then (- n)%Z else n), List.length int_text, r3)
      | _, _ =>
          let text := int_text ++ frac ++ ex in
          Some (VFloat text, List.length text, r3)
      end
  end.

(** A keyword at the front of [s]. *)
Definition keyword (k : string) (v : value) (pos : nat) (s : str)
  : option (scanned value) :=
  if startswith s (lit k)
  then Some (v, pos + List.length (lit k), skipn (List.length (lit k)) s)
  else None.

Definition first_some {A} (a b : option A) : option A :=
  match a with Some _ => a | None => b end.

(** What follows a value inside an array or object: the closing bracket,
    a comma, or an error. *)
Inductive after_item : Type :=
| Closed (pos : nat) (rest : str)
| More (pos : nat) (rest : str)
| Bad (pos : nat).

Definition after (close : char) (pos : nat) (s : str) : after_item :=
  let (p, s1) := skip_ws pos s in
  match s1 with
  | c :: r =>
      if (c =? close)%N then Closed (S p) r
      else if (c =? 44)%N then let (p', r') := skip_ws (S p) r in More p' r'
      else Bad p
  | [] => Bad p
  end.

(** [scan_once]: one JSON value at the front of [s]; [array_items] and
    [object_items]: the elements of a non-empty array or object, from the
    first one on.  An error of [scan_once] at the place where a value must
    start is the [StopIteration] that [raw_decode] reports as
    ["Expecting value"]. *)
Fixpoint scan_once (fuel : nat) (pos : nat) (s : str) {struct fuel}
  : pres (scanned value) :=
  match fuel with
  | 0 => PFuel
  | S f =>
      match s with
      | [] => PErr msg_value pos
      | c :: s1 =>
          if (c =? 34)%N then
            pbind (scanstring pos (S pos) [] s1)
                  (fun '(x, p, r) => POk (VStr x, p, r))
          else if (c =? 123)%N then
            let (p, s2) := skip_ws (S pos) s1 in
            match s2 with
            | c2 :: r =>
                if (c2 =? 125)%N then POk (VDict [], S p, r)
                else object_items f [] p s2
            | [] => object_items f [] p s2
            end
          else if (c =? 91)%N then
            let (p, s2) := skip_ws (S pos) s1 in
            match s2 with
            | c2 :: r =>
                if (c2 =? 93)%N then POk (VList [], S p, r)
                else array_items f [] p s2
            | [] => array_items f [] p s2
            end
          else
            match first_some (keyword "null" VNone pos s)
                    (first_some (keyword "true" (VBool true) pos s)
                    (first_some (keyword "false" (VBool false) pos s)
                    (first_some (keyword "NaN" (VFloat (lit "NaN")) pos s)
                    (first_some (keyword "Infinity" (VFloat (lit "Infinity")) pos s)
                                (keyword "-Infinity" (VFloat (lit "-Infinity")) pos s)))))
            with
            | Some x => POk x
            | None =>
                match match_number s with
                | Some (v, n, r) => POk (v, pos + n, r)
                | None => PErr msg_value pos
                end
            end
      end
  end

with array_items (fuel : nat) (acc : list value) (pos : nat) (s : str)
       {struct fuel} : pres (scanned value) :=
  match fuel with
  | 0 => PFuel
  | S f =>
      pbind (scan_once f pos s) (fun '(v, p, r) =>
        match after 93%N p r with
        | Closed p' r' => POk (VList (rev (v :: acc)), p', r')
        | More p' r' => array_items f (v :: acc) p' r'
        | Bad p' => PErr msg_comma p'
        end)
  end

with object_items (fuel : nat) (acc : dict) (pos : nat) (s : str)
       {struct fuel} : pres (scanned value) :=
  match fuel with
  | 0 => PFuel
  | S f =>
      match s with
      | c :: s1 =>
          if (c =? 34)%N then
            pbind (scanstring pos (S pos) [] s1) (fun '(key, p, r) =>
              let (p1, r1) := skip_ws p r in
              match r1 with
              | c1 :: r2 =>
                  if (c1 =? 58)%N then
                    let (p2, r3) := skip_ws (S p1) r2 in
                    pbind (scan_once f p2 r3) (fun '(v, p3, r4) =>
                      let acc' := dict_set acc key v in
                      match after 125%N p3 r4 with
                      | Closed p' r' => POk (VDict acc', p', r')
                      | More p' r' => object_items f acc' p' r'
                      | Bad p' => PErr msg_comma p'
                      end)
                  else PErr msg_colon p1
              | [] => PErr msg_colon p1
              end)
          else PErr msg_name pos
      | [] => PErr msg_name pos
      end
  end.

(** [JSONDecoder.decode]: leading whitespace, one value, trailing
    whitespace, end of input. *)
Definition decode (fuel : nat) (doc : str) : pres value :=
  let (p, s) := skip_ws 0 doc in
  pbind (scan_once fuel p s) (fun '(v, p1, r) =>
    let (p2, r') := skip_ws p1 r in
    match r' with
    | [] => POk v
    | _ :: _ => PErr msg_extra p2
    end).

(** Fuel that always suffices for a document (see [decode_fuel]). *)
Definition fuel_for (doc : str) : nat := S (2 * List.length doc).

(** [json.loads(doc)] *)
Definition loads (doc : str) : result value :=
  if startswith doc [65279%N]
  then Raise (JSONDecodeError msg_bom doc 0)
  else
    match decode (fuel_for doc) doc with
    | POk v => Ok v
    | PErr msg pos => Raise (JSONDecodeError msg doc pos)
    | PFuel => Raise (OtherException (lit "RecursionError"))
    end.

End Json.

(* ================================================================== *)
(** * What both scripts share *)
(* ================================================================== *)

Definition quoted (s : str) : str := dq :: s ++ [dq].

(** The two choices of the "Search Mode" radio button. *)
Definition mode_simple : str := lit "AI Overview (simple)".
Definition mode_complex : str := lit "AI Mode (complex)".

Definition fence_json : str := lit "```json".
Definition fence : str := lit "```".

(** The fence clean-up of [generate_fanout], the same lines in both
    scripts:
<<
    json_text = response.text.strip()
    if json_text.startswith("```json"): json_text = json_text[7:]
    if json_text.endswith("```"):       json_text = json_text[:-3]
    json_text = json_text.strip()
>> *)
Definition strip_open_fence (json_text : str) : str :=
  if startswith json_text fence_json then slice_from 7 json_text else json_text.

Definition strip_close_fence (json_text : str) : str :=
  if endswith json_text fence then slice_to_neg 3 json_text else json_text.

Definition clean_fences (text : str) : str :=
  let json_text := strip text in
  let json_text := strip_open_fence json_text in
  let json_text := strip_close_fence json_text in
  strip json_text.

(** The calls into Streamlit that the scripts make, in the order made.
    Calls that only lay out the page (titles, rules, spinners) are left
    out; a table is recorded with its columns and rows. *)
Inductive ui_event : Type :=
| UiWarning (msg : str)
| UiError (msg : str)
| UiSuccess (msg : str)
| UiText (body : str)
| UiStop
| UiStatusWrite (msg : str)
| UiProgress (done total : nat)
| UiStatusComplete
| UiPlan (target_count reasoning : value) (generated_count : nat)
| UiTable (columns : list str) (rows : list dict)
| UiFrame (data : value).

(** [pd.DataFrame(rows).columns] for a list of dicts: the keys in the
    order in which they are first met. *)
Definition add_column (cols : list str) (k : str) : list str :=
  if existsb (Py.eqb k) cols then cols else cols ++ [k].

Definition df_columns (rows : list dict) : list str :=
  fold_left (fun cols row => fold_left add_column (dict_keys row) cols) rows [].

(** [c in cols] *)
Definition str_in_list (c : str) (cols : list str) : bool :=
  existsb (Py.eqb c) cols.

(* ================================================================== *)
(** * The bulk script, [howden-query-fan-out.py] *)
(* ================================================================== *)

Module Bulk.

Definition ALLOWED_FORMATS : list str :=
  [ lit "web_article"; lit "faq_page"; lit "how_to_steps";
    lit "comparison_table"; lit "buyers_guide"; lit "checklist";
    lit "product_spec_sheet"; lit "glossary/definition"; lit "pricing_page";
    lit "review_roundup"; lit "tutorial_video/transcript";
    lit "podcast_transcript"; lit "code_samples/docs"; lit "api_reference";
    lit "calculator/tool"; lit "dataset"; lit "image_gallery";
    lit "map/local_pack"; lit "forum/qna"; lit "pdf_whitepaper";
    lit "case_study"; lit "press_release"; lit "interactive_widget" ].

Definition min_queries_simple : nat := 10.
Definition min_queries_complex : nat := 20.

Definition num_queries_instruction (q mode : str) : str :=
  if Py.eqb mode mode_simple then
    lit "First, analyze the user's query: " ++ quoted q
      ++ lit ". Based on its complexity and the '" ++ mode ++ lit "' mode, "
      ++ lit "you must decide on an optimal number of queries to generate. "
      ++ lit "This number must be at least " ++ str_of_nat min_queries_simple
      ++ lit ". "
      ++ lit "For a straightforward query, generate around "
      ++ str_of_nat min_queries_simple ++ lit "-"
      ++ str_of_nat (min_queries_simple + 2) ++ lit ". "
      ++ lit "If the query has a few distinct aspects or common follow-ups, aim for "
      ++ str_of_nat (min_queries_simple + 3) ++ lit "-"
      ++ str_of_nat (min_queries_simple + 5) ++ lit ". "
      ++ lit "Provide brief reasoning for why you chose this number."
  else
    lit "First, analyze the user's query: " ++ quoted q
      ++ lit ". Based on its complexity and the '" ++ mode ++ lit "' mode, "
      ++ lit "you must decide on an optimal number of queries to generate. "
      ++ lit "This number must be at least " ++ str_of_nat min_queries_complex
      ++ lit ". "
      ++ lit "For multifaceted queries that span comparisons, procedures, specs, or trade-offs, "
      ++ lit "generate " ++ str_of_nat (min_queries_complex + 5) ++ lit "-"
      ++ str_of_nat (min_queries_complex + 10) ++ lit " or more. "
      ++ lit "Provide brief reasoning for your number.".

Definition routing_note : str :=
  lit "For EACH expanded query, also identify the most likely CONTENT TYPE / FORMAT the routing system would prefer "
    ++ lit "for retrieval and synthesis (e.g., a how-to should route to 'how_to_steps' or a video transcript; comparisons to 'comparison_table' or 'buyers_guide'). "
    ++ lit "Choose exactly ONE label from this fixed list:" ++ [nl]
    ++ join (lit ", ") ALLOWED_FORMATS
    ++ lit "." ++ [nl]
    ++ lit "Return it in a field named 'routing_format' and give a short 'format_reason' (1 sentence).".

(** The response schema that closes the prompt. *)
Definition schema_text : str :=
  lit "{" ++ [nl]
    ++ lit "  " ++ quoted (lit "generation_details") ++ lit ": {" ++ [nl]
    ++ lit "    " ++ quoted (lit "target_query_count") ++ lit ": 12," ++ [nl]
    ++ lit "    " ++ quoted (lit "reasoning_for_count") ++ lit ": "
       ++ quoted (lit "...") ++ [nl]
    ++ lit "  }," ++ [nl]
    ++ lit "  " ++ quoted (lit "expanded_queries") ++ lit ": [" ++ [nl]
    ++ lit "    {" ++ [nl]
    ++ lit "      " ++ quoted (lit "query") ++ lit ": " ++ quoted (lit "...")
       ++ lit "," ++ [nl]
    ++ lit "      " ++ quoted (lit "type") ++ lit ": "
       ++ quoted (lit "reformulation | related | implicit | comparative | entity_expansion | personalized")
       ++ lit "," ++ [nl]
    ++ lit "      " ++ quoted (lit "user_intent") ++ lit ": "
       ++ quoted (lit "...") ++ lit "," ++ [nl]
    ++ lit "      " ++ quoted (lit "reasoning") ++ lit ": "
       ++ quoted (lit "...") ++ lit "," ++ [nl]
    ++ lit "      " ++ quoted (lit "routing_format") ++ lit ": "
       ++ quoted (lit "one_of_allowed_labels") ++ lit "," ++ [nl]
    ++ lit "      " ++ quoted (lit "format_reason") ++ lit ": "
       ++ quoted (lit "one sentence why this format is best") ++ [nl]
    ++ lit "    }" ++ [nl]
    ++ lit "  ]" ++ [nl]
    ++ lit "}".

(** [QUERY_FANOUT_PROMPT(q, mode)] *)
Definition QUERY_FANOUT_PROMPT (q mode : str) : str :=
  lit "You are simulating Google's AI Mode query fan-out for generative search systems."
    ++ [nl]
    ++ lit "The user's original query is: " ++ quoted q
    ++ lit ". The selected mode is: " ++ quoted mode ++ lit "." ++ [nl; nl]
    ++ lit "Your first task is to determine the total number of queries to generate and the reasoning for this number:"
    ++ [nl]
    ++ num_queries_instruction q mode ++ [nl; nl]
    ++ lit "Once you have decided on the number and the reasoning, generate exactly that many unique synthetic queries."
    ++ [nl]
    ++ lit "Each of the following transformation types MUST be represented at least once, if the total allows:"
    ++ [nl]
    ++ lit "1. Reformulations" ++ [nl] ++ lit "2. Related Queries" ++ [nl]
    ++ lit "3. Implicit Queries" ++ [nl] ++ lit "4. Comparative Queries" ++ [nl]
    ++ lit "5. Entity Expansions" ++ [nl] ++ lit "6. Personalized Queries"
    ++ [nl; nl]
    ++ lit "The 'reasoning' field for each query should explain why that query was generated (tie it to the original query, its type, and user intent). "
    ++ lit "Do NOT include queries dependent on real-time user history or geolocation."
    ++ [nl; nl]
    ++ routing_note ++ [nl; nl]
    ++ lit "Return only a valid JSON object in this exact schema:" ++ [nl]
    ++ schema_text.

(** The accumulators of the run handler and the Streamlit calls made so
    far. *)
Record run_state : Type := mk_run_state {
  all_rows : list dict;
  run_summaries : list dict;
  errors : list dict;
  ui : list ui_event
}.

Definition empty_state : run_state := mk_run_state [] [] [] [].

Definition append_row (row : dict) (st : run_state) : run_state :=
  mk_run_state (all_rows st ++ [row]) (run_summaries st) (errors st) (ui st).

Definition append_summary (d : dict) (st : run_state) : run_state :=
  mk_run_state (all_rows st) (run_summaries st ++ [d]) (errors st) (ui st).

Definition append_error (d : dict) (st : run_state) : run_state :=
  mk_run_state (all_rows st) (run_summaries st) (errors st ++ [d]) (ui st).

Definition emit (e : ui_event) (st : run_state) : run_state :=
  mk_run_state (all_rows st) (run_summaries st) (errors st) (ui st ++ [e]).

(** A statement of the [try] block: it may change the accumulators and
    may raise; what it changed before raising stays changed. *)
Definition stmt (A : Type) : Type := run_state -> result A * run_state.

Definition ret {A} (a : A) : stmt A := fun st => (Ok a, st).

Definition lift {A} (r : result A) : stmt A := fun st => (r, st).

Definition modify (f : run_state -> run_state) : stmt unit :=
  fun st => (Ok tt, f st).

Definition seq {A B} (c : stmt A) (k : A -> stmt B) : stmt B :=
  fun st =>
    match c st with
    | (Ok a, st') => k a st'
    | (Raise e, st') => (Raise e, st')
    end.

Notation "x <~ c ;; k" := (seq c (fun x => k))
  (at level 61, c at next level, right associativity).
Notation "c ;;; k" := (seq c (fun _ => k))
  (at level 61, right associativity).

(** [for x in xs: body(x)] *)
Fixpoint for_each {A} (xs : list A) (body : A -> stmt unit) : stmt unit :=
  match xs with
  | [] => ret tt
  | x :: xs' => body x ;;; for_each xs' body
  end.

Definition k_lookup_query : str := lit "lookup_query".
Definition k_query : str := lit "query".
Definition k_type : str := lit "type".
Definition k_user_intent : str := lit "user_intent".
Definition k_reasoning : str := lit "reasoning".
Definition k_routing_format : str := lit "routing_format".
Definition k_format_reason : str := lit "format_reason".
Definition k_target_query_count : str := lit "target_query_count".
Definition k_reasoning_for_count : str := lit "reasoning_for_count".
Definition k_generation_details : str := lit "generation_details".
Definition k_expanded_queries : str := lit "expanded_queries".
Definition k_error : str := lit "error".

(** The entry appended to [run_summaries]. *)
Definition summary_of (q : str) (details : value) : result dict :=
  target <- py_get details k_target_query_count VNone ;;
  reasoning <- py_get details k_reasoning_for_count (VStr []) ;;
  Ok [ (k_lookup_query, VStr q);
       (k_target_query_count, target);
       (k_reasoning_for_count, reasoning) ].

(** The row appended to [all_rows] for one expanded query. *)
Definition row_of (q : str) (obj : value) : result dict :=
  query <- py_get obj k_query (VStr []) ;;
  type <- py_get obj k_type (VStr []) ;;
  user_intent <- py_get obj k_user_intent (VStr []) ;;
  reasoning <- py_get obj k_reasoning (VStr []) ;;
  routing_format <- py_get obj k_routing_format (VStr []) ;;
  format_reason <- py_get obj k_format_reason (VStr []) ;;
  Ok [ (k_lookup_query, VStr q);
       (k_query, query);
       (k_type, type);
       (k_user_intent, user_intent);
       (k_reasoning, reasoning);
       (k_routing_format, routing_format);
       (k_format_reason, format_reason) ].

Definition error_record (q : str) (e : exn) : dict :=
  [ (k_lookup_query, VStr q); (k_error, VStr (str_of_exn e)) ].

Definition msg_processed (q : str) (n : nat) : str :=
  [9989%N] ++ lit " Processed: **" ++ q ++ lit "** " ++ [8212%N]
    ++ lit " generated " ++ str_of_nat n ++ lit " queries.".

Definition msg_parse_failed (q : str) (e : exn) : str :=
  [10060%N] ++ lit " JSON parse failed for '" ++ q ++ lit "': " ++ str_of_exn e.

Definition msg_error (q : str) (e : exn) : str :=
  [10060%N] ++ lit " Error for '" ++ q ++ lit "': " ++ str_of_exn e.

Definition msg_no_lookups : str :=
  [9888%N; 65039%N] ++ lit " Please provide at least one query.".

Definition msg_no_rows : str := lit "No synthetic queries were generated.".

Definition preferred_cols : list str :=
  [ k_lookup_query; k_query; k_type; k_user_intent; k_reasoning;
    k_routing_format; k_format_reason ].

(** The column order of the output table:
<<
    existing = [c for c in preferred_cols if c in df.columns]
    others = [c for c in df.columns if c not in existing]
    df = df[existing + others]
>> *)
Definition existing (columns : list str) : list str :=
  filter (fun c => str_in_list c columns) preferred_cols.

Definition others (columns : list str) : list str :=
  filter (fun c => negb (str_in_list c (existing columns))) columns.

Definition reorder (columns : list str) : list str :=
  existing columns ++ others columns.

(** What the sidebar holds when the button is pressed. *)
Inductive input : Type :=
| SingleQuery (user_query : str)
| BulkList (bulk_text : str).

(** The list of lookup queries:
<<
    lookups = [user_query.strip()] if user_query.strip() else []
    lookups = [q.strip() for q in bulk_text.splitlines() if q.strip()]
>> *)
Definition build_lookups (i : input) : list str :=
  match i with
  | SingleQuery user_query =>
      if truthy (strip user_query) then [strip user_query] else []
  | BulkList bulk_text =>
      map strip (filter (fun q => truthy (strip q)) (splitlines bulk_text))
  end.

Section Model.

(** The generation client.  [generate_content prompt w] is the outcome of
    [model.generate_content(prompt).text] in the state [w] of the outside
    world: the text of the response or an exception, and the world after
    the call. *)
Variable World : Type.
Variable generate_content : str -> World -> result str * World.

(** [generate_fanout(query, mode)] *)
Definition generate_fanout (query mode : str) (w : World)
  : result (value * value * str) * World :=
  let prompt := QUERY_FANOUT_PROMPT query mode in
  let (response, w') := generate_content prompt w in
  (text <- response ;;
   let json_text := clean_fences text in
   data <- Json.loads json_text ;;
   generation_details <- py_get data k_generation_details (VDict []) ;;
   expanded_queries <- py_get data k_expanded_queries (VList []) ;;
   Ok (generation_details, expanded_queries, json_text),
   w').

(** The body of the [try] block, after the call of [generate_fanout] whose
    outcome is [r]. *)
Definition try_body (q : str) (r : result (value * value * str)) : stmt unit :=
  p <~ lift r ;;
  let '(details, expanded, raw) := p in
  summary <~ lift (summary_of q details) ;;
  modify (append_summary summary) ;;;
  objs <~ lift (py_iter expanded) ;;
  for_each objs (fun obj =>
    row <~ lift (row_of q obj) ;;
    modify (append_row row)) ;;;
  n <~ lift (py_len expanded) ;;
  modify (emit (UiStatusWrite (msg_processed q n))).

(** The two [except] clauses; they add the same record. *)
Definition handler (q : str) (e : exn) (st : run_state) : run_state :=
  if is_JSONDecodeError e
  then append_error (error_record q e) (emit (UiStatusWrite (msg_parse_failed q e)) st)
  else append_error (error_record q e) (emit (UiStatusWrite (msg_error q e)) st).

(** One turn of the loop for the [i]-th lookup [q]. *)
Definition process_lookup (mode : str) (total i : nat) (q : str)
  (sw : run_state * World) : run_state * World :=
  let (st, w) := sw in
  let (r, w') := generate_fanout q mode w in
  let st' :=
    match try_body q r st with
    | (Ok _, st1) => st1
    | (Raise e, st1) => handler q e st1
    end in
  (emit (UiProgress i total) st', w').

(** [for i, q in enumerate(lookups, start=1)] *)
Fixpoint loop (mode : str) (total i : nat) (lookups : list str)
  (sw : run_state * World) : run_state * World :=
  match lookups with
  | [] => sw
  | q :: rest => loop mode total (S i) rest (process_lookup mode total i q sw)
  end.

(** What the handler shows after the loop: the table of rows or a
    warning, then the plan summaries and the errors, if any.  The model
    records the tables that are shown; the CSV text built for the
    download button after the table of rows is not part of it. *)
Definition show_rows (st : run_state) : run_state :=
  match all_rows st with
  | _ :: _ => emit (UiTable (reorder (df_columns (all_rows st))) (all_rows st)) st
  | [] => emit (UiWarning msg_no_rows) st
  end.

Definition show_summaries (st : run_state) : run_state :=
  match run_summaries st with
  | _ :: _ => emit (UiTable (df_columns (run_summaries st)) (run_summaries st)) st
  | [] => st
  end.

Definition show_errors (st : run_state) : run_state :=
  match errors st with
  | _ :: _ => emit (UiTable (df_columns (errors st)) (errors st)) st
  | [] => st
  end.

Definition show_results (st : run_state) : run_state :=
  show_errors (show_summaries (show_rows st)).

(** The handler of the "Run Fan-Out" button. *)
Definition run (i : input) (mode : str) (w : World) : run_state * World :=
  let lookups := build_lookups i in
  match lookups with
  | [] => (emit UiStop (emit (UiWarning msg_no_lookups) empty_state), w)
  | _ :: _ =>
      let total := List.length lookups in
      let (st, w') := loop mode total 1 lookups (emit (UiProgress 0 total) empty_state, w) in
      (show_results (emit UiStatusComplete st), w')
  end.

End Model.

End Bulk.

(* ================================================================== *)
(** * The single-query script, [howden-query-fan-out-single.py] *)
(* ================================================================== *)

Module Single.

Definition min_queries_simple : nat := 10.
Definition min_queries_complex : nat := 20.

Definition ge_sign : char := 8805%N.

Definition num_queries_instruction (q mode : str) : str :=
  if Py.eqb mode mode_simple then
    lit "Analyze the user's query: " ++ quoted q ++ lit ". Based on '" ++ mode
      ++ lit "', decide an optimal number of queries (" ++ [ge_sign]
      ++ str_of_nat min_queries_simple ++ lit "). "
      ++ lit "For simple queries, " ++ str_of_nat min_queries_simple ++ lit "-"
      ++ str_of_nat (min_queries_simple + 5)
      ++ lit " queries may suffice. Provide reasoning for your choice."
  else
    lit "Analyze the user's query: " ++ quoted q ++ lit ". Based on '" ++ mode
      ++ lit "', decide an optimal number of queries (" ++ [ge_sign]
      ++ str_of_nat min_queries_complex ++ lit "). "
      ++ lit "For complex queries, " ++ str_of_nat (min_queries_complex + 5)
      ++ lit "-" ++ str_of_nat (min_queries_complex + 10)
      ++ lit " queries or more may be needed. Provide reasoning.".

Definition schema_text : str :=
  lit "{" ++ [nl]
    ++ lit "  " ++ quoted (lit "generation_details") ++ lit ": {" ++ [nl]
    ++ lit "    " ++ quoted (lit "target_query_count") ++ lit ": <number>,"
       ++ [nl]
    ++ lit "    " ++ quoted (lit "reasoning_for_count") ++ lit ": "
       ++ quoted (lit "<reasoning>") ++ [nl]
    ++ lit "  }," ++ [nl]
    ++ lit "  " ++ quoted (lit "expanded_queries") ++ lit ": [" ++ [nl]
    ++ lit "    {" ++ quoted (lit "query") ++ lit ": " ++ quoted (lit "...")
       ++ lit ", " ++ quoted (lit "type") ++ lit ": " ++ quoted (lit "...")
       ++ lit ", " ++ quoted (lit "user_intent") ++ lit ": "
       ++ quoted (lit "...")
       ++ lit ", " ++ quoted (lit "reasoning") ++ lit ": "
       ++ quoted (lit "...") ++ lit "}" ++ [nl]
    ++ lit "  ]" ++ [nl]
    ++ lit "}".

(** [QUERY_FANOUT_PROMPT(q, mode)] *)
Definition QUERY_FANOUT_PROMPT (q mode : str) : str :=
  lit "You are simulating Google's AI Mode query fan-out process." ++ [nl]
    ++ lit "Original query: " ++ quoted q ++ lit ". Mode: " ++ quoted mode
    ++ lit "." ++ [nl; nl]
    ++ num_queries_instruction q mode ++ [nl; nl]
    ++ lit "Generate exactly that many unique queries in JSON format:" ++ [nl]
    ++ schema_text.

(** [st.session_state.generation_details] and the Streamlit calls made so
    far. *)
Record session : Type := mk_session {
  generation_details : value;
  ui : list ui_event
}.

Definition emit (e : ui_event) (s : session) : session :=
  mk_session (generation_details s) (ui s ++ [e]).

Definition set_details (d : value) (s : session) : session :=
  mk_session d (ui s).

Definition k_target_query_count : str := lit "target_query_count".
Definition k_reasoning_for_count : str := lit "reasoning_for_count".
Definition k_generation_details : str := lit "generation_details".
Definition k_expanded_queries : str := lit "expanded_queries".

Definition msg_parse_failed : str := lit "Failed to parse Gemini response as JSON.".
Definition msg_raw : str := lit "Raw response:".
Definition msg_unexpected (e : exn) : str :=
  lit "Unexpected error during generation: " ++ str_of_exn e.
Definition msg_enter_query : str := lit "Please enter a query.".
Definition msg_complete : str := lit "Query fan-out complete!".
Definition msg_none : str := lit "No queries generated or an error occurred.".

(** [isinstance(v, int)]; [bool] is a subclass of [int]. *)
Definition is_int (v : value) : bool :=
  match v with
  | VInt _ | VBool _ => true
  | _ => false
  end.

(** The number an [int] object compares as. *)
Definition int_value (v : value) : Z :=
  match v with
  | VInt z => z
  | VBool true => 1%Z
  | _ => 0%Z
  end.

(** [str(v)] for an [int] object. *)
Definition str_of_int (v : value) : str :=
  match v with
  | VBool true => lit "True"
  | VBool false => lit "False"
  | _ => str_of_Z (int_value v)
  end.

Definition msg_mismatch (target_count : value) (generated_count : nat) : str :=
  lit "Model aimed for " ++ str_of_int target_count
    ++ lit " queries but generated " ++ str_of_nat generated_count ++ lit ".".

(** [isinstance(target_count, int) and target_count != generated_count] *)
Definition count_mismatch (target_count : value) (generated_count : nat) : bool :=
  is_int target_count
  && negb (Z.eqb (int_value target_count) (Z.of_nat generated_count)).

Section Model.

Variable World : Type.
Variable generate_content : str -> World -> result str * World.

(** [generate_fanout(query, mode)]: the list of expanded queries, or
    [None] after a reported failure. *)
Definition generate_fanout (query mode : str) (sw : session * World)
  : value * (session * World) :=
  let (s, w) := sw in
  let prompt := QUERY_FANOUT_PROMPT query mode in
  let (response, w') := generate_content prompt w in
  match response with
  | Raise e => (VNone, (emit (UiError (msg_unexpected e)) s, w'))
  | Ok text =>
      let json_text := clean_fences text in
      match Json.loads json_text with
      | Raise e =>
          if is_JSONDecodeError e then
            (VNone,
             (emit (UiText json_text)
                (emit (UiText msg_raw) (emit (UiError msg_parse_failed) s)),
              w'))
          else (VNone, (emit (UiError (msg_unexpected e)) s, w'))
      | Ok data =>
          match
            (details <- py_get data k_generation_details (VDict []) ;;
             expanded_queries <- py_get data k_expanded_queries (VList []) ;;
             Ok (details, expanded_queries))
          with
          | Ok (details, expanded_queries) =>
              (expanded_queries, (set_details details s, w'))
          | Raise e => (VNone, (emit (UiError (msg_unexpected e)) s, w'))
          end
      end
  end.

(** [pd.DataFrame(results)] followed by [st.dataframe(df, ...)]: pandas
    and Streamlit take the value and the table is shown, or one of them
    raises. *)
Variable dataframe : value -> result unit.

(** [df.to_csv(index=False).encode("utf-8")] followed by
    [st.download_button(...)], for the frame of [results]. *)
Variable download_csv : value -> result unit.

(** The table and the download button that end the display. *)
Definition show_table (results : value) (s : session) : result unit * session :=
  match dataframe results with
  | Raise e => (Raise e, s)
  | Ok _ =>
      let s1 := emit (UiFrame results) s in
      match download_csv results with
      | Raise e => (Raise e, s1)
      | Ok _ => (Ok tt, s1)
      end
  end.

(** The part of the handler that shows a non-empty result.  Nothing
    catches what it raises: the script ends there, with what it has shown
    so far. *)
Definition show_results (results : value) (s : session) : result unit * session :=
  let s1 := emit (UiSuccess msg_complete) s in
  let details :=
    if py_truthy (generation_details s1) then generation_details s1
    else VDict [] in
  match
    (generated_count <- py_len results ;;
     target_count <- py_get details k_target_query_count (VStr (lit "N/A")) ;;
     reasoning <- py_get details k_reasoning_for_count (VStr (lit "Not provided.")) ;;
     Ok (generated_count, target_count, reasoning))
  with
  | Raise e => (Raise e, s1)
  | Ok (generated_count, target_count, reasoning) =>
      let s2 := emit (UiPlan target_count reasoning generated_count) s1 in
      let s3 :=
        if count_mismatch target_count generated_count
        then emit (UiWarning (msg_mismatch target_count generated_count)) s2
        else s2 in
      show_table results s3
  end.

(** The handler of the "Run Fan-Out" button. *)
Definition run (user_query mode : str) (sw : session * World)
  : result unit * (session * World) :=
  let (s0, w) := sw in
  let s := set_details VNone s0 in
  if negb (truthy (strip user_query)) then
    (Ok tt, (emit (UiWarning msg_enter_query) s, w))
  else
    let '(results, (s1, w1)) := generate_fanout user_query mode (s, w) in
    if py_truthy results then
      let (r, s2) := show_results results s1 in (r, (s2, w1))
    else (Ok tt, (emit (UiWarning msg_none) s1, w1)).

End Model.

End Single.

(* ================================================================== *)
(** * Facts about the string methods *)
(* ================================================================== *)

Module PyFacts.

Lemma eqb_eq (a b : str) : Py.eqb a b = true <-> a = b.
Proof.
  revert b; induction a as [|x a IH]; destruct b as [|y b]; simpl;
    try (split; [discriminate | discriminate]); try tauto.
  rewrite andb_true_iff, N.eqb_eq, IH.
  split; [intros [-> ->]; reflexivity | intros H; injection H; auto].
Qed.

Lemma eqb_refl (a : str) : Py.eqb a a = true.
Proof. apply eqb_eq; reflexivity. Qed.

Lemma eqb_neq (a b : str) : Py.eqb a b = false <-> a <> b.
Proof.
  split.
  - intros H E. apply eqb_eq in E. congruence.
  - intros H. destruct (Py.eqb a b) eqn:E; [apply eqb_eq in E; contradiction | reflexivity].
Qed.

Lemma startswith_app (p r : str) : startswith (p ++ r) p = true.
Proof. induction p as [|x p IH]; simpl; [reflexivity|]. now rewrite N.eqb_refl. Qed.

Lemma startswith_spec (s p : str) :
  startswith s p = true <-> exists r, s = p ++ r.
Proof.
  split.
  - revert s; induction p as [|x p IH]; intros s H; simpl in *.
    + now exists s.
    + destruct s as [|y s]; [discriminate|].
      apply andb_true_iff in H as [H1 H2]. apply N.eqb_eq in H1 as ->.
      destruct (IH _ H2) as [r ->]. now exists r.
  - intros [r ->]. apply startswith_app.
Qed.

Lemma endswith_spec (s p : str) :
  endswith s p = true <-> exists r, s = r ++ p.
Proof.
  unfold endswith. rewrite startswith_spec. split.
  - intros [r H]. exists (rev r).
    rewrite <- (rev_involutive s), H, rev_app_distr, rev_involutive. reflexivity.
  - intros [r ->]. exists (rev r). apply rev_app_distr.
Qed.

Lemma startswith_skipn (s p : str) :
  startswith s p = true -> s = p ++ skipn (List.length p) s.
Proof.
  intros H. apply startswith_spec in H as [r ->].
  now rewrite skipn_app, skipn_all, Nat.sub_diag.
Qed.

Lemma slice_to_neg_app (r p : str) :
  slice_to_neg (List.length p) (r ++ p) = r.
Proof.
  unfold slice_to_neg. rewrite length_app, Nat.add_sub.
  rewrite firstn_app, Nat.sub_diag, firstn_all. simpl. apply app_nil_r.
Qed.

(** ** [lstrip], [rstrip], [strip] *)

Lemma lstrip_spaces (w s : str) :
  forallb isspace w = true -> lstrip (w ++ s) = lstrip s.
Proof.
  induction w as [|c w IH]; simpl; [reflexivity|].
  intros H. apply andb_true_iff in H as [-> H]. auto.
Qed.

Lemma lstrip_solid (c : char) (s : str) :
  isspace c = false -> lstrip (c :: s) = c :: s.
Proof. intros H. simpl. now rewrite H. Qed.

Lemma lstrip_split (s : str) :
  exists w, s = w ++ lstrip s /\ forallb isspace w = true.
Proof.
  induction s as [|c s [w [E W]]]; simpl.
  - now exists [].
  - destruct (isspace c) eqn:C.
    + exists (c :: w). simpl. rewrite C, W. split; [now f_equal | reflexivity].
    + now exists [].
Qed.

Lemma lstrip_head (s : str) (c : char) (r : str) :
  lstrip s = c :: r -> isspace c = false.
Proof.
  induction s as [|d s IH]; simpl; [discriminate|].
  destruct (isspace d) eqn:D; [exact IH|].
  intros H. injection H as -> _. exact D.
Qed.

Lemma lstrip_nil_iff (s : str) : lstrip s = [] <-> forallb isspace s = true.
Proof.
  induction s as [|c s IH]; simpl; [tauto|].
  destruct (isspace c); simpl; [exact IH|]. split; discriminate.
Qed.

Lemma lstrip_idem (s : str) : lstrip (lstrip s) = lstrip s.
Proof.
  destruct (lstrip s) as [|c r] eqn:E; [reflexivity|].
  apply lstrip_solid. exact (lstrip_head _ E).
Qed.

Lemma rstrip_spaces (s w : str) :
  forallb isspace w = true -> rstrip (s ++ w) = rstrip s.
Proof.
  intros H. unfold rstrip. rewrite rev_app_distr, lstrip_spaces; [reflexivity|].
  rewrite forallb_forall in *. intros x Hx. apply H. now apply in_rev.
Qed.

Lemma rstrip_solid (s : str) (c : char) :
  isspace c = false -> rstrip (s ++ [c]) = s ++ [c].
Proof.
  intros H. unfold rstrip. rewrite rev_app_distr. simpl. rewrite H.
  simpl. now rewrite rev_involutive.
Qed.

Lemma rstrip_nil : rstrip [] = [].
Proof. reflexivity. Qed.

Lemma rstrip_cons_solid (c : char) (s : str) :
  isspace c = false -> exists r, rstrip (c :: s) = c :: r.
Proof.
  intros H. unfold rstrip. simpl.
  destruct (lstrip_split (rev s ++ [c])) as [w [E W]].
  destruct (lstrip (rev s ++ [c])) as [|d t] eqn:L.
  - rewrite app_nil_r in E. rewrite <- E in W.
    rewrite forallb_app in W. simpl in W. rewrite H in W.
    rewrite andb_false_r in W. discriminate.
  - assert (R : c :: s = rev (d :: t) ++ rev w).
    { rewrite <- rev_app_distr, <- E, rev_app_distr, rev_involutive. reflexivity. }
    destruct (rev (d :: t)) as [|x r] eqn:Rv.
    + apply (f_equal (@List.length _)) in Rv. rewrite length_rev in Rv. discriminate.
    + simpl in R. injection R as <- _. now exists r.
Qed.

Lemma rstrip_nil_iff (s : str) : rstrip s = [] <-> forallb isspace s = true.
Proof.
  unfold rstrip. split.
  - intros H. apply (f_equal (@rev _)) in H. rewrite rev_involutive in H. simpl in H.
    apply lstrip_nil_iff in H. rewrite forallb_forall in *.
    intros x Hx. apply H. now apply in_rev in Hx.
  - intros H. assert (L : lstrip (rev s) = []).
    { apply lstrip_nil_iff. rewrite forallb_forall in *.
      intros x Hx. apply H. now apply in_rev. }
    now rewrite L.
Qed.

(** A string is blank when [strip] leaves nothing of it. *)
Lemma strip_nil_iff (s : str) : strip s = [] <-> forallb isspace s = true.
Proof.
  unfold strip. rewrite rstrip_nil_iff. split.
  - intros H. destruct (lstrip_split s) as [w [E W]].
    rewrite E, forallb_app, W, H. reflexivity.
  - intros H. destruct (lstrip_split s) as [w [E W]].
    rewrite E, forallb_app in H. now apply andb_true_iff in H as [_ H].
Qed.

Lemma truthy_strip (s : str) : truthy (strip s) = negb (forallb isspace s).
Proof.
  destruct (forallb isspace s) eqn:E.
  - apply strip_nil_iff in E. now rewrite E.
  - destruct (strip s) eqn:S; [|reflexivity].
    apply strip_nil_iff in S. congruence.
Qed.

(** [strip] removes exactly the blank margins around a core that starts
    and ends with a character that is not whitespace. *)
Lemma strip_margins (w1 w2 core : str) (c : char) :
  forallb isspace w1 = true -> forallb isspace w2 = true ->
  isspace c = false -> lstrip (core ++ [c]) = core ++ [c] ->
  strip (w1 ++ (core ++ [c]) ++ w2) = core ++ [c].
Proof.
  intros W1 W2 C L. unfold strip.
  rewrite lstrip_spaces by assumption.
  assert (E : lstrip ((core ++ [c]) ++ w2) = (core ++ [c]) ++ w2).
  { destruct core as [|d core]; simpl in *.
    - now rewrite C.
    - destruct (isspace d) eqn:D; [|reflexivity].
      exfalso. destruct (lstrip_split (core ++ [c])) as [w [E _]].
      rewrite L in E. apply (f_equal (@List.length _)) in E.
      repeat (rewrite length_app in E || simpl in E). lia. }
  rewrite E, rstrip_spaces by assumption. now apply rstrip_solid.
Qed.

Lemma strip_head (s : str) (c : char) (r : str) :
  strip s = c :: r -> isspace c = false.
Proof.
  unfold strip. intros H.
  destruct (lstrip s) as [|d t] eqn:L; [discriminate|].
  pose proof (lstrip_head _ L) as D.
  destruct (@rstrip_cons_solid d t D) as [r' R]. rewrite R in H.
  injection H as <- _. exact D.
Qed.

Lemma strip_last (s : str) (r : str) (c : char) :
  strip s = r ++ [c] -> isspace c = false.
Proof.
  unfold strip, rstrip. intros H.
  apply (f_equal (@rev _)) in H. rewrite rev_involutive, rev_app_distr in H.
  simpl in H. exact (lstrip_head _ H).
Qed.

Lemma strip_idem (s : str) : strip (strip s) = strip s.
Proof.
  destruct (strip s) as [|c r] eqn:E; [reflexivity|].
  destruct (@exists_last _ (c :: r)) as [core [d D]]; [discriminate|].
  pose proof E as E'. rewrite D in E'. apply strip_last in E'.
  rewrite D.
  replace (core ++ [d]) with ([] ++ (core ++ [d]) ++ []) at 1
    by (simpl; now rewrite app_nil_r).
  apply strip_margins; auto.
  rewrite <- D. apply lstrip_solid. exact (strip_head _ E).
Qed.

(** Blank margins do not matter to [strip]. *)
Lemma strip_pad (w1 w2 t : str) :
  forallb isspace w1 = true -> forallb isspace w2 = true ->
  strip (w1 ++ t ++ w2) = strip t.
Proof.
  intros W1 W2. unfold strip. rewrite lstrip_spaces by assumption.
  destruct (lstrip_split t) as [w [E W]].
  destruct (lstrip t) as [|c r] eqn:L.
  - rewrite app_nil_r in E. subst w.
    rewrite lstrip_spaces by assumption.
    apply lstrip_nil_iff in W2. now rewrite W2.
  - rewrite E, <- app_assoc, lstrip_spaces by assumption.
    change ((c :: r) ++ w2) with (c :: r ++ w2).
    rewrite lstrip_solid by exact (lstrip_head _ L).
    change (c :: r ++ w2) with ((c :: r) ++ w2).
    now rewrite rstrip_spaces.
Qed.

End PyFacts.

(* ================================================================== *)
(** * The prompt builder *)
(* ================================================================== *)

Module PromptFacts.

Lemma occurs_here (x b : str) : occurs_in x (x ++ b).
Proof. now exists [], b. Qed.

Lemma occurs_refl (x : str) : occurs_in x x.
Proof. exists [], []. simpl. now rewrite app_nil_r. Qed.

Lemma occurs_skip (a x s : str) : occurs_in x s -> occurs_in x (a ++ s).
Proof.
  intros [u [v ->]]. exists (a ++ u), v. now rewrite app_assoc.
Qed.

Lemma occurs_keep (b x s : str) : occurs_in x s -> occurs_in x (s ++ b).
Proof.
  intros [u [v ->]]. exists u, (v ++ b). now rewrite <- !app_assoc.
Qed.

Lemma occurs_quoted (x : str) : occurs_in x (quoted x).
Proof. now exists [dq], [dq]. Qed.

(** Walks along a concatenation until the wanted piece is at its head. *)
Ltac find_piece tac :=
  first [ tac | apply occurs_skip; find_piece tac ].

Lemma simple_is_simple : Py.eqb mode_simple mode_simple = true.
Proof. reflexivity. Qed.

Lemma complex_not_simple : Py.eqb mode_complex mode_simple = false.
Proof. reflexivity. Qed.

Lemma query_in_bulk_prompt (q mode : str) :
  occurs_in q (Bulk.QUERY_FANOUT_PROMPT q mode).
Proof.
  unfold Bulk.QUERY_FANOUT_PROMPT.
  find_piece ltac:(apply occurs_keep; apply occurs_quoted).
Qed.

Lemma query_in_single_prompt (q mode : str) :
  occurs_in q (Single.QUERY_FANOUT_PROMPT q mode).
Proof.
  unfold Single.QUERY_FANOUT_PROMPT.
  find_piece ltac:(apply occurs_keep; apply occurs_quoted).
Qed.

(** The sentences that carry the minimum count. *)
Definition bulk_minimum (n : nat) : str :=
  lit "This number must be at least " ++ str_of_nat n ++ lit ".".

Definition single_minimum (n : nat) : str :=
  lit "(" ++ [Single.ge_sign] ++ str_of_nat n ++ lit ")".

Lemma bulk_instruction_minimum (q mode : str) :
  occurs_in
    (bulk_minimum (if Py.eqb mode mode_simple then 10 else 20))
    (Bulk.num_queries_instruction q mode).
Proof.
  unfold Bulk.num_queries_instruction.
  destruct (Py.eqb mode mode_simple).
  - do 6 apply occurs_skip.
    match goal with |- occurs_in _ (_ ++ _ ++ _ ++ ?r) =>
      exists [], (lit " " ++ r); vm_compute; reflexivity end.
  - do 6 apply occurs_skip.
    match goal with |- occurs_in _ (_ ++ _ ++ _ ++ ?r) =>
      exists [], (lit " " ++ r); vm_compute; reflexivity end.
Qed.

Lemma single_instruction_minimum (q mode : str) :
  occurs_in
    (single_minimum (if Py.eqb mode mode_simple then 10 else 20))
    (Single.num_queries_instruction q mode).
Proof.
  unfold Single.num_queries_instruction.
  destruct (Py.eqb mode mode_simple).
  - do 4 apply occurs_skip.
    match goal with |- occurs_in _ (_ ++ _ ++ _ ++ _ ++ ?r) =>
      exists (lit "', decide an optimal number of queries "),
             (lit ". " ++ r); vm_compute; reflexivity end.
  - do 4 apply occurs_skip.
    match goal with |- occurs_in _ (_ ++ _ ++ _ ++ _ ++ ?r) =>
      exists (lit "', decide an optimal number of queries "),
             (lit ". " ++ r); vm_compute; reflexivity end.
Qed.

Lemma bulk_prompt_minimum (q mode : str) :
  occurs_in
    (bulk_minimum (if Py.eqb mode mode_simple then 10 else 20))
    (Bulk.QUERY_FANOUT_PROMPT q mode).
Proof.
  unfold Bulk.QUERY_FANOUT_PROMPT.
  find_piece ltac:(apply occurs_keep; apply bulk_instruction_minimum).
Qed.

Lemma single_prompt_minimum (q mode : str) :
  occurs_in
    (single_minimum (if Py.eqb mode mode_simple then 10 else 20))
    (Single.QUERY_FANOUT_PROMPT q mode).
Proof.
  unfold Single.QUERY_FANOUT_PROMPT.
  find_piece ltac:(apply occurs_keep; apply single_instruction_minimum).
Qed.

(** C6. For every query [q] and both modes, the prompt of either script
    contains [q] itself and the sentence that states the minimum count of
    the mode: 10 for "AI Overview (simple)", 20 for "AI Mode (complex)". *)
Theorem C6_prompt_contains_query_and_minimum (q : str) :
  (occurs_in q (Bulk.QUERY_FANOUT_PROMPT q mode_simple)
   /\ occurs_in (lit "This number must be at least 10.")
        (Bulk.QUERY_FANOUT_PROMPT q mode_simple)
   /\ occurs_in q (Bulk.QUERY_FANOUT_PROMPT q mode_complex)
   /\ occurs_in (lit "This number must be at least 20.")
        (Bulk.QUERY_FANOUT_PROMPT q mode_complex))
  /\
  (occurs_in q (Single.QUERY_FANOUT_PROMPT q mode_simple)
   /\ occurs_in (lit "(" ++ [Single.ge_sign] ++ lit "10)")
        (Single.QUERY_FANOUT_PROMPT q mode_simple)
   /\ occurs_in q (Single.QUERY_FANOUT_PROMPT q mode_complex)
   /\ occurs_in (lit "(" ++ [Single.ge_sign] ++ lit "20)")
        (Single.QUERY_FANOUT_PROMPT q mode_complex)).
Proof.
  repeat split; try apply query_in_bulk_prompt; try apply query_in_single_prompt.
  - exact (bulk_prompt_minimum q mode_simple).
  - exact (bulk_prompt_minimum q mode_complex).
  - exact (single_prompt_minimum q mode_simple).
  - exact (single_prompt_minimum q mode_complex).
Qed.

End PromptFacts.

(* ================================================================== *)
(** * The list of lookups *)
(* ================================================================== *)

Module LookupFacts.

Import PyFacts.

(** A line is blank when every character of it is whitespace. *)
Definition blank (line : str) : bool := forallb isspace line.

Lemma bulk_lookups (bulk_text : str) :
  Bulk.build_lookups (Bulk.BulkList bulk_text)
  = map strip (filter (fun line => negb (blank line)) (splitlines bulk_text)).
Proof.
  simpl. f_equal. apply filter_ext. intros line. apply truthy_strip.
Qed.

Lemma single_lookups (user_query : str) :
  Bulk.build_lookups (Bulk.SingleQuery user_query)
  = if blank user_query then [] else [strip user_query].
Proof.
  simpl. rewrite truthy_strip. unfold blank. now destruct (forallb isspace user_query).
Qed.

Lemma lookups_trimmed (i : Bulk.input) (q : str) :
  In q (Bulk.build_lookups i) -> q <> [] /\ strip q = q.
Proof.
  destruct i as [user_query | bulk_text].
  - simpl. destruct (truthy (strip user_query)) eqn:T; simpl; [|tauto].
    intros [<- | []]. split; [|apply strip_idem].
    intros E. rewrite E in T. discriminate.
  - simpl. rewrite in_map_iff. intros [line [<- H]].
    apply filter_In in H as [_ T]. split; [|apply strip_idem].
    intros E. rewrite E in T. discriminate.
Qed.

Lemma no_lookups_iff (i : Bulk.input) :
  Bulk.build_lookups i = [] <->
  match i with
  | Bulk.SingleQuery user_query => blank user_query = true
  | Bulk.BulkList bulk_text =>
      Forall (fun line => blank line = true) (splitlines bulk_text)
  end.
Proof.
  destruct i as [user_query | bulk_text].
  - rewrite single_lookups. destruct (blank user_query); split; congruence.
  - rewrite bulk_lookups. induction (splitlines bulk_text) as [|l ls IH]; simpl.
    + split; auto.
    + destruct (blank l) eqn:B; simpl.
      * rewrite IH. split; [intros H; constructor; auto | intros H; now inversion H].
      * split; [discriminate | intros H; inversion H; congruence].
Qed.

(** C10. The bulk lookups are the trimmed non-blank lines of the input,
    in their order; every lookup is non-empty and trimmed; the list is
    empty exactly when the input holds nothing but whitespace; and then
    the handler only warns and stops, leaving the generation client
    untouched.  The single script likewise only warns on a blank query. *)
Theorem C10_lookups_built_and_guarded :
  (forall bulk_text,
      Bulk.build_lookups (Bulk.BulkList bulk_text)
      = map strip (filter (fun line => negb (blank line)) (splitlines bulk_text)))
  /\ (forall i q, In q (Bulk.build_lookups i) -> q <> [] /\ strip q = q)
  /\ (forall i,
        Bulk.build_lookups i = [] <->
        match i with
        | Bulk.SingleQuery user_query => blank user_query = true
        | Bulk.BulkList bulk_text =>
            Forall (fun line => blank line = true) (splitlines bulk_text)
        end)
  /\ (forall (World : Type) (generate_content : str -> World -> result str * World)
             i mode w,
        Bulk.build_lookups i = [] ->
        Bulk.run generate_content i mode w
        = (Bulk.mk_run_state [] [] []
             [UiWarning Bulk.msg_no_lookups; UiStop], w))
  /\ (forall (World : Type) (generate_content : str -> World -> result str * World)
             (dataframe download_csv : value -> result unit)
             user_query mode s w,
        blank user_query = true ->
        Single.run generate_content dataframe download_csv user_query mode (s, w)
        = (Ok tt,
           (Single.mk_session VNone (Single.ui s ++ [UiWarning Single.msg_enter_query]),
            w))).
Proof.
  split; [exact bulk_lookups|].
  split; [exact lookups_trimmed|].
  split; [exact no_lookups_iff|].
  split.
  - intros World gc i mode w H. unfold Bulk.run. now rewrite H.
  - intros World gc dataframe download_csv user_query mode s w H.
    unfold Single.run. rewrite truthy_strip. unfold blank in H. rewrite H. reflexivity.
Qed.

(** A generation client that counts its calls. *)
Definition counting_client (prompt : str) (calls : nat) : result str * nat :=
  (Ok (lit "{}"), S calls).

Lemma C10_witness :
  Bulk.run counting_client (Bulk.BulkList (lit "   " ++ [nl; 9%N; nl] ++ lit " "))
    mode_simple 0
  = (Bulk.mk_run_state [] [] [] [UiWarning Bulk.msg_no_lookups; UiStop], 0)
  /\ Bulk.build_lookups
       (Bulk.BulkList (lit " a b " ++ [nl; nl] ++ lit "  " ++ [nl] ++ lit "c"))
     = [lit "a b"; lit "c"].
Proof.
  split.
  - apply (proj1 (proj2 (proj2 (proj2 C10_lookups_built_and_guarded)))).
    reflexivity.
  - rewrite (proj1 C10_lookups_built_and_guarded). reflexivity.
Defined.

End LookupFacts.

(* ================================================================== *)
(** * Where [json.loads] gives up at once *)
(* ================================================================== *)

Module JsonReject.

(** The characters a JSON value can start with. *)
Definition starts_value (c : char) : bool :=
  ((c =? 34) || (c =? 123) || (c =? 91) || (c =? 110) || (c =? 116)
   || (c =? 102) || (c =? 78) || (c =? 73) || (c =? 45)
   || Json.is_digit c)%N.

Lemma keyword_head (k : string) (v : value) (pos : nat) (c : char) (s : str) (a : ascii) (k' : string) :
  k = String a k' -> (c =? N_of_ascii a)%N = false ->
  Json.keyword k v pos (c :: s) = None.
Proof.
  intros -> H. unfold Json.keyword. simpl.
  rewrite N.eqb_sym, H. reflexivity.
Qed.

Lemma match_number_rejects (c : char) (s : str) :
  (c =? 45)%N = false -> Json.is_digit c = false ->
  Json.match_number (c :: s) = None.
Proof.
  intros M D. unfold Json.match_number, Json.scan_integer. rewrite M, D.
  destruct (c =? 48)%N eqn:Z; [|reflexivity].
  apply N.eqb_eq in Z. subst c. discriminate.
Qed.

Lemma scan_once_rejects (fuel pos : nat) (c : char) (s : str) :
  starts_value c = false ->
  Json.scan_once (S fuel) pos (c :: s) = Json.PErr Json.msg_value pos.
Proof.
  unfold starts_value. intros H.
  repeat (apply orb_false_iff in H as [H ?]).
  cbn [Json.scan_once].
  repeat match goal with E : (c =? _)%N = false |- _ => rewrite E end.
  rewrite (@keyword_head "null" _ pos c s "n" "ull") by easy.
  rewrite (@keyword_head "true" _ pos c s "t" "rue") by easy.
  rewrite (@keyword_head "false" _ pos c s "f" "alse") by easy.
  rewrite (@keyword_head "NaN" _ pos c s "N" "aN") by easy.
  rewrite (@keyword_head "Infinity" _ pos c s "I" "nfinity") by easy.
  rewrite (@keyword_head "-Infinity" _ pos c s "-" "Infinity") by easy.
  cbn [Json.first_some]. now rewrite match_number_rejects.
Qed.

Lemma loads_rejects (c : char) (s : str) :
  starts_value c = false -> Json.is_ws c = false -> c <> 65279%N ->
  Json.loads (c :: s) = Raise (JSONDecodeError Json.msg_value (c :: s) 0).
Proof.
  intros V W B. unfold Json.loads.
  assert (E : startswith (c :: s) [65279%N] = false).
  { cbn [startswith]. rewrite andb_true_r. now apply N.eqb_neq, not_eq_sym. }
  rewrite E. unfold Json.decode, Json.fuel_for.
  cbn [Json.skip_ws]. rewrite W.
  rewrite (@scan_once_rejects _ 0 c s V). reflexivity.
Qed.

Lemma loads_empty :
  Json.loads [] = Raise (JSONDecodeError Json.msg_value [] 0).
Proof. reflexivity. Qed.

Lemma loads_backtick (s : str) :
  Json.loads (backtick :: s)
  = Raise (JSONDecodeError Json.msg_value (backtick :: s) 0).
Proof. apply loads_rejects; [reflexivity | reflexivity | discriminate]. Qed.

End JsonReject.

(* ================================================================== *)
(** * The fence clean-up *)
(* ================================================================== *)

Module FenceFacts.

Import PyFacts.

(** What the clean-up cuts from the trimmed text. *)
Definition cut_front (t : str) : nat := if startswith t fence_json then 7 else 0.
Definition cut_back (t : str) : nat := if endswith t fence then 3 else 0.

Lemma slice_to_neg_0 (t : str) : slice_to_neg 0 t = t.
Proof. unfold slice_to_neg. rewrite Nat.sub_0_r. apply firstn_all. Qed.

Lemma cut_close (r : str) : slice_to_neg 3 (r ++ fence) = r.
Proof. exact (slice_to_neg_app r fence). Qed.

Lemma cut_open (r : str) : slice_from 7 (fence_json ++ r) = r.
Proof. reflexivity. Qed.

Lemma open_fence_kept (t : str) :
  startswith t fence_json = false -> strip_open_fence t = t.
Proof. unfold strip_open_fence. now intros ->. Qed.

Lemma open_fence_cut (r : str) : strip_open_fence (fence_json ++ r) = r.
Proof.
  unfold strip_open_fence. now rewrite startswith_app.
Qed.

(** The opening fence holds no backtick after its third character, so it
    cannot share characters with a closing fence. *)
Lemma endswith_after_open (r : str) :
  endswith (fence_json ++ r) fence = endswith r fence.
Proof.
  unfold endswith. rewrite rev_app_distr.
  destruct (rev r) as [|a [|b [|c l]]]; cbn [app startswith rev fence fence_json lit];
    rewrite ?andb_false_r; reflexivity.
Qed.

Lemma close_test_independent (t : str) :
  endswith (strip_open_fence t) fence = endswith t fence.
Proof.
  destruct (startswith t fence_json) eqn:E.
  - apply startswith_spec in E as [r ->].
    now rewrite open_fence_cut, endswith_after_open.
  - now rewrite open_fence_kept.
Qed.

Lemma clean_fences_cuts (text : str) :
  clean_fences text
  = strip (slice_from (cut_front (strip text))
             (slice_to_neg (cut_back (strip text)) (strip text))).
Proof.
  unfold clean_fences, strip_close_fence, cut_front, cut_back.
  rewrite close_test_independent.
  set (t := strip text).
  destruct (startswith t fence_json) eqn:A; destruct (endswith t fence) eqn:B.
  - apply startswith_spec in A as [r ->].
    rewrite endswith_after_open in B. apply endswith_spec in B as [m ->].
    rewrite open_fence_cut. f_equal.
    now rewrite cut_close, app_assoc, cut_close, cut_open.
  - apply startswith_spec in A as [r ->].
    now rewrite open_fence_cut, slice_to_neg_0.
  - now rewrite open_fence_kept.
  - now rewrite open_fence_kept, slice_to_neg_0.
Qed.

(** A text that opens with a plain fence stays headed by a backtick, or
    becomes empty. *)
Lemma plain_fence_survives (text : str) :
  startswith (strip text) fence = true ->
  startswith (strip text) fence_json = false ->
  clean_fences text = [] \/ exists r, clean_fences text = backtick :: r.
Proof.
  intros P J. rewrite clean_fences_cuts. unfold cut_front. rewrite J.
  unfold slice_from. cbn [skipn].
  apply startswith_spec in P as [r ->].
  set (u := slice_to_neg _ _).
  assert (U : u = [] \/ exists r', u = backtick :: r').
  { unfold u, slice_to_neg.
    destruct (List.length (fence ++ r) - cut_back (fence ++ r)); [now left|].
    right. cbn. eauto. }
  destruct U as [-> | [r' ->]]; [now left|]. right.
  unfold strip. rewrite lstrip_solid by reflexivity.
  apply rstrip_cons_solid. reflexivity.
Qed.

Lemma plain_fence_fails (text : str) :
  startswith (strip text) fence = true ->
  startswith (strip text) fence_json = false ->
  Json.loads (clean_fences text)
  = Raise (JSONDecodeError Json.msg_value (clean_fences text) 0).
Proof.
  intros P J. destruct (plain_fence_survives _ P J) as [-> | [r ->]].
  - apply JsonReject.loads_empty.
  - apply JsonReject.loads_backtick.
Qed.

(** The text between the fences of a fenced body. *)
Lemma clean_fenced (t : str) :
  clean_fences (fence_json ++ [nl] ++ t ++ [nl] ++ fence) = strip t.
Proof.
  rewrite clean_fences_cuts.
  assert (S : strip (fence_json ++ [nl] ++ t ++ [nl] ++ fence)
              = fence_json ++ [nl] ++ t ++ [nl] ++ fence).
  { assert (F : fence_json ++ [nl] ++ t ++ [nl] ++ fence
                = (fence_json ++ [nl] ++ t ++ [nl] ++ lit "``") ++ [backtick])
      by (rewrite <- !app_assoc; reflexivity).
    rewrite F.
    pose proof (@strip_margins [] [] (fence_json ++ [nl] ++ t ++ [nl] ++ lit "``")
                  backtick eq_refl eq_refl eq_refl eq_refl) as H.
    rewrite app_nil_r in H. exact H. }
  rewrite S. unfold cut_front, cut_back.
  rewrite startswith_app.
  assert (E : endswith (fence_json ++ [nl] ++ t ++ [nl] ++ fence) fence = true).
  { apply endswith_spec. exists (fence_json ++ [nl] ++ t ++ [nl]).
    now rewrite <- !app_assoc. }
  rewrite E.
  replace (fence_json ++ [nl] ++ t ++ [nl] ++ fence)
    with ((fence_json ++ [nl] ++ t ++ [nl]) ++ fence) by now rewrite <- !app_assoc.
  rewrite cut_close, cut_open.
  apply strip_pad; reflexivity.
Qed.

End FenceFacts.

(* ================================================================== *)
(** * What a successful [json.loads] says about the text *)
(* ================================================================== *)

Module JsonFacts.

Import PyFacts.

(** A character that is neither whitespace for [strip] nor a backtick. *)
Definition solid (c : char) : bool := negb (isspace c) && negb (c =? backtick)%N.

(** Turns boolean facts on characters into arithmetic. *)
Ltac char_props H :=
  repeat (rewrite ?orb_true_iff, ?andb_true_iff, ?orb_false_iff,
            ?andb_false_iff, ?negb_true_iff, ?negb_false_iff,
            ?N.leb_le, ?N.leb_gt, ?N.eqb_eq, ?N.eqb_neq in H).

Ltac char_goal :=
  repeat (rewrite ?orb_true_iff, ?andb_true_iff, ?orb_false_iff,
            ?andb_false_iff, ?negb_true_iff, ?negb_false_iff,
            ?N.leb_le, ?N.leb_gt, ?N.eqb_eq, ?N.eqb_neq).

Lemma ws_isspace (c : char) : Json.is_ws c = true -> isspace c = true.
Proof.
  unfold Json.is_ws, isspace. intros H. char_props H. char_goal. lia.
Qed.

Lemma digit_solid (c : char) : Json.is_digit c = true -> solid c = true.
Proof.
  unfold Json.is_digit, solid, isspace, backtick. intros H.
  char_props H. char_goal. lia.
Qed.

Lemma starts_value_solid (c : char) :
  JsonReject.starts_value c = true -> solid c = true.
Proof.
  unfold JsonReject.starts_value, Json.is_digit, solid, isspace, backtick.
  intros H. char_props H. char_goal. lia.
Qed.

Lemma solid_isspace (c : char) : solid c = true -> isspace c = false.
Proof. unfold solid. intros H. char_props H. tauto. Qed.

Lemma solid_backtick (c : char) : solid c = true -> c <> backtick.
Proof. unfold solid. intros H. char_props H. tauto. Qed.

Lemma all_ws_isspace (w : str) :
  forallb Json.is_ws w = true -> forallb isspace w = true.
Proof.
  rewrite !forallb_forall. intros H x Hx. apply ws_isspace. auto.
Qed.

(** [ends_at c r s]: the input [s] ends with [c] followed by [r]; when a
    scanner turns [s] into the rest [r], [c] is the last character it
    consumed. *)
Inductive ends_at (c : char) (r : str) : str -> Prop :=
| ends_here : ends_at c r (c :: r)
| ends_later (d : char) (s : str) : ends_at c r s -> ends_at c r (d :: s).

Lemma ends_at_app (c : char) (r a s : str) :
  ends_at c r s -> ends_at c r (a ++ s).
Proof. induction a; simpl; [auto | intros; constructor; auto]. Qed.

Lemma ends_at_split (c : char) (r s : str) :
  ends_at c r s -> exists a, s = a ++ c :: r.
Proof.
  induction 1 as [|d s _ [a ->]]; [now exists [] | now exists (d :: a)].
Qed.

Lemma ends_at_intro (c : char) (r a : str) : ends_at c r (a ++ c :: r).
Proof. apply ends_at_app. constructor. Qed.

(** Scanning on from the rest of an earlier scan. *)
Lemma ends_at_chain (c d : char) (r1 r s : str) :
  ends_at c r1 s -> ends_at d r r1 -> ends_at d r s.
Proof.
  induction 1; intros K; [now constructor | constructor; auto].
Qed.

Lemma skip_ws_split (pos : nat) (s : str) :
  exists w, s = w ++ snd (Json.skip_ws pos s) /\ forallb Json.is_ws w = true.
Proof.
  revert pos; induction s as [|c s IH]; intros pos; simpl.
  - now exists [].
  - destruct (Json.is_ws c) eqn:W; [|now exists []].
    destruct (IH (S pos)) as [w [E F]].
    exists (c :: w). simpl. rewrite W, F. split; [now f_equal | reflexivity].
Qed.

Lemma skip_ws_head (pos : nat) (s : str) (c : char) (r : str) :
  snd (Json.skip_ws pos s) = c :: r -> Json.is_ws c = false.
Proof.
  revert pos; induction s as [|d s IH]; intros pos; simpl; [discriminate|].
  destruct (Json.is_ws d) eqn:W; [apply IH|].
  simpl. intros H. injection H as -> _. exact W.
Qed.

Lemma span_digits_split (s : str) :
  s = fst (Json.span_digits s) ++ snd (Json.span_digits s)
  /\ forallb Json.is_digit (fst (Json.span_digits s)) = true.
Proof.
  induction s as [|c s [E F]]; simpl; [auto|].
  destruct (Json.is_digit c) eqn:D; [|auto].
  destruct (Json.span_digits s) as [ds r]. simpl in *.
  rewrite D, F. split; [now f_equal | reflexivity].
Qed.

(** A text ends with a digit. *)
Definition ends_digit (l : str) : Prop :=
  exists l' d, l = l' ++ [d] /\ Json.is_digit d = true.

Lemma digits_end_digit (l : str) :
  l <> [] -> forallb Json.is_digit l = true -> ends_digit l.
Proof.
  intros N F. destruct (exists_last N) as [l' [d ->]].
  exists l', d. split; [reflexivity|].
  rewrite forallb_app in F. apply andb_true_iff in F as [_ F].
  simpl in F. now rewrite andb_true_r in F.
Qed.

Lemma ends_digit_app (a l : str) : ends_digit l -> ends_digit (a ++ l).
Proof.
  intros [l' [d [-> D]]]. exists (a ++ l'), d. now rewrite app_assoc.
Qed.

Lemma ends_digit_keep (l : str) : ends_digit l -> ends_digit (l ++ []).
Proof. now rewrite app_nil_r. Qed.

Lemma ends_digit_at (l r : str) :
  ends_digit l -> exists d, ends_at d r (l ++ r) /\ Json.is_digit d = true.
Proof.
  intros [l' [d [-> D]]]. exists d. split; [|exact D].
  rewrite <- app_assoc. apply ends_at_intro.
Qed.

Lemma scan_integer_split (s : str) (neg : bool) (ds r : str) :
  Json.scan_integer s = Some (neg, ds, r) ->
  s = (if neg then [45%N] else []) ++ ds ++ r /\ ends_digit ds.
Proof.
  unfold Json.scan_integer.
  assert (K : forall (neg0 : bool) (s1 : str),
             match s1 with
             | [] => None
             | d :: s2 =>
                 if (d =? 48)%N then Some (neg0, [d], s2)
                 else if Json.is_digit d
                      then let (ds0, r0) := Json.span_digits s2 in
                           Some (neg0, d :: ds0, r0)
                      else None
             end = Some (neg, ds, r) ->
             neg0 = neg /\ s1 = ds ++ r /\ ends_digit ds).
  { intros neg0 [|d s2]; [discriminate|].
    destruct (d =? 48)%N eqn:Z.
    - intros H. injection H as -> <- <-. apply N.eqb_eq in Z. subst d.
      repeat split. now exists [], 48%N.
    - destruct (Json.is_digit d) eqn:D; [|discriminate].
      destruct (span_digits_split s2) as [E F].
      destruct (Json.span_digits s2) as [ds0 r0]. simpl in E, F.
      intros H. injection H as -> <- <-.
      repeat split; [now rewrite E|].
      apply digits_end_digit; [discriminate|]. simpl. now rewrite D, F. }
  destruct s as [|c s'].
  - discriminate.
  - destruct (c =? 45)%N eqn:M; intros H.
    + apply (K true s') in H as [<- [H1 H2]].
      apply N.eqb_eq in M. subst c. split; [now rewrite H1 | exact H2].
    + apply (K false (c :: s')) in H as [<- [H1 H2]]. auto.
Qed.

Lemma scan_frac_split (s : str) :
  s = fst (Json.scan_frac s) ++ snd (Json.scan_frac s)
  /\ (fst (Json.scan_frac s) = [] \/ ends_digit (fst (Json.scan_frac s))).
Proof.
  unfold Json.scan_frac. destruct s as [|p [|d s']]; simpl; auto.
  destruct ((p =? 46)%N && Json.is_digit d) eqn:C; simpl; auto.
  apply andb_true_iff in C as [_ D].
  destruct (span_digits_split s') as [E F].
  destruct (Json.span_digits s') as [ds r]. simpl in *.
  split; [now rewrite E|]. right.
  change (p :: d :: ds) with ([p] ++ d :: ds). apply ends_digit_app.
  apply digits_end_digit; [discriminate|]. simpl. now rewrite D, F.
Qed.

Lemma scan_exp_split (s : str) :
  s = fst (Json.scan_exp s) ++ snd (Json.scan_exp s)
  /\ (fst (Json.scan_exp s) = [] \/ ends_digit (fst (Json.scan_exp s))).
Proof.
  unfold Json.scan_exp. destruct s as [|e s1]; simpl; auto.
  destruct ((e =? 101) || (e =? 69))%N; simpl; auto.
  assert (K : exists sign s2,
             match s1 with
             | [] => ([], s1)
             | g :: s' => if ((g =? 45) || (g =? 43))%N then ([g], s') else ([], s1)
             end = (sign, s2) /\ s1 = sign ++ s2).
  { destruct s1 as [|g s']; [now exists [], []|].
    destruct ((g =? 45) || (g =? 43))%N; [now exists [g], s' | now exists [], (g :: s')]. }
  destruct K as [sign [s2 [-> E1]]].
  destruct (span_digits_split s2) as [E F].
  destruct (Json.span_digits s2) as [[|d ds] r]; simpl in *; auto.
  split; [rewrite E1, E; now rewrite <- app_assoc|].
  right. change (e :: sign ++ d :: ds) with ((e :: sign) ++ d :: ds).
  apply ends_digit_app. apply digits_end_digit; [discriminate|exact F].
Qed.

Lemma match_number_consumed (s : str) (v : value) (n : nat) (r : str) :
  Json.match_number s = Some (v, n, r) ->
  exists c, ends_at c r s /\ Json.is_digit c = true.
Proof.
  unfold Json.match_number.
  destruct (Json.scan_integer s) as [[[neg ds] r1]|] eqn:I; [|discriminate].
  apply scan_integer_split in I as [E1 D1].
  destruct (scan_frac_split r1) as [E2 D2].
  destruct (Json.scan_frac r1) as [frac r2]. simpl in E2, D2.
  destruct (scan_exp_split r2) as [E3 D3].
  destruct (Json.scan_exp r2) as [ex r3]. simpl in E3, D3.
  assert (T : ends_digit (((if neg then [45%N] else []) ++ ds) ++ frac ++ ex)).
  { destruct D3 as [-> | D3].
    - rewrite app_nil_r. destruct D2 as [-> | D2].
      + rewrite app_nil_r. now apply ends_digit_app.
      + now apply ends_digit_app.
    - rewrite app_assoc. now apply ends_digit_app. }
  assert (S : s = (((if neg then [45%N] else []) ++ ds) ++ frac ++ ex) ++ r3).
  { rewrite E1, E2, E3. now rewrite <- !app_assoc. }
  intros H. assert (R : r = r3) by (destruct frac, ex; congruence).
  subst r. rewrite S. now apply ends_digit_at.
Qed.

Ltac scan_step IH :=
  match goal with
  | |- Json.PErr _ _ = _ -> _ => discriminate
  | |- Json.POk _ = Json.POk _ -> _ =>
      let H := fresh in intros H; injection H as ? ? ?; subst
  | |- Json.scanstring _ _ _ _ = _ -> _ =>
      let H := fresh in
      intros H; apply IH in H; [|simpl in *; lia];
      repeat first [exact H | apply ends_later]
  | |- (if ?b then _ else _) = _ -> _ => destruct b eqn:?
  | |- match ?x with _ => _ end = _ -> _ => is_var x; destruct x
  | |- match ?x with _ => _ end = _ -> _ => destruct x eqn:?
  end.

(** The last character [scanstring] consumes is the closing quote. *)
Lemma scanstring_consumed (n : nat) :
  forall (s : str) (begin pos : nat) (acc x : str) (p : nat) (r : str),
    List.length s <= n ->
    Json.scanstring begin pos acc s = Json.POk (x, p, r) ->
    ends_at 34%N r s.
Proof.
  induction n as [|n IH]; intros s begin pos acc x p r L;
    destruct s as [|c s1]; cbn [Json.scanstring]; try discriminate.
  - simpl in L. lia.
  - repeat scan_step IH.
    match goal with Q : (c =? 34)%N = true |- _ => apply N.eqb_eq in Q; subst c end.
    constructor.
Qed.

Lemma keyword_split (k : string) (v0 : value) (pos : nat) (s : str)
      (v : value) (p : nat) (r : str) :
  Json.keyword k v0 pos s = Some (v, p, r) -> s = lit k ++ r.
Proof.
  unfold Json.keyword. destruct (startswith s (lit k)) eqn:E; [|discriminate].
  intros H. injection H as _ _ <-. now apply startswith_skipn.
Qed.

Lemma keywords_consumed (pos : nat) (s : str) (v : value) (p : nat) (r : str) :
  Json.first_some (Json.keyword "null" VNone pos s)
    (Json.first_some (Json.keyword "true" (VBool true) pos s)
    (Json.first_some (Json.keyword "false" (VBool false) pos s)
    (Json.first_some (Json.keyword "NaN" (VFloat (lit "NaN")) pos s)
    (Json.first_some (Json.keyword "Infinity" (VFloat (lit "Infinity")) pos s)
       (Json.keyword "-Infinity" (VFloat (lit "-Infinity")) pos s)))))
  = Some (v, p, r) ->
  exists c, ends_at c r s /\ solid c = true.
Proof.
  unfold Json.first_some.
  repeat match goal with
         | |- context [match Json.keyword ?k ?v0 pos s with _ => _ end] =>
             let E := fresh "E" in
             destruct (Json.keyword k v0 pos s) as [[[? ?] ?]|] eqn:E;
             [ let H := fresh in
               intros H; injection H as -> -> ->;
               apply keyword_split in E; rewrite E;
               eexists; split; [cbn; repeat constructor | reflexivity] | ]
         end.
  intros H. apply keyword_split in H. rewrite H.
  eexists; split; [cbn; repeat constructor | reflexivity].
Qed.

(** After an item: the bracket that closes, or a comma further on. *)
Lemma after_spec (close : char) (pos : nat) (s : str) :
  match Json.after close pos s with
  | Json.Closed _ r => ends_at close r s
  | Json.More _ r => exists w, s = w ++ r
  | Json.Bad _ => True
  end.
Proof.
  unfold Json.after.
  destruct (skip_ws_split pos s) as [w [E _]].
  destruct (Json.skip_ws pos s) as [p1 s1]. simpl in E.
  destruct s1 as [|c r0]; [exact I|].
  destruct (c =? close)%N eqn:C.
  - apply N.eqb_eq in C. subst c. rewrite E. apply ends_at_intro.
  - destruct (c =? 44)%N; [|exact I].
    destruct (skip_ws_split (S p1) r0) as [w2 [E2 _]].
    destruct (Json.skip_ws (S p1) r0) as [p2 r2]. simpl in E2.
    exists (w ++ c :: w2). rewrite E. rewrite E2 at 1.
    now rewrite <- app_assoc.
Qed.

(** The last character consumed by a successful scan: one that is
    neither whitespace nor a backtick for a value, the closing bracket
    for the items of an array or of an object. *)
Lemma scan_consumed (fuel : nat) :
  (forall pos s v p r,
      Json.scan_once fuel pos s = Json.POk (v, p, r) ->
      exists c, ends_at c r s /\ solid c = true)
  /\ (forall acc pos s v p r,
        Json.array_items fuel acc pos s = Json.POk (v, p, r) ->
        ends_at 93%N r s)
  /\ (forall acc pos s v p r,
        Json.object_items fuel acc pos s = Json.POk (v, p, r) ->
        ends_at 125%N r s).
Proof.
  induction fuel as [|f [IHs [IHa IHo]]].
  - repeat split; intros; discriminate.
  - split; [|split].
    + intros pos s v p r. cbn [Json.scan_once].
      destruct s as [|c s1]; [discriminate|].
      destruct (c =? 34)%N eqn:Q.
      { destruct (Json.scanstring pos (S pos) [] s1) as [[[x p1] r1]| |] eqn:SS;
          cbn [Json.pbind]; try discriminate.
        intros H. injection H as <- <- <-.
        exists 34%N. split; [|reflexivity]. constructor.
        eapply scanstring_consumed; [apply Nat.le_refl | exact SS]. }
      destruct (c =? 123)%N eqn:O.
      { destruct (skip_ws_split (S pos) s1) as [w [E _]].
        destruct (Json.skip_ws (S pos) s1) as [p1 s2]. simpl in E.
        exists 125%N. split; [|reflexivity]. constructor. rewrite E.
        apply ends_at_app.
        destruct s2 as [|c2 r2]; [eapply IHo; eassumption|].
        destruct (c2 =? 125)%N eqn:C; [|eapply IHo; eassumption].
        apply N.eqb_eq in C. subst c2.
        match goal with H : Json.POk _ = Json.POk _ |- _ => injection H as _ _ <- end.
        constructor. }
      destruct (c =? 91)%N eqn:A.
      { destruct (skip_ws_split (S pos) s1) as [w [E _]].
        destruct (Json.skip_ws (S pos) s1) as [p1 s2]. simpl in E.
        exists 93%N. split; [|reflexivity]. constructor. rewrite E.
        apply ends_at_app.
        destruct s2 as [|c2 r2]; [eapply IHa; eassumption|].
        destruct (c2 =? 93)%N eqn:C; [|eapply IHa; eassumption].
        apply N.eqb_eq in C. subst c2.
        match goal with H : Json.POk _ = Json.POk _ |- _ => injection H as _ _ <- end.
        constructor. }
      match goal with
      | |- match ?k with _ => _ end = _ -> _ => destruct k as [[[v1 p1] r1]|] eqn:K
      end.
      { intros H. injection H as <- <- <-. exact (keywords_consumed _ _ K). }
      destruct (Json.match_number (c :: s1)) as [[[v1 n1] r1]|] eqn:M;
        [|discriminate].
      intros H. injection H as <- _ <-.
      destruct (match_number_consumed _ M) as [d [E D]].
      exists d. split; [exact E | now apply digit_solid].
    + intros acc pos s v p r. cbn [Json.array_items].
      destruct (Json.scan_once f pos s) as [[[v1 p1] r1]| |] eqn:SO;
        cbn [Json.pbind]; try discriminate.
      apply IHs in SO as [c1 [E1 _]].
      pose proof (after_spec 93%N p1 r1) as AF.
      destruct (Json.after 93%N p1 r1) as [p' r'|p' r'|p']; intros H.
      * injection H as _ _ <-. exact (ends_at_chain E1 AF).
      * apply IHa in H. destruct AF as [w ->].
        apply (ends_at_chain E1). now apply ends_at_app.
      * discriminate.
    + intros acc pos s v p r. cbn [Json.object_items].
      destruct s as [|c s1]; [discriminate|].
      destruct (c =? 34)%N; [|discriminate].
      destruct (Json.scanstring pos (S pos) [] s1) as [[[key p1] r1]| |] eqn:SS;
        cbn [Json.pbind]; try discriminate.
      apply (@scanstring_consumed _ _ _ _ _ _ _ _ (Nat.le_refl _)) in SS.
      destruct (skip_ws_split p1 r1) as [w1 [E1 _]].
      destruct (Json.skip_ws p1 r1) as [p2 r2]. simpl in E1.
      destruct r2 as [|c1 r2]; [discriminate|].
      destruct (c1 =? 58)%N; [|discriminate].
      destruct (skip_ws_split (S p2) r2) as [w2 [E2 _]].
      destruct (Json.skip_ws (S p2) r2) as [p3 r3]. simpl in E2.
      destruct (Json.scan_once f p3 r3) as [[[v1 p4] r4]| |] eqn:SO;
        cbn [Json.pbind]; try discriminate.
      apply IHs in SO as [c2 [E3 _]].
      assert (G : forall d r0, ends_at d r0 r4 -> ends_at d r0 (c :: s1)).
      { intros d r0 H. constructor. apply (ends_at_chain SS).
        rewrite E1. apply ends_at_app. constructor.
        rewrite E2. apply ends_at_app. exact (ends_at_chain E3 H). }
      pose proof (after_spec 125%N p4 r4) as AF.
      destruct (Json.after 125%N p4 r4) as [p' r'|p' r'|p']; intros H.
      * injection H as _ _ <-. now apply G.
      * apply IHo in H. destruct AF as [w ->]. apply G. now apply ends_at_app.
      * discriminate.
Qed.

(** A document that [json.loads] accepts is a core between margins of
    JSON whitespace; the core starts with a character that can start a
    value and ends with a solid one. *)
Lemma loads_ok_shape (doc : str) (v : value) :
  Json.loads doc = Ok v ->
  exists w1 c0 core c w2,
    doc = w1 ++ (core ++ [c]) ++ w2
    /\ forallb Json.is_ws w1 = true /\ forallb Json.is_ws w2 = true
    /\ (exists rest, core ++ [c] = c0 :: rest)
    /\ JsonReject.starts_value c0 = true /\ solid c = true.
Proof.
  unfold Json.loads. destruct (startswith doc [65279%N]); [discriminate|].
  destruct (Json.decode (Json.fuel_for doc) doc) as [v'| |] eqn:D;
    try discriminate.
  intros _. unfold Json.decode, Json.fuel_for in D.
  destruct (skip_ws_split 0 doc) as [w1 [E1 F1]].
  destruct (Json.skip_ws 0 doc) as [p s]. simpl in E1.
  destruct (Json.scan_once (S (2 * List.length doc)) p s)
    as [[[v1 p1] r1]| |] eqn:SO; cbn [Json.pbind] in D; try discriminate.
  destruct (skip_ws_split p1 r1) as [w2 [E2 F2]].
  destruct (Json.skip_ws p1 r1) as [p2 r2]. simpl in E2.
  destruct r2 as [|? ?]; [|discriminate]. rewrite app_nil_r in E2. subst r1.
  pose proof (proj1 (scan_consumed _) _ _ _ _ _ SO) as [c [EA SC]].
  apply ends_at_split in EA as [core ES].
  destruct s as [|c0 s'].
  { destruct core; discriminate. }
  assert (V : JsonReject.starts_value c0 = true).
  { destruct (JsonReject.starts_value c0) eqn:V; [reflexivity|].
    rewrite (@JsonReject.scan_once_rejects _ p c0 s' V) in SO. discriminate. }
  exists w1, c0, core, c, w2.
  repeat split; try assumption.
  - rewrite E1, ES. now rewrite <- !app_assoc.
  - destruct core as [|d core'].
    + exists []. simpl in *. congruence.
    + exists (core' ++ [c]). simpl in *. congruence.
Qed.

(** [strip] of an accepted document is its core. *)
Lemma loads_ok_strip (doc : str) (v : value) :
  Json.loads doc = Ok v ->
  exists c0 rest core c,
    strip doc = c0 :: rest /\ strip doc = core ++ [c]
    /\ solid c0 = true /\ solid c = true.
Proof.
  intros H. apply loads_ok_shape in H
    as [w1 [c0 [core [c [w2 [E [F1 [F2 [[rest R] [V SC]]]]]]]]]].
  assert (S : strip doc = core ++ [c]).
  { rewrite E. apply strip_margins.
    - now apply all_ws_isspace.
    - now apply all_ws_isspace.
    - now apply solid_isspace.
    - rewrite R. apply lstrip_solid. apply solid_isspace.
      now apply starts_value_solid. }
  exists c0, rest, core, c. repeat split; try assumption.
  - now rewrite S.
  - now apply starts_value_solid.
Qed.

(** ** The fuel of [loads] is never used up *)

Lemma ends_at_shorter (c : char) (r s : str) :
  ends_at c r s -> List.length r < List.length s.
Proof.
  intros H. apply ends_at_split in H as [a ->].
  rewrite length_app. simpl. lia.
Qed.

Lemma skip_ws_length (pos : nat) (s : str) :
  List.length (snd (Json.skip_ws pos s)) <= List.length s.
Proof.
  destruct (skip_ws_split pos s) as [w [E _]].
  rewrite E at 2. rewrite length_app. lia.
Qed.

Ltac fuel_step IH :=
  match goal with
  | |- Json.PErr _ _ <> Json.PFuel => discriminate
  | |- Json.POk _ <> Json.PFuel => discriminate
  | |- Json.scanstring _ _ _ _ <> Json.PFuel => apply IH; simpl in *; lia
  | |- (if ?b then _ else _) <> _ => destruct b
  | |- match ?x with _ => _ end <> _ => destruct x
  end.

Lemma scanstring_fuel (n : nat) :
  forall (s : str) (begin pos : nat) (acc : str),
    List.length s <= n -> Json.scanstring begin pos acc s <> Json.PFuel.
Proof.
  induction n as [|n IH]; intros s begin pos acc L;
    destruct s as [|c s1]; cbn [Json.scanstring]; try discriminate.
  - simpl in L. lia.
  - repeat fuel_step IH.
Qed.

Lemma after_length (close : char) (pos : nat) (s : str) :
  match Json.after close pos s with
  | Json.More _ r => List.length r <= List.length s
  | _ => True
  end.
Proof.
  pose proof (after_spec close pos s) as H.
  destruct (Json.after close pos s); auto.
  destruct H as [w ->]. rewrite length_app. lia.
Qed.

Lemma scan_fuel (fuel : nat) :
  (forall pos s, 2 * List.length s < fuel ->
                 Json.scan_once fuel pos s <> Json.PFuel)
  /\ (forall acc pos s, 2 * List.length s + 1 < fuel ->
                        Json.array_items fuel acc pos s <> Json.PFuel)
  /\ (forall acc pos s, 2 * List.length s + 1 < fuel ->
                        Json.object_items fuel acc pos s <> Json.PFuel).
Proof.
  induction fuel as [|f [IHs [IHa IHo]]].
  - repeat split; intros; lia.
  - split; [|split].
    + intros pos s L. cbn [Json.scan_once].
      destruct s as [|c s1]; [discriminate|]. cbn [List.length] in L.
      destruct (c =? 34)%N.
      { pose proof (@scanstring_fuel _ s1 pos (S pos) [] (Nat.le_refl _)) as F.
        destruct (Json.scanstring pos (S pos) [] s1) as [[[x p1] r1]| |];
          cbn [Json.pbind]; congruence. }
      destruct (c =? 123)%N.
      { pose proof (skip_ws_length (S pos) s1) as K.
        destruct (Json.skip_ws (S pos) s1) as [p1 s2]. cbn [snd] in K.
        destruct s2 as [|c2 r2]; [apply IHo; simpl; lia|].
        destruct (c2 =? 125)%N; [discriminate | apply IHo; lia]. }
      destruct (c =? 91)%N.
      { pose proof (skip_ws_length (S pos) s1) as K.
        destruct (Json.skip_ws (S pos) s1) as [p1 s2]. cbn [snd] in K.
        destruct s2 as [|c2 r2]; [apply IHa; simpl; lia|].
        destruct (c2 =? 93)%N; [discriminate | apply IHa; lia]. }
      match goal with
      | |- match ?k with _ => _ end <> _ => destruct k; [discriminate|]
      end.
      destruct (Json.match_number (c :: s1)) as [[[v1 n1] r1]|]; discriminate.
    + intros acc pos s L. cbn [Json.array_items].
      pose proof (IHs pos s ltac:(lia)) as F.
      destruct (Json.scan_once f pos s) as [[[v1 p1] r1]| |] eqn:SO;
        cbn [Json.pbind]; try congruence.
      apply (proj1 (scan_consumed f)) in SO as [c1 [E1 _]].
      apply ends_at_shorter in E1.
      pose proof (after_length 93%N p1 r1) as AL.
      destruct (Json.after 93%N p1 r1) as [p' r'|p' r'|p']; try discriminate.
      apply IHa. lia.
    + intros acc pos s L. cbn [Json.object_items].
      destruct s as [|c s1]; [discriminate|]. cbn [List.length] in L.
      destruct (c =? 34)%N; [|discriminate].
      pose proof (@scanstring_fuel _ s1 pos (S pos) [] (Nat.le_refl _)) as F.
      destruct (Json.scanstring pos (S pos) [] s1) as [[[key p1] r1]| |] eqn:SS;
        cbn [Json.pbind]; try congruence.
      apply (@scanstring_consumed _ _ _ _ _ _ _ _ (Nat.le_refl _)) in SS.
      apply ends_at_shorter in SS.
      pose proof (skip_ws_length p1 r1) as K1.
      destruct (Json.skip_ws p1 r1) as [p2 r2]. cbn [snd] in K1.
      destruct r2 as [|c1 r2]; [discriminate|].
      destruct (c1 =? 58)%N; [|discriminate]. cbn [List.length] in K1.
      pose proof (skip_ws_length (S p2) r2) as K2.
      destruct (Json.skip_ws (S p2) r2) as [p3 r3]. cbn [snd] in K2.
      pose proof (IHs p3 r3 ltac:(lia)) as G.
      destruct (Json.scan_once f p3 r3) as [[[v1 p4] r4]| |] eqn:SO;
        cbn [Json.pbind]; try congruence.
      apply (proj1 (scan_consumed f)) in SO as [c2 [E3 _]].
      apply ends_at_shorter in E3.
      pose proof (after_length 125%N p4 r4) as AL.
      destruct (Json.after 125%N p4 r4) as [p' r'|p' r'|p']; try discriminate.
      apply IHo. lia.
Qed.

(** [json.loads] returns a value or raises [JSONDecodeError]. *)
Lemma loads_total (doc : str) :
  (exists v, Json.loads doc = Ok v)
  \/ (exists msg pos, Json.loads doc = Raise (JSONDecodeError msg doc pos)).
Proof.
  unfold Json.loads. destruct (startswith doc [65279%N]); [right; eauto|].
  destruct (Json.decode (Json.fuel_for doc) doc) as [v|msg pos|] eqn:D;
    [left; eauto | right; eauto | exfalso].
  unfold Json.decode, Json.fuel_for in D.
  pose proof (skip_ws_length 0 doc) as K.
  destruct (Json.skip_ws 0 doc) as [p s]. cbn [snd] in K.
  pose proof (proj1 (scan_fuel (S (2 * List.length doc))) p s ltac:(lia)) as F.
  destruct (Json.scan_once (S (2 * List.length doc)) p s) as [[[v1 p1] r1]| |];
    cbn [Json.pbind] in D; try congruence.
  destruct (Json.skip_ws p1 r1) as [p2 [|? ?]]; discriminate.
Qed.

End JsonFacts.

(* ================================================================== *)
(** * The response parser of [generate_fanout] *)
(* ================================================================== *)

Module ParserClaims.

Import PyFacts FenceFacts JsonFacts.

(** A JSON body between a [```json] line and a closing fence line. *)
Definition fenced (t : str) : str := fence_json ++ [nl] ++ t ++ [nl] ++ fence.

(** What [generate_fanout] of the bulk script makes of the cleaned text. *)
Definition bulk_parse (json_text : str) : result (value * value * str) :=
  data <- Json.loads json_text ;;
  generation_details <- py_get data Bulk.k_generation_details (VDict []) ;;
  expanded_queries <- py_get data Bulk.k_expanded_queries (VList []) ;;
  Ok (generation_details, expanded_queries, json_text).

Lemma bulk_generate_fanout_text
      (World : Type) (generate_content : str -> World -> result str * World)
      (query mode text : str) (w w' : World) :
  generate_content (Bulk.QUERY_FANOUT_PROMPT query mode) w = (Ok text, w') ->
  Bulk.generate_fanout generate_content query mode w
  = (bulk_parse (clean_fences text), w').
Proof. unfold Bulk.generate_fanout. now intros ->. Qed.

Lemma bulk_generate_fanout_raise
      (World : Type) (generate_content : str -> World -> result str * World)
      (query mode : str) (e : exn) (w w' : World) :
  generate_content (Bulk.QUERY_FANOUT_PROMPT query mode) w = (Raise e, w') ->
  Bulk.generate_fanout generate_content query mode w = (Raise e, w').
Proof. unfold Bulk.generate_fanout. now intros ->. Qed.

(** The single script's [generate_fanout] after the client has answered. *)
Definition single_parse (json_text : str) (s : Single.session)
  : value * Single.session :=
  match Json.loads json_text with
  | Raise e =>
      if is_JSONDecodeError e then
        (VNone,
         Single.emit (UiText json_text)
           (Single.emit (UiText Single.msg_raw)
              (Single.emit (UiError Single.msg_parse_failed) s)))
      else (VNone, Single.emit (UiError (Single.msg_unexpected e)) s)
  | Ok data =>
      match
        (details <- py_get data Single.k_generation_details (VDict []) ;;
         expanded_queries <- py_get data Single.k_expanded_queries (VList []) ;;
         Ok (details, expanded_queries))
      with
      | Ok (details, expanded_queries) =>
          (expanded_queries, Single.set_details details s)
      | Raise e => (VNone, Single.emit (UiError (Single.msg_unexpected e)) s)
      end
  end.

Lemma single_generate_fanout_text
      (World : Type) (generate_content : str -> World -> result str * World)
      (query mode text : str) (s : Single.session) (w w' : World) :
  generate_content (Single.QUERY_FANOUT_PROMPT query mode) w = (Ok text, w') ->
  Single.generate_fanout generate_content query mode (s, w)
  = (fst (single_parse (clean_fences text) s),
     (snd (single_parse (clean_fences text) s), w')).
Proof.
  unfold Single.generate_fanout, single_parse. intros ->.
  destruct (Json.loads (clean_fences text)) as [data|e].
  - destruct (py_get data Single.k_generation_details (VDict [])) as [d|e];
      [|reflexivity].
    cbn [bind]. destruct (py_get data Single.k_expanded_queries (VList []));
      reflexivity.
  - destruct (is_JSONDecodeError e); reflexivity.
Qed.

Lemma startswith_other_head (c x : char) (s p : str) :
  c <> x -> startswith (c :: s) (x :: p) = false.
Proof.
  intros N. cbn [startswith]. apply not_eq_sym, N.eqb_neq in N. now rewrite N.
Qed.

Lemma endswith_other_last (c x : char) (s p : str) :
  c <> x -> endswith (s ++ [c]) (p ++ [x]) = false.
Proof.
  intros N. unfold endswith. rewrite !rev_app_distr.
  now apply startswith_other_head.
Qed.

(** A text that [json.loads] accepts carries no fence for the clean-up to
    cut. *)
Lemma clean_of_json (t : str) (v : value) :
  Json.loads t = Ok v -> clean_fences t = strip t.
Proof.
  intros H. apply loads_ok_strip in H as [c0 [rest [core [c [S0 [S1 [V0 V1]]]]]]].
  rewrite clean_fences_cuts.
  assert (A : cut_front (strip t) = 0).
  { unfold cut_front. rewrite S0.
    change fence_json with (backtick :: lit "``json").
    rewrite startswith_other_head; [reflexivity | now apply solid_backtick]. }
  assert (B : cut_back (strip t) = 0).
  { unfold cut_back. rewrite S1.
    change fence with (lit "``" ++ [backtick]).
    rewrite endswith_other_last; [reflexivity | now apply solid_backtick]. }
  rewrite A, B, slice_to_neg_0. unfold slice_from. cbn [skipn].
  apply strip_idem.
Qed.

(** C4. For every JSON text [t], the clean-up turns the fenced text
    ["```json\n" + t + "\n```"] and [t] itself into the same string, so
    [generate_fanout] returns the same result for both responses, in
    either script. *)
Theorem C4_fence_round_trip (t : str) (v : value) :
  Json.loads t = Ok v ->
  clean_fences (fenced t) = clean_fences t
  /\ (forall (World : Type) (gc_fenced gc_bare : str -> World -> result str * World)
             query mode w w',
         gc_fenced (Bulk.QUERY_FANOUT_PROMPT query mode) w = (Ok (fenced t), w') ->
         gc_bare (Bulk.QUERY_FANOUT_PROMPT query mode) w = (Ok t, w') ->
         Bulk.generate_fanout gc_fenced query mode w
         = Bulk.generate_fanout gc_bare query mode w)
  /\ (forall (World : Type) (gc_fenced gc_bare : str -> World -> result str * World)
             query mode s w w',
         gc_fenced (Single.QUERY_FANOUT_PROMPT query mode) w = (Ok (fenced t), w') ->
         gc_bare (Single.QUERY_FANOUT_PROMPT query mode) w = (Ok t, w') ->
         Single.generate_fanout gc_fenced query mode (s, w)
         = Single.generate_fanout gc_bare query mode (s, w)).
Proof.
  intros H.
  assert (E : clean_fences (fenced t) = clean_fences t).
  { unfold fenced. rewrite clean_fenced. symmetry. exact (@clean_of_json _ _ H). }
  split; [exact E|]. split.
  - intros World g1 g2 query mode w w' H1 H2.
    rewrite (@bulk_generate_fanout_text _ _ _ _ _ _ _ H1).
    rewrite (@bulk_generate_fanout_text _ _ _ _ _ _ _ H2). now rewrite E.
  - intros World g1 g2 query mode s w w' H1 H2.
    rewrite (@single_generate_fanout_text _ _ _ _ _ s _ _ H1).
    rewrite (@single_generate_fanout_text _ _ _ _ _ s _ _ H2). now rewrite E.
Qed.

(** A generation client that answers every prompt with the same text. *)
Definition canned (text : str) (prompt : str) (w : unit) : result str * unit :=
  (Ok text, w).

Definition body_no_plan : str :=
  lit "{" ++ quoted (lit "expanded_queries") ++ lit ": []}".

Lemma C4_witness :
  Json.loads body_no_plan = Ok (VDict [(lit "expanded_queries", VList [])])
  /\ clean_fences (fenced body_no_plan) = clean_fences body_no_plan
  /\ Bulk.generate_fanout (canned (fenced body_no_plan)) (lit "q") mode_simple tt
     = Bulk.generate_fanout (canned body_no_plan) (lit "q") mode_simple tt.
Proof.
  split; [reflexivity|].
  pose proof (@C4_fence_round_trip body_no_plan _ eq_refl) as [H1 [H2 _]].
  split; [exact H1|].
  exact (H2 unit (canned (fenced body_no_plan)) (canned body_no_plan)
            (lit "q") mode_simple tt tt eq_refl eq_refl).
Defined.

(** [d.get(k, default)] on the entries of a [dict]. *)
Definition field (d : dict) (k : str) (default : value) : value :=
  match dict_lookup d k with
  | Some v => v
  | None => default
  end.

(** C5. When the cleaned response parses to a JSON object, [generate_fanout]
    succeeds in both scripts; it returns the two top-level fields, an
    absent [generation_details] being replaced by an empty object and an
    absent [expanded_queries] by an empty list. *)
Theorem C5_missing_fields_default (text : str) (d : dict) :
  Json.loads (clean_fences text) = Ok (VDict d) ->
  (forall (World : Type) (generate_content : str -> World -> result str * World)
          query mode w w',
      generate_content (Bulk.QUERY_FANOUT_PROMPT query mode) w = (Ok text, w') ->
      Bulk.generate_fanout generate_content query mode w
      = (Ok (field d Bulk.k_generation_details (VDict []),
             field d Bulk.k_expanded_queries (VList []),
             clean_fences text), w'))
  /\ (forall (World : Type) (generate_content : str -> World -> result str * World)
             query mode s w w',
         generate_content (Single.QUERY_FANOUT_PROMPT query mode) w = (Ok text, w') ->
         Single.generate_fanout generate_content query mode (s, w)
         = (field d Single.k_expanded_queries (VList []),
            (Single.set_details (field d Single.k_generation_details (VDict [])) s,
             w')))
  /\ (dict_lookup d Bulk.k_generation_details = None ->
      field d Bulk.k_generation_details (VDict []) = VDict [])
  /\ (dict_lookup d Bulk.k_expanded_queries = None ->
      field d Bulk.k_expanded_queries (VList []) = VList []).
Proof.
  intros L. split; [|split; [|split]].
  - intros World gc query mode w w' G.
    rewrite (@bulk_generate_fanout_text _ _ _ _ _ _ _ G).
    unfold bulk_parse. rewrite L. reflexivity.
  - intros World gc query mode s w w' G.
    rewrite (@single_generate_fanout_text _ _ _ _ _ s _ _ G).
    unfold single_parse. rewrite L. reflexivity.
  - unfold field. now intros ->.
  - unfold field. now intros ->.
Qed.

Lemma C5_witness :
  Json.loads (clean_fences (fenced body_no_plan))
  = Ok (VDict [(lit "expanded_queries", VList [])])
  /\ Bulk.generate_fanout (canned (fenced body_no_plan)) (lit "q") mode_complex tt
     = (Ok (VDict [], VList [], body_no_plan), tt).
Proof.
  split; [reflexivity|].
  exact (proj1 (@C5_missing_fields_default (fenced body_no_plan) _ eq_refl)
           unit (canned (fenced body_no_plan)) (lit "q") mode_complex tt tt
           eq_refl).
Defined.

(** C9. The two fence tests are independent: the closing test gives the
    same answer before and after the opening cut, so the clean-up removes
    seven characters in front exactly when the trimmed text starts with
    [```json] and three at the back exactly when it ends with [```].  A
    text that opens with a plain [```] keeps its fence and [json.loads]
    rejects it at its first character; a closing fence is cut also when
    there is no opening one. *)
Theorem C9_fence_tests_independent (text : str) :
  endswith (strip_open_fence (strip text)) fence = endswith (strip text) fence
  /\ clean_fences text
     = strip (slice_from (if startswith (strip text) fence_json then 7 else 0)
                (slice_to_neg (if endswith (strip text) fence then 3 else 0)
                   (strip text)))
  /\ (startswith (strip text) fence_json = false ->
      strip_open_fence (strip text) = strip text)
  /\ (startswith (strip text) fence = true ->
      startswith (strip text) fence_json = false ->
      Json.loads (clean_fences text)
      = Raise (JSONDecodeError Json.msg_value (clean_fences text) 0)
      /\ forall (World : Type) (generate_content : str -> World -> result str * World)
                query mode w w',
          generate_content (Bulk.QUERY_FANOUT_PROMPT query mode) w = (Ok text, w') ->
          Bulk.generate_fanout generate_content query mode w
          = (Raise (JSONDecodeError Json.msg_value (clean_fences text) 0), w'))
  /\ (startswith (strip text) fence_json = false ->
      endswith (strip text) fence = true ->
      clean_fences text = strip (slice_to_neg 3 (strip text))).
Proof.
  split; [apply close_test_independent|].
  split; [exact (clean_fences_cuts text)|].
  split; [apply open_fence_kept|].
  split.
  - intros P J. pose proof (@plain_fence_fails text P J) as F.
    split; [exact F|].
    intros World gc query mode w w' G.
    rewrite (@bulk_generate_fanout_text _ _ _ _ _ _ _ G).
    unfold bulk_parse. now rewrite F.
  - intros J E. rewrite clean_fences_cuts. unfold cut_front, cut_back.
    now rewrite J, E.
Qed.

Definition plain_fenced : str := fence ++ [nl] ++ lit "{}" ++ [nl] ++ fence.

Lemma C9_witness :
  clean_fences plain_fenced = fence ++ [nl] ++ lit "{}"
  /\ Json.loads (clean_fences plain_fenced)
     = Raise (JSONDecodeError Json.msg_value (clean_fences plain_fenced) 0)
  /\ clean_fences (lit "{}" ++ [nl] ++ fence) = lit "{}".
Proof.
  pose proof (C9_fence_tests_independent plain_fenced) as [_ [_ [_ [P _]]]].
  pose proof (C9_fence_tests_independent (lit "{}" ++ [nl] ++ fence))
    as [_ [_ [_ [_ T]]]].
  split; [reflexivity|]. split.
  - exact (proj1 (P eq_refl eq_refl)).
  - rewrite (T eq_refl eq_refl). reflexivity.
Defined.

End ParserClaims.

(* ================================================================== *)
(** * The batch loop *)
(* ================================================================== *)

Module BatchFacts.

Import Bulk.

(** The results of two stretches of a run, one after the other. *)
Definition state_app (a b : run_state) : run_state :=
  mk_run_state (all_rows a ++ all_rows b) (run_summaries a ++ run_summaries b)
    (errors a ++ errors b) (ui a ++ ui b).

Lemma state_app_empty_r (a : run_state) : state_app a empty_state = a.
Proof. destruct a. unfold state_app. simpl. now rewrite !app_nil_r. Qed.

Lemma state_app_empty_l (a : run_state) : state_app empty_state a = a.
Proof. now destruct a. Qed.

Lemma state_app_assoc (a b c : run_state) :
  state_app a (state_app b c) = state_app (state_app a b) c.
Proof. unfold state_app. simpl. now rewrite !app_assoc. Qed.

(** A statement is framed when it only reads its own additions: running
    it after earlier results [base] gives those results followed by what
    it gives on its own. *)
Definition framed {A} (c : stmt A) : Prop :=
  forall base st,
    c (state_app base st) = (fst (c st), state_app base (snd (c st))).

Lemma framed_ret {A} (a : A) : framed (ret a).
Proof. now intros base st. Qed.

Lemma framed_lift {A} (r : result A) : framed (lift r).
Proof. now intros base st. Qed.

Lemma framed_seq {A B} (c : stmt A) (k : A -> stmt B) :
  framed c -> (forall a, framed (k a)) -> framed (seq c k).
Proof.
  intros Hc Hk base st. unfold seq. rewrite Hc.
  destruct (c st) as [[a|e] st']; simpl; [apply Hk | reflexivity].
Qed.

Lemma framed_append_row (row : dict) : framed (modify (append_row row)).
Proof.
  intros base st. unfold modify, append_row, state_app. simpl.
  now rewrite app_assoc.
Qed.

Lemma framed_append_summary (d : dict) : framed (modify (append_summary d)).
Proof.
  intros base st. unfold modify, append_summary, state_app. simpl.
  now rewrite app_assoc.
Qed.

Lemma framed_emit (e : ui_event) : framed (modify (emit e)).
Proof.
  intros base st. unfold modify, emit, state_app. simpl.
  now rewrite app_assoc.
Qed.

Lemma framed_for_each {A} (xs : list A) (body : A -> stmt unit) :
  (forall x, framed (body x)) -> framed (for_each xs body).
Proof.
  intros Hb. induction xs as [|x xs IH]; simpl.
  - apply framed_ret.
  - apply framed_seq; auto.
Qed.

Create HintDb framed.

#[local] Hint Resolve framed_ret framed_lift framed_append_row
  framed_append_summary framed_emit : framed.

Lemma framed_try_body (q : str) (r : result (value * value * str)) :
  framed (try_body q r).
Proof.
  unfold try_body.
  apply framed_seq; [auto with framed|]. intros [[details expanded] raw].
  apply framed_seq; [auto with framed|]. intros summary.
  apply framed_seq; [auto with framed|]. intros _.
  apply framed_seq; [auto with framed|]. intros objs.
  apply framed_seq.
  - apply framed_for_each. intros obj.
    apply framed_seq; auto with framed.
  - intros _. apply framed_seq; auto with framed.
Qed.

Lemma handler_app (q : str) (e : exn) (base st : run_state) :
  handler q e (state_app base st) = state_app base (handler q e st).
Proof.
  unfold handler, append_error, emit, state_app.
  destruct (is_JSONDecodeError e); simpl; now rewrite !app_assoc.
Qed.

Lemma emit_app (ev : ui_event) (base st : run_state) :
  emit ev (state_app base st) = state_app base (emit ev st).
Proof. unfold emit, state_app. simpl. now rewrite app_assoc. Qed.

(** The rows of the expanded queries up to the first one that cannot be
    read, and the exception that stopped the flattening, if any. *)
Fixpoint flatten (q : str) (objs : list value) : list dict * option exn :=
  match objs with
  | [] => ([], None)
  | obj :: rest =>
      match row_of q obj with
      | Raise e => ([], Some e)
      | Ok row => let (rows, stop) := flatten q rest in (row :: rows, stop)
      end
  end.

Definition add_rows (rows : list dict) (st : run_state) : run_state :=
  mk_run_state (all_rows st ++ rows) (run_summaries st) (errors st) (ui st).

Lemma add_rows_nil (st : run_state) : add_rows [] st = st.
Proof. destruct st. unfold add_rows. simpl. now rewrite app_nil_r. Qed.

Lemma flatten_loop (q : str) (objs : list value) (st : run_state) :
  for_each objs (fun obj => row <~ lift (row_of q obj) ;; modify (append_row row)) st
  = (match snd (flatten q objs) with None => Ok tt | Some e => Raise e end,
     add_rows (fst (flatten q objs)) st).
Proof.
  revert st. induction objs as [|obj rest IH]; intros st; simpl.
  - now rewrite add_rows_nil.
  - unfold seq at 1. unfold seq at 1. unfold lift at 1.
    destruct (row_of q obj) as [row|e]; simpl.
    + rewrite IH. destruct (flatten q rest) as [rows stop]. simpl.
      unfold add_rows, append_row. simpl. now rewrite <- app_assoc.
    + now rewrite add_rows_nil.
Qed.

(** The [try] block, case by case. *)
Definition try_body_cases (q : str) (r : result (value * value * str))
  (st : run_state) : result unit * run_state :=
  match r with
  | Raise e => (Raise e, st)
  | Ok (details, expanded, raw) =>
      match summary_of q details with
      | Raise e => (Raise e, st)
      | Ok summary =>
          let st1 := append_summary summary st in
          match py_iter expanded with
          | Raise e => (Raise e, st1)
          | Ok objs =>
              let st2 := add_rows (fst (flatten q objs)) st1 in
              match snd (flatten q objs) with
              | Some e => (Raise e, st2)
              | None =>
                  match py_len expanded with
                  | Raise e => (Raise e, st2)
                  | Ok n => (Ok tt, emit (UiStatusWrite (msg_processed q n)) st2)
                  end
              end
          end
      end
  end.

Lemma try_body_unfold (q : str) (r : result (value * value * str))
      (st : run_state) :
  try_body q r st = try_body_cases q r st.
Proof.
  unfold try_body, try_body_cases.
  destruct r as [[[details expanded] raw]|e]; [|reflexivity].
  unfold seq at 1. unfold lift at 1.
  unfold seq at 1. unfold lift at 1.
  destruct (summary_of q details) as [summary|e]; [|reflexivity].
  unfold seq at 1. unfold modify at 1.
  unfold seq at 1. unfold lift at 1.
  destruct (py_iter expanded) as [objs|e]; [|reflexivity].
  unfold seq at 1. rewrite flatten_loop.
  destruct (snd (flatten q objs)); [reflexivity|].
  unfold seq at 1. unfold lift at 1.
  destruct (py_len expanded); reflexivity.
Qed.

(** The [try] block adds no error record. *)
Lemma try_body_errors (q : str) (r : result (value * value * str))
      (st : run_state) :
  errors (snd (try_body q r st)) = errors st.
Proof.
  rewrite try_body_unfold. unfold try_body_cases.
  destruct r as [[[details expanded] raw]|e]; [|reflexivity].
  destruct (summary_of q details); [|reflexivity].
  destruct (py_iter expanded) as [objs|]; [|reflexivity].
  destruct (snd (flatten q objs)); [reflexivity|].
  destruct (py_len expanded); reflexivity.
Qed.

Lemma handler_errors (q : str) (e : exn) (st : run_state) :
  errors (handler q e st) = errors st ++ [error_record q e]
  /\ all_rows (handler q e st) = all_rows st
  /\ run_summaries (handler q e st) = run_summaries st.
Proof. unfold handler. destruct (is_JSONDecodeError e); auto. Qed.

Section Loop.

Variable World : Type.
Variable generate_content : str -> World -> result str * World.

Let process := process_lookup generate_content.
Let run_loop := loop generate_content.

(** One turn of the loop after earlier results. *)
Lemma process_lookup_app (mode : str) (total i : nat) (q : str)
      (base st : run_state) (w : World) :
  process mode total i q (state_app base st, w)
  = (state_app base (fst (process mode total i q (st, w))),
     snd (process mode total i q (st, w))).
Proof.
  unfold process, process_lookup.
  destruct (generate_fanout generate_content q mode w) as [r w'].
  rewrite framed_try_body.
  destruct (try_body q r st) as [[u|e] st1]; simpl.
  - now rewrite emit_app.
  - now rewrite handler_app, emit_app.
Qed.

(** The loop after earlier results. *)
Lemma loop_app_state (mode : str) (total : nat) (lookups : list str) :
  forall (i : nat) (base st : run_state) (w : World),
    run_loop mode total i lookups (state_app base st, w)
    = (state_app base (fst (run_loop mode total i lookups (st, w))),
       snd (run_loop mode total i lookups (st, w))).
Proof.
  induction lookups as [|q rest IH]; intros i base st w; [reflexivity|].
  unfold run_loop in *. cbn [loop].
  fold process. rewrite process_lookup_app.
  destruct (process mode total i q (st, w)) as [st1 w1]. simpl.
  apply IH.
Qed.

Lemma loop_from (mode : str) (total i : nat) (lookups : list str)
      (st : run_state) (w : World) :
  run_loop mode total i lookups (st, w)
  = (state_app st (fst (run_loop mode total i lookups (empty_state, w))),
     snd (run_loop mode total i lookups (empty_state, w))).
Proof.
  rewrite <- (state_app_empty_r st) at 1. apply loop_app_state.
Qed.

(** The loop over a list cut in two. *)
Lemma loop_split (mode : str) (total : nat) (pre post : list str) :
  forall (i : nat) (sw : run_state * World),
    run_loop mode total i (pre ++ post) sw
    = run_loop mode total (i + List.length pre) post
        (run_loop mode total i pre sw).
Proof.
  induction pre as [|q pre IH]; intros i sw; simpl.
  - now rewrite Nat.add_0_r.
  - unfold run_loop in *. cbn [loop]. rewrite IH. f_equal. lia.
Qed.

(** One turn of the loop whose [try] block raises. *)
Lemma process_lookup_raise (mode : str) (total i : nat) (q : str) (w : World)
      (e : exn) (partial : run_state) :
  try_body q (fst (generate_fanout generate_content q mode w)) empty_state
  = (Raise e, partial) ->
  process mode total i q (empty_state, w)
  = (emit (UiProgress i total) (handler q e partial),
     snd (generate_fanout generate_content q mode w)).
Proof.
  unfold process, process_lookup.
  destruct (generate_fanout generate_content q mode w) as [r w']. simpl.
  now intros ->.
Qed.

(** C1. Let the [try] block of lookup [q] raise [e], whatever the fault
    and wherever it arises.  The loop over [pre ++ q :: post] still runs to
    its end: its error list is the errors of [pre], then the record of [q]
    with the text of [e], then the errors of [post]; its rows and plan
    summaries are those of the loop over [pre] alone, then what [q] had
    added before the fault, then those of the loop over [post] run on its
    own from the world that [q] left. *)
Theorem C1_failure_isolated (mode : str) (total i : nat)
        (pre : list str) (q : str) (post : list str) (w : World)
        (e : exn) (partial : run_state) :
  let before := run_loop mode total i pre (empty_state, w) in
  let answer := generate_fanout generate_content q mode (snd before) in
  try_body q (fst answer) empty_state = (Raise e, partial) ->
  let rest :=
    run_loop mode total (S (i + List.length pre)) post (empty_state, snd answer) in
  let final := run_loop mode total i (pre ++ q :: post) (empty_state, w) in
  snd final = snd rest
  /\ errors (fst final)
     = errors (fst before) ++ [error_record q e] ++ errors (fst rest)
  /\ all_rows (fst final)
     = all_rows (fst before) ++ all_rows partial ++ all_rows (fst rest)
  /\ run_summaries (fst final)
     = run_summaries (fst before) ++ run_summaries partial
         ++ run_summaries (fst rest).
Proof.
  intros before answer H rest final.
  assert (F : final
              = (state_app (fst before)
                   (state_app (emit (UiProgress (i + List.length pre) total)
                                 (handler q e partial))
                      (fst rest)),
                 snd rest)).
  { unfold final. rewrite loop_split. fold before.
    destruct before as [st1 w1] eqn:B. unfold run_loop. cbn [loop].
    fold process. fold run_loop.
    rewrite <- (state_app_empty_r st1) at 1.
    rewrite process_lookup_app.
    rewrite (@process_lookup_raise mode total _ q w1 e partial H).
    cbn [fst snd]. rewrite loop_from.
    unfold rest, answer. cbn [fst snd]. now rewrite state_app_assoc. }
  rewrite F. cbn [fst snd].
  pose proof (try_body_errors q (fst answer) empty_state) as TE.
  rewrite H in TE. cbn [snd errors empty_state] in TE.
  destruct (handler_errors q e partial) as [HE [HR HS]].
  unfold state_app, emit; cbn [errors all_rows run_summaries].
  rewrite HE, HR, HS, TE. repeat split; now rewrite <- ?app_assoc.
Qed.

End Loop.

(** ** Scripted generation clients for concrete runs *)

(** JSON texts of the examples are written with apostrophes in place of
    double quotes. *)
Definition json_text (s : string) : str :=
  map (fun c => if (c =? 39)%N then dq else c) (lit s).

(** A client that answers its [n]-th call with the [n]-th entry of a
    script; the world is the number of calls made. *)
Definition scripted (script : list (result str)) (prompt : str) (calls : nat)
  : result str * nat :=
  (nth calls script (Raise (OtherException (lit "script exhausted"))), S calls).

Definition answer_a : str :=
  json_text "{'generation_details': {'target_query_count': 2, 'reasoning_for_count': 'two'}, 'expanded_queries': [{'query': 'a1', 'type': 'related'}, {'query': 'a2'}]}".

Definition answer_c : str :=
  json_text "```json
{'expanded_queries': [{'query': 'c1', 'routing_format': 'faq_page'}]}
```".

Definition quota : exn := OtherException (lit "429 quota exceeded").

Definition script_abc : list (result str) := [Ok answer_a; Raise quota; Ok answer_c].

Lemma C1_witness :
  try_body (lit "b")
    (fst (generate_fanout (scripted script_abc) (lit "b") mode_complex 1))
    empty_state
  = (Raise quota, empty_state)
  /\ errors (fst (loop (scripted script_abc) mode_complex 3 1
                    [lit "a"; lit "b"; lit "c"] (empty_state, 0)))
     = [error_record (lit "b") quota]
  /\ all_rows (fst (loop (scripted script_abc) mode_complex 3 1
                      [lit "a"; lit "b"; lit "c"] (empty_state, 0)))
     = all_rows (fst (loop (scripted script_abc) mode_complex 3 1
                        [lit "a"] (empty_state, 0)))
         ++ all_rows (fst (loop (scripted script_abc) mode_complex 3 3
                             [lit "c"] (empty_state, 2))).
Proof.
  split; [reflexivity|].
  pose proof (@C1_failure_isolated nat (scripted script_abc) mode_complex 3 1
                [lit "a"] (lit "b") [lit "c"] 0 quota empty_state eq_refl)
    as [_ [HE [HR _]]].
  split; [exact HE | exact HR].
Defined.

(** ** What a failed lookup leaves behind *)

Lemma process_lookup_cases
      (World : Type) (generate_content : str -> World -> result str * World)
      (mode : str) (total i : nat) (q : str) (st : run_state) (w : World) :
  fst (process_lookup generate_content mode total i q (st, w))
  = emit (UiProgress i total)
      (match try_body_cases q (fst (generate_fanout generate_content q mode w)) st with
       | (Ok _, st1) => st1
       | (Raise e, st1) => handler q e st1
       end).
Proof.
  unfold process_lookup.
  destruct (generate_fanout generate_content q mode w) as [r w'].
  now rewrite try_body_unfold.
Qed.

Definition answer_leaky : str :=
  json_text "{'expanded_queries': [{'query': 'x'}, 5]}".

Definition no_get : exn :=
  AttributeError (lit "'int' object has no attribute 'get'").

(** A lookup that fails at its second expanded query keeps its plan
    summary and its first row, next to its error record. *)
Lemma C8_counterexample :
  let st := fst (run (scripted [Ok answer_leaky]) (SingleQuery (lit "a"))
                   mode_simple 0) in
  errors st = [error_record (lit "a") no_get]
  /\ all_rows st
     = [[(k_lookup_query, VStr (lit "a")); (k_query, VStr (lit "x"));
         (k_type, VStr []); (k_user_intent, VStr []); (k_reasoning, VStr []);
         (k_routing_format, VStr []); (k_format_reason, VStr [])]]
  /\ run_summaries st
     = [[(k_lookup_query, VStr (lit "a")); (k_target_query_count, VNone);
         (k_reasoning_for_count, VStr [])]].
Proof. vm_compute. auto. Qed.

(** C8, amended.  When the exception of lookup [q] is raised before its
    plan summary is appended (by [generate_fanout], or while the plan
    fields are read), the turn of the loop adds no row and no summary:
    the error record is all it adds.  When it is raised later, while the
    expanded queries are flattened, the summary and the rows flattened
    before the fault stay, followed by the error record. *)
Theorem C8_trace_of_a_failed_lookup
        (World : Type) (generate_content : str -> World -> result str * World)
        (mode : str) (total i : nat) (q : str) (st : run_state) (w : World)
        (e : exn) :
  let answer := fst (generate_fanout generate_content q mode w) in
  let st' := fst (process_lookup generate_content mode total i q (st, w)) in
  (answer = Raise e
   \/ (exists details expanded raw,
          answer = Ok (details, expanded, raw) /\ summary_of q details = Raise e) ->
   all_rows st' = all_rows st
   /\ run_summaries st' = run_summaries st
   /\ errors st' = errors st ++ [error_record q e])
  /\
  (forall details expanded raw summary,
      answer = Ok (details, expanded, raw) ->
      summary_of q details = Ok summary ->
      (py_iter expanded = Raise e
       \/ exists objs, py_iter expanded = Ok objs /\ snd (flatten q objs) = Some e) ->
      run_summaries st' = run_summaries st ++ [summary]
      /\ all_rows st'
         = all_rows st
             ++ match py_iter expanded with
                | Ok objs => fst (flatten q objs)
                | Raise _ => []
                end
      /\ errors st' = errors st ++ [error_record q e]).
Proof.
  intros answer st'. unfold st'. rewrite process_lookup_cases. fold answer.
  split.
  - intros [A | [details [expanded [raw [A S]]]]]; rewrite A;
      unfold try_body_cases; try rewrite S;
      destruct (handler_errors q e st) as [HE [HR HS]]; cbn; auto.
  - intros details expanded raw summary A S F. rewrite A.
    unfold try_body_cases. rewrite S.
    destruct F as [F | [objs [F G]]]; rewrite F; try rewrite G;
      match goal with
      | |- context [handler q e ?x] =>
          destruct (handler_errors q e x) as [HE [HR HS]]
      end; cbn [emit run_summaries all_rows errors];
      rewrite HE, HR, HS; cbn; rewrite ?app_nil_r; auto.
Qed.

Lemma C8_witness :
  fst (generate_fanout (scripted [Raise quota]) (lit "a") mode_simple 0)
  = Raise quota
  /\ all_rows (fst (process_lookup (scripted [Raise quota]) mode_simple 1 1
                      (lit "a") (empty_state, 0))) = []
  /\ errors (fst (process_lookup (scripted [Raise quota]) mode_simple 1 1
                    (lit "a") (empty_state, 0)))
     = [error_record (lit "a") quota]
  /\ all_rows (fst (process_lookup (scripted [Ok answer_leaky]) mode_simple 1 1
                      (lit "a") (empty_state, 0)))
     = fst (flatten (lit "a") [VDict [(lit "query", VStr (lit "x"))]; VInt 5]).
Proof.
  split; [reflexivity|].
  pose proof (@C8_trace_of_a_failed_lookup nat (scripted [Raise quota])
                mode_simple 1 1 (lit "a") empty_state 0 quota) as [H1 _].
  destruct (H1 (or_introl eq_refl)) as [R [_ E]].
  split; [exact R|]. split; [exact E|].
  pose proof (@C8_trace_of_a_failed_lookup nat (scripted [Ok answer_leaky])
                mode_simple 1 1 (lit "a") empty_state 0 no_get) as [_ H].
  exact (proj1 (proj2 (H _ _ _ _ eq_refl eq_refl
                         (or_intror (ex_intro _ _ (conj eq_refl eq_refl)))))).
Defined.

(** ** The rows and the columns of the output table *)

Import ParserClaims.

Lemma row_of_dict (q : str) (d : dict) :
  row_of q (VDict d)
  = Ok [ (k_lookup_query, VStr q);
         (k_query, field d k_query (VStr []));
         (k_type, field d k_type (VStr []));
         (k_user_intent, field d k_user_intent (VStr []));
         (k_reasoning, field d k_reasoning (VStr []));
         (k_routing_format, field d k_routing_format (VStr []));
         (k_format_reason, field d k_format_reason (VStr [])) ].
Proof. reflexivity. Qed.

Definition has_preferred_keys (row : dict) : Prop :=
  dict_keys row = preferred_cols.

Lemma row_of_keys (q : str) (obj : value) (row : dict) :
  row_of q obj = Ok row -> has_preferred_keys row.
Proof.
  destruct obj; try discriminate.
  rewrite row_of_dict. intros H. injection H as <-. reflexivity.
Qed.

Lemma flatten_keys (q : str) (objs : list value) :
  Forall has_preferred_keys (fst (flatten q objs)).
Proof.
  induction objs as [|obj rest IH]; simpl; [constructor|].
  destruct (row_of q obj) as [row|e] eqn:R; [|constructor].
  destruct (flatten q rest) as [rows stop]. simpl in *.
  constructor; [exact (row_of_keys _ _ R) | exact IH].
Qed.

Lemma try_body_rows_keys (q : str) (r : result (value * value * str))
      (st : run_state) :
  Forall has_preferred_keys (all_rows st) ->
  Forall has_preferred_keys (all_rows (snd (try_body_cases q r st))).
Proof.
  intros H. unfold try_body_cases.
  destruct r as [[[details expanded] raw]|e]; [|exact H].
  destruct (summary_of q details); [|exact H].
  destruct (py_iter expanded) as [objs|]; [|exact H].
  assert (G : Forall has_preferred_keys
                (all_rows st ++ fst (flatten q objs))).
  { apply Forall_app. split; [exact H | apply flatten_keys]. }
  destruct (snd (flatten q objs)); [exact G|].
  destruct (py_len expanded); exact G.
Qed.

Lemma loop_rows_keys
      (World : Type) (generate_content : str -> World -> result str * World)
      (mode : str) (total : nat) (lookups : list str) :
  forall (i : nat) (st : run_state) (w : World),
    Forall has_preferred_keys (all_rows st) ->
    Forall has_preferred_keys
      (all_rows (fst (loop generate_content mode total i lookups (st, w)))).
Proof.
  induction lookups as [|q rest IH]; intros i st w H; [exact H|].
  cbn [loop].
  destruct (process_lookup generate_content mode total i q (st, w))
    as [st1 w1] eqn:P.
  apply IH.
  replace st1 with (fst (process_lookup generate_content mode total i q (st, w)))
    by now rewrite P.
  rewrite process_lookup_cases. cbn [emit all_rows].
  pose proof (@try_body_rows_keys q
                (fst (generate_fanout generate_content q mode w)) st H) as T.
  destruct (try_body_cases q (fst (generate_fanout generate_content q mode w)) st)
    as [[u|e] st2]; cbn [snd] in T; [exact T|].
  now rewrite (proj1 (proj2 (handler_errors q e st2))).
Qed.

Lemma df_columns_uniform (rows : list dict) :
  rows <> [] -> Forall has_preferred_keys rows ->
  df_columns rows = preferred_cols.
Proof.
  unfold df_columns. destruct rows as [|row rows]; [congruence|].
  intros _ H. inversion H as [|? ? K F]; subst. cbn [fold_left].
  rewrite K. change (fold_left add_column preferred_cols []) with preferred_cols.
  clear H K. induction F as [|r rs K _ IH]; [reflexivity|].
  cbn [fold_left]. rewrite K.
  change (fold_left add_column preferred_cols preferred_cols) with preferred_cols.
  exact IH.
Qed.

Lemma str_in_list_In (c : str) (cols : list str) :
  str_in_list c cols = true <-> In c cols.
Proof.
  unfold str_in_list. rewrite existsb_exists. split.
  - intros [x [I E]]. apply PyFacts.eqb_eq in E. now subst.
  - intros I. exists c. split; [exact I | apply PyFacts.eqb_refl].
Qed.

(** The preferred columns that occur come first, in their preferred
    order; every other column follows, in the order of the frame. *)
Lemma reorder_spec (columns : list str) :
  reorder columns
  = filter (fun c => str_in_list c columns) preferred_cols
      ++ filter (fun c => negb (str_in_list c preferred_cols)) columns.
Proof.
  unfold reorder, others, existing. f_equal.
  apply filter_ext_in. intros c I. f_equal.
  destruct (str_in_list c preferred_cols) eqn:P.
  - apply str_in_list_In. apply filter_In. split.
    + now apply str_in_list_In.
    + now apply str_in_list_In.
  - destruct (str_in_list c (filter (fun c0 => str_in_list c0 columns) preferred_cols))
      eqn:Q; [|reflexivity].
    apply str_in_list_In, filter_In in Q as [Q _].
    apply str_in_list_In in Q. congruence.
Qed.

Lemma show_rows_keeps (st : run_state) :
  all_rows (show_rows st) = all_rows st
  /\ forall ev, In ev (ui st) -> In ev (ui (show_rows st)).
Proof.
  unfold show_rows.
  destruct (all_rows st) eqn:R;
    (split; [cbn [emit all_rows]; congruence
            | intros ev H; cbn; apply in_or_app; now left]).
Qed.

Lemma show_summaries_keeps (st : run_state) :
  all_rows (show_summaries st) = all_rows st
  /\ forall ev, In ev (ui st) -> In ev (ui (show_summaries st)).
Proof.
  unfold show_summaries. destruct (run_summaries st); split; try reflexivity;
    intros ev H; cbn; auto; apply in_or_app; now left.
Qed.

Lemma show_errors_keeps (st : run_state) :
  all_rows (show_errors st) = all_rows st
  /\ forall ev, In ev (ui st) -> In ev (ui (show_errors st)).
Proof.
  unfold show_errors. destruct (errors st); split; try reflexivity;
    intros ev H; cbn; auto; apply in_or_app; now left.
Qed.

Lemma show_results_rows (st : run_state) :
  all_rows (show_results st) = all_rows st.
Proof.
  unfold show_results.
  rewrite (proj1 (show_errors_keeps _)), (proj1 (show_summaries_keeps _)).
  apply show_rows_keeps.
Qed.

Lemma show_results_table (st : run_state) :
  all_rows st <> [] ->
  In (UiTable (reorder (df_columns (all_rows st))) (all_rows st))
     (ui (show_results st)).
Proof.
  intros N. unfold show_results.
  apply show_errors_keeps, show_summaries_keeps.
  unfold show_rows. destruct (all_rows st) as [|row rows]; [congruence|].
  cbn. apply in_or_app. right. now left.
Qed.

(** C7. A row is made of the lookup and six fields of the expanded query,
    in the preferred order; a field that the object lacks is the empty
    string.  Every row of a run has these columns, so the table shown for
    a run with rows has exactly the preferred columns in their order.  In
    general the reordering puts the preferred columns first and the other
    columns of the frame after them. *)
Theorem C7_rows_and_columns :
  (forall q d,
      exists row,
        row_of q (VDict d) = Ok row
        /\ dict_keys row = preferred_cols
        /\ dict_lookup row k_lookup_query = Some (VStr q)
        /\ forall k,
            In k [k_query; k_type; k_user_intent; k_reasoning;
                  k_routing_format; k_format_reason] ->
            dict_lookup row k = Some (field d k (VStr []))
            /\ (dict_lookup d k = None -> dict_lookup row k = Some (VStr [])))
  /\ (forall (World : Type) (generate_content : str -> World -> result str * World)
             input mode w,
         let st := fst (run generate_content input mode w) in
         Forall (fun row => dict_keys row = preferred_cols) (all_rows st)
         /\ (all_rows st <> [] -> In (UiTable preferred_cols (all_rows st)) (ui st)))
  /\ (forall columns,
         reorder columns
         = filter (fun c => str_in_list c columns) preferred_cols
             ++ filter (fun c => negb (str_in_list c preferred_cols)) columns).
Proof.
  split; [|split; [|exact reorder_spec]].
  - intros q d. eexists. split; [apply row_of_dict|].
    split; [reflexivity|]. split; [reflexivity|].
    intros k I.
    assert (L : dict_lookup
                  [(k_lookup_query, VStr q); (k_query, field d k_query (VStr []));
                   (k_type, field d k_type (VStr []));
                   (k_user_intent, field d k_user_intent (VStr []));
                   (k_reasoning, field d k_reasoning (VStr []));
                   (k_routing_format, field d k_routing_format (VStr []));
                   (k_format_reason, field d k_format_reason (VStr []))] k
                = Some (field d k (VStr []))).
    { cbn [In] in I.
      repeat (destruct I as [<- | I]; [reflexivity|]). destruct I. }
    split; [exact L|]. intros A. rewrite L. unfold field. now rewrite A.
  - intros World gc input mode w st. unfold st, run.
    destruct (build_lookups input) as [|q0 rest] eqn:B.
    + cbn. split; [constructor | congruence].
    + set (total := List.length (q0 :: rest)).
      destruct (loop gc mode total 1 (q0 :: rest)
                  (emit (UiProgress 0 total) empty_state, w)) as [st1 w1] eqn:L.
      cbn [fst].
      assert (K : Forall has_preferred_keys (all_rows st1)).
      { replace st1 with (fst (loop gc mode total 1 (q0 :: rest)
                                 (emit (UiProgress 0 total) empty_state, w)))
          by now rewrite L.
        apply loop_rows_keys. constructor. }
      rewrite show_results_rows. cbn [emit all_rows].
      split; [exact K|]. intros N.
      pose proof (@show_results_table (emit UiStatusComplete st1) N) as T.
      cbn [emit all_rows] in T.
      now rewrite df_columns_uniform in T.
Qed.

Lemma C7_witness :
  let st := fst (run (scripted script_abc)
                   (BulkList (lit "a" ++ [nl] ++ lit "b" ++ [nl] ++ lit "c"))
                   mode_complex 0) in
  List.length (all_rows st) = 3
  /\ In (UiTable preferred_cols (all_rows st)) (ui st).
Proof.
  pose proof (proj1 (proj2 C7_rows_and_columns) nat (scripted script_abc)
                (BulkList (lit "a" ++ [nl] ++ lit "b" ++ [nl] ++ lit "c"))
                mode_complex 0) as [_ T].
  split; [reflexivity|]. apply T. discriminate.
Defined.

End BatchFacts.

(* ================================================================== *)
(** * Target count against produced count *)
(* ================================================================== *)

Module CountFacts.

Import ParserClaims BatchFacts.

Definition answer_none_of_twelve : str :=
  json_text "{'generation_details': {'target_query_count': 12, 'reasoning_for_count': 'broad'}, 'expanded_queries': []}".

Definition fresh : Single.session := Single.mk_session VNone [].

(** A display step that takes every value, and one that refuses every
    value with [e]. *)
Definition accepts (results : value) : result unit := Ok tt.
Definition refuses (e : exn) (results : value) : result unit := Raise e.

(** The single script, told of a target of 12 and given no query at all,
    shows its catch-all warning and nothing about the plan. *)
Lemma C3_counterexample :
  let out := Single.run (scripted [Ok answer_none_of_twelve]) accepts accepts
               (lit "q") mode_simple (fresh, 0) in
  Single.ui (fst (snd out)) = [UiWarning Single.msg_none]
  /\ Single.generation_details (fst (snd out))
     = VDict [(lit "target_query_count", VInt 12);
              (lit "reasoning_for_count", VStr (lit "broad"))]
  /\ Single.count_mismatch (VInt 12) 0 = true.
Proof. vm_compute. auto. Qed.

Lemma lookup_nonempty (plan : dict) (k : str) (v : value) :
  dict_lookup plan k = Some v -> py_truthy (VDict plan) = true.
Proof. destruct plan; [discriminate | reflexivity]. Qed.

(** C3, amended.  Let a lookup complete with a plan whose
    [target_query_count] is an integer that differs from the number of
    expanded queries.  The single script warns of the mismatch provided
    at least one query was produced: it shows its success message, the
    plan and the warning, and only then builds the table, so the warning
    is on the page whether or not pandas and Streamlit take the list;
    the run ends as the table step ends.  The bulk script makes no
    comparison: it records the target in the plan summary of the lookup,
    adds one row per expanded query and reports their number in its
    status line. *)
Theorem C3_mismatch_surfaced :
  (forall (World : Type) (generate_content : str -> World -> result str * World)
          (dataframe download_csv : value -> result unit)
          user_query mode s w text w' d plan target l,
      truthy (strip user_query) = true ->
      generate_content (Single.QUERY_FANOUT_PROMPT user_query mode) w = (Ok text, w') ->
      Json.loads (clean_fences text) = Ok (VDict d) ->
      field d Single.k_generation_details (VDict []) = VDict plan ->
      dict_lookup plan Single.k_target_query_count = Some target ->
      Single.is_int target = true ->
      field d Single.k_expanded_queries (VList []) = VList l ->
      l <> [] ->
      Single.int_value target <> Z.of_nat (List.length l) ->
      let warned :=
        Single.mk_session (VDict plan)
          (Single.ui s
             ++ [UiSuccess Single.msg_complete;
                 UiPlan target
                   (field plan Single.k_reasoning_for_count
                      (VStr (lit "Not provided.")))
                   (List.length l);
                 UiWarning (Single.msg_mismatch target (List.length l))]) in
      let table := Single.show_table dataframe download_csv (VList l) warned in
      Single.run generate_content dataframe download_csv user_query mode (s, w)
      = (fst table, (snd table, w'))
      /\ In (UiWarning (Single.msg_mismatch target (List.length l)))
            (Single.ui (snd table))
      /\ (dataframe (VList l) = Ok tt -> download_csv (VList l) = Ok tt ->
          table = (Ok tt, Single.emit (UiFrame (VList l)) warned)))
  /\
  (forall (World : Type) (generate_content : str -> World -> result str * World)
          mode total i q st w plan l raw,
      fst (Bulk.generate_fanout generate_content q mode w)
      = Ok (VDict plan, VList l, raw) ->
      snd (flatten q l) = None ->
      let st' := fst (Bulk.process_lookup generate_content mode total i q (st, w)) in
      Bulk.run_summaries st'
      = Bulk.run_summaries st
          ++ [[(Bulk.k_lookup_query, VStr q);
               (Bulk.k_target_query_count,
                field plan Bulk.k_target_query_count VNone);
               (Bulk.k_reasoning_for_count,
                field plan Bulk.k_reasoning_for_count (VStr []))]]
      /\ Bulk.all_rows st' = Bulk.all_rows st ++ fst (flatten q l)
      /\ List.length (fst (flatten q l)) = List.length l
      /\ Bulk.errors st' = Bulk.errors st
      /\ Bulk.ui st'
         = Bulk.ui st
             ++ [UiStatusWrite (Bulk.msg_processed q (List.length l));
                 UiProgress i total]).
Proof.
  split.
  - intros World gc dataframe download_csv user_query mode s w text w' d plan
           target l T G L P K I E N M warned table.
    assert (W : In (UiWarning (Single.msg_mismatch target (List.length l)))
                  (Single.ui warned)).
    { unfold warned. cbn [Single.ui]. apply in_or_app. right.
      right. right. now left. }
    split; [|split].
    2:{ unfold table, Single.show_table.
        destruct (dataframe (VList l)); [|exact W].
        destruct (download_csv (VList l)); cbn [snd Single.emit Single.ui];
          apply in_or_app; now left. }
    2:{ intros D1 D2. unfold table, Single.show_table. now rewrite D1, D2. }
    unfold table, warned.
    unfold Single.run. rewrite T. cbn [negb].
    rewrite (@single_generate_fanout_text _ gc user_query mode text
               (Single.set_details VNone s) w w' G).
    unfold single_parse. rewrite L. cbn [py_get bind].
    fold (field d Single.k_generation_details (VDict [])).
    fold (field d Single.k_expanded_queries (VList [])).
    rewrite P, E. cbn [fst snd].
    assert (TL : py_truthy (VList l) = true) by (destruct l; [congruence | reflexivity]).
    rewrite TL. unfold Single.show_results.
    cbn [Single.emit Single.set_details Single.generation_details Single.ui].
    rewrite (lookup_nonempty _ _ K). cbn [py_len py_get bind].
    fold (field plan Single.k_target_query_count (VStr (lit "N/A"))).
    fold (field plan Single.k_reasoning_for_count (VStr (lit "Not provided."))).
    assert (FT : field plan Single.k_target_query_count (VStr (lit "N/A")) = target)
      by (unfold field; now rewrite K).
    rewrite FT.
    assert (CM : Single.count_mismatch target (List.length l) = true).
    { unfold Single.count_mismatch. rewrite I. cbn [andb].
      apply negb_true_iff, Z.eqb_neq. exact M. }
    rewrite CM. unfold Single.emit, Single.set_details.
    cbn [Single.generation_details Single.ui].
    rewrite <- !app_assoc. cbn [app].
    now destruct (Single.show_table dataframe download_csv (VList l) _).
  - intros World gc mode total i q st w plan l raw A F st'. unfold st'.
    rewrite process_lookup_cases, A. unfold try_body_cases.
    cbn [Bulk.summary_of py_get bind py_iter py_len].
    rewrite F.
    fold (field plan Bulk.k_target_query_count VNone).
    fold (field plan Bulk.k_reasoning_for_count (VStr [])).
    cbn. repeat split; try now rewrite <- ?app_assoc.
    clear A. revert F. induction l as [|obj l IH]; [reflexivity|].
    cbn [flatten]. destruct (Bulk.row_of q obj); [|discriminate].
    destruct (flatten q l) as [rows stop]. cbn [fst snd] in *.
    intros F. cbn [List.length]. f_equal. now apply IH.
Qed.

Definition answer_two_of_twelve : str :=
  json_text "{'generation_details': {'target_query_count': 12}, 'expanded_queries': [{'query': 'x'}, {'query': 'y'}]}".

Definition answer_mixed : str :=
  json_text "{'generation_details': {'target_query_count': 12}, 'expanded_queries': [{'query': 'x'}, 5]}".

Definition no_keys : exn :=
  AttributeError (lit "'int' object has no attribute 'keys'").

Lemma C3_witness :
  In (UiWarning (lit "Model aimed for 12 queries but generated 2."))
     (Single.ui (fst (snd (Single.run (scripted [Ok answer_two_of_twelve])
                             accepts accepts (lit "q") mode_simple
                             (fresh, 0)))))
  /\ Single.run (scripted [Ok answer_mixed]) (refuses no_keys) accepts
       (lit "q") mode_simple (fresh, 0)
     = (Raise no_keys,
        (Single.mk_session (VDict [(lit "target_query_count", VInt 12)])
           [UiSuccess Single.msg_complete;
            UiPlan (VInt 12) (VStr (lit "Not provided.")) 2;
            UiWarning (lit "Model aimed for 12 queries but generated 2.")],
         1))
  /\ Bulk.run_summaries
       (fst (Bulk.process_lookup (scripted [Ok answer_two_of_twelve])
               mode_simple 1 1 (lit "q") (Bulk.empty_state, 0)))
     = [[(Bulk.k_lookup_query, VStr (lit "q"));
         (Bulk.k_target_query_count, VInt 12);
         (Bulk.k_reasoning_for_count, VStr [])]]
  /\ List.length
       (Bulk.all_rows
          (fst (Bulk.process_lookup (scripted [Ok answer_two_of_twelve])
                  mode_simple 1 1 (lit "q") (Bulk.empty_state, 0)))) = 2.
Proof.
  destruct C3_mismatch_surfaced as [S B].
  split.
  - destruct (S nat (scripted [Ok answer_two_of_twelve]) accepts accepts
                (lit "q") mode_simple fresh 0 answer_two_of_twelve 1 _ _
                (VInt 12) _
                eq_refl eq_refl eq_refl eq_refl eq_refl eq_refl eq_refl
                ltac:(discriminate) ltac:(discriminate)) as [R [I _]].
    rewrite R. exact I.
  - split.
    + exact (proj1 (S nat (scripted [Ok answer_mixed]) (refuses no_keys) accepts
                      (lit "q") mode_simple fresh 0 answer_mixed 1 _ _
                      (VInt 12) _
                      eq_refl eq_refl eq_refl eq_refl eq_refl eq_refl eq_refl
                      ltac:(discriminate) ltac:(discriminate))).
    + destruct (B nat (scripted [Ok answer_two_of_twelve]) mode_simple 1 1
                  (lit "q") Bulk.empty_state 0 _ _ _ eq_refl eq_refl)
        as [H1 [H2 [H3 _]]].
      split; [exact H1|]. rewrite H2. exact H3.
Defined.

End CountFacts.

(* ================================================================== *)
(** * A response that is not JSON *)
(* ================================================================== *)

Module ParseFailure.

Import BatchFacts.

Definition apology : str := lit "Sorry, I cannot help with that.".
Definition chatter : str := lit "Here are your queries!".

Definition bulk_outcome (text : str) : Bulk.run_state :=
  fst (Bulk.run (scripted [Ok text]) (Bulk.SingleQuery (lit "a")) mode_simple 0).

Definition single_outcome (dataframe download_csv : value -> result unit)
  (text : str) : Single.session :=
  fst (snd (Single.run (scripted [Ok text]) dataframe download_csv (lit "a")
              mode_simple (Single.mk_session VNone [], 0))).

(** C2 on the code.  In the bulk script the record of a parse failure
    holds the lookup and the message of the exception, which gives the
    place of the fault and not the text: two different responses leave
    the same outcome, so the text cannot be recovered from it.  The single
    script does show the cleaned text. *)
Theorem C2_bulk_record_drops_the_text :
  apology <> chatter
  /\ bulk_outcome apology = bulk_outcome chatter
  /\ Bulk.errors (bulk_outcome apology)
     = [[(Bulk.k_lookup_query, VStr (lit "a"));
         (Bulk.k_error, VStr (lit "Expecting value: line 1 column 1 (char 0)"))]]
  /\ Bulk.ui (bulk_outcome apology)
     = [UiProgress 0 1;
        UiStatusWrite
          (Bulk.msg_parse_failed (lit "a")
             (JSONDecodeError Json.msg_value apology 0));
        UiProgress 1 1; UiStatusComplete; UiWarning Bulk.msg_no_rows;
        UiTable [Bulk.k_lookup_query; Bulk.k_error] (Bulk.errors (bulk_outcome apology))]
  /\ (forall dataframe download_csv,
        Single.ui (single_outcome dataframe download_csv apology)
        = [UiError Single.msg_parse_failed; UiText Single.msg_raw; UiText apology;
           UiWarning Single.msg_none]).
Proof.
  split; [discriminate|]. vm_compute. auto.
Qed.

End ParseFailure.

(* ================================================================== *)
(** * More on the batch loop *)
(* ================================================================== *)

Module LoopExtras.

Import Bulk BatchFacts.

Section Client.

Variable World : Type.
Variable generate_content : str -> World -> result str * World.

(** The world after the call that [generate_fanout] makes for [q]. *)
Definition call (mode : str) (w : World) (q : str) : World :=
  snd (generate_content (QUERY_FANOUT_PROMPT q mode) w).

Lemma generate_fanout_world (q mode : str) (w : World) :
  snd (generate_fanout generate_content q mode w) = call mode w q.
Proof.
  unfold generate_fanout, call.
  now destruct (generate_content (QUERY_FANOUT_PROMPT q mode) w).
Qed.

Lemma process_lookup_world (mode : str) (total i : nat) (q : str)
      (st : run_state) (w : World) :
  snd (process_lookup generate_content mode total i q (st, w)) = call mode w q.
Proof.
  unfold process_lookup. rewrite <- generate_fanout_world.
  now destruct (generate_fanout generate_content q mode w).
Qed.

Lemma loop_world (mode : str) (total : nat) (lookups : list str) :
  forall (i : nat) (st : run_state) (w : World),
    snd (loop generate_content mode total i lookups (st, w))
    = fold_left (call mode) lookups w.
Proof.
  induction lookups as [|q rest IH]; intros i st w; [reflexivity|].
  cbn [loop fold_left]. rewrite <- (process_lookup_world mode total i q st w).
  destruct (process_lookup generate_content mode total i q (st, w)) as [st1 w1].
  apply IH.
Qed.

(** X1. A run calls the generation client once for each lookup, in input
    order, with the prompt of that lookup, and not again: failures are not
    retried and an empty list of lookups makes no call. *)
Theorem X1_one_call_per_lookup (i : input) (mode : str) (w : World) :
  snd (run generate_content i mode w)
  = fold_left (fun w' q => snd (generate_content (QUERY_FANOUT_PROMPT q mode) w'))
      (build_lookups i) w.
Proof.
  unfold run. destruct (build_lookups i) as [|q rest] eqn:B; [reflexivity|].
  pose proof (loop_world mode (List.length (q :: rest)) (q :: rest) 1
                (emit (UiProgress 0 (List.length (q :: rest))) empty_state) w) as L.
  destruct (loop generate_content mode (List.length (q :: rest)) 1 (q :: rest)
              (emit (UiProgress 0 (List.length (q :: rest))) empty_state, w))
    as [st w'].
  exact L.
Qed.

(** The status line and the progress signal of each turn. *)
Definition turn_lines (total : nat) (mk : str * nat) : list ui_event :=
  [UiStatusWrite (fst mk); UiProgress (snd mk) total].

Lemma process_lookup_lines (mode : str) (total i : nat) (q : str)
      (st : run_state) (w : World) :
  exists msg,
    ui (fst (process_lookup generate_content mode total i q (st, w)))
    = ui st ++ turn_lines total (msg, i).
Proof.
  rewrite process_lookup_cases. unfold try_body_cases, turn_lines.
  destruct (fst (generate_fanout generate_content q mode w))
    as [[[details expanded] raw]|e].
  2:{ unfold handler. destruct (is_JSONDecodeError e); eexists; cbn;
        now rewrite <- app_assoc. }
  destruct (summary_of q details) as [summary|e].
  2:{ unfold handler. destruct (is_JSONDecodeError e); eexists; cbn;
        now rewrite <- app_assoc. }
  destruct (py_iter expanded) as [objs|e].
  2:{ unfold handler. destruct (is_JSONDecodeError e); eexists; cbn;
        now rewrite <- app_assoc. }
  destruct (snd (flatten q objs)) as [e|].
  { unfold handler. destruct (is_JSONDecodeError e); eexists; cbn;
      now rewrite <- app_assoc. }
  destruct (py_len expanded) as [n|e].
  - eexists; cbn; now rewrite <- app_assoc.
  - unfold handler. destruct (is_JSONDecodeError e); eexists; cbn;
      now rewrite <- app_assoc.
Qed.

(** X2. Whatever the lookups give, the loop writes exactly one status
    line for each of them, followed by the progress signal [k/total] with
    [k] counting up from the start index, and nothing else. *)
Theorem X2_one_status_line_per_lookup (mode : str) (total : nat)
        (lookups : list str) :
  forall (i : nat) (st : run_state) (w : World),
  exists msgs,
    List.length msgs = List.length lookups
    /\ ui (fst (loop generate_content mode total i lookups (st, w)))
       = ui st
           ++ flat_map (turn_lines total)
                (combine msgs (List.seq i (List.length lookups))).
Proof.
  induction lookups as [|q rest IH]; intros i st w.
  - exists []. cbn. now rewrite app_nil_r.
  - cbn [loop].
    destruct (process_lookup_lines mode total i q st w) as [msg P].
    destruct (process_lookup generate_content mode total i q (st, w))
      as [st1 w1]. cbn [fst] in P.
    destruct (IH (S i) st1 w1) as [msgs [L U]].
    exists (msg :: msgs). split; [cbn; now rewrite L|].
    rewrite U, P. cbn [List.length List.seq combine flat_map].
    now rewrite <- app_assoc.
Qed.

(** The lookup that a row, a plan summary or an error record is tagged
    with. *)
Definition lookup_of (d : dict) : option value := dict_lookup d k_lookup_query.

Definition tag (q : str) : option value := Some (VStr q).

(** The entries of [l] whose flag is set. *)
Definition marked {A} (flags : list bool) (l : list A) : list A :=
  map snd (filter fst (combine flags l)).

Lemma summary_of_tag (q : str) (details : value) (summary : dict) :
  summary_of q details = Ok summary -> lookup_of summary = tag q.
Proof.
  unfold summary_of. destruct details; try discriminate.
  cbn [py_get bind]. intros H. injection H as <-. reflexivity.
Qed.

Lemma row_of_tag (q : str) (obj : value) (row : dict) :
  row_of q obj = Ok row -> lookup_of row = tag q.
Proof.
  destruct obj; try discriminate.
  rewrite row_of_dict. intros H. injection H as <-. reflexivity.
Qed.

Lemma flatten_tags (q : str) (objs : list value) :
  map lookup_of (fst (flatten q objs))
  = repeat (tag q) (List.length (fst (flatten q objs))).
Proof.
  induction objs as [|obj rest IH]; [reflexivity|]. cbn [flatten].
  destruct (row_of q obj) as [row|e] eqn:R; [|reflexivity].
  destruct (flatten q rest) as [rows stop]. cbn [fst] in *.
  cbn. now rewrite IH, (row_of_tag _ _ R).
Qed.

(** What one turn adds to the three accumulators. *)
Lemma process_lookup_adds (mode : str) (total i : nat) (q : str)
      (st : run_state) (w : World) :
  exists (failed summarized : bool) (n : nat),
    (failed || summarized = true)
    /\ map lookup_of
         (errors (fst (process_lookup generate_content mode total i q (st, w))))
       = map lookup_of (errors st) ++ (if failed then [tag q] else [])
    /\ map lookup_of
         (run_summaries (fst (process_lookup generate_content mode total i q (st, w))))
       = map lookup_of (run_summaries st) ++ (if summarized then [tag q] else [])
    /\ map lookup_of
         (all_rows (fst (process_lookup generate_content mode total i q (st, w))))
       = map lookup_of (all_rows st) ++ repeat (tag q) n.
Proof.
  rewrite process_lookup_cases. unfold try_body_cases.
  destruct (fst (generate_fanout generate_content q mode w))
    as [[[details expanded] raw]|e].
  2:{ exists true, false, 0. unfold handler.
      destruct (is_JSONDecodeError e); cbn; rewrite ?map_app, ?app_nil_r; auto. }
  destruct (summary_of q details) as [summary|e] eqn:S.
  2:{ exists true, false, 0. unfold handler.
      destruct (is_JSONDecodeError e); cbn; rewrite ?map_app, ?app_nil_r; auto. }
  apply summary_of_tag in S.
  destruct (py_iter expanded) as [objs|e].
  2:{ exists true, true, 0. unfold handler.
      destruct (is_JSONDecodeError e); cbn; rewrite ?map_app, ?app_nil_r;
        cbn; rewrite ?S; auto. }
  pose proof (flatten_tags q objs) as FT.
  destruct (snd (flatten q objs)) as [e|].
  { exists true, true, (List.length (fst (flatten q objs))). unfold handler.
    destruct (is_JSONDecodeError e); cbn; rewrite ?map_app, ?FT; cbn;
      rewrite ?S; auto. }
  destruct (py_len expanded) as [n|e].
  - exists false, true, (List.length (fst (flatten q objs))).
    cbn; rewrite ?map_app, ?FT, ?app_nil_r; cbn; rewrite ?S; auto.
  - exists true, true, (List.length (fst (flatten q objs))). unfold handler.
    destruct (is_JSONDecodeError e); cbn; rewrite ?map_app, ?FT; cbn;
      rewrite ?S; auto.
Qed.

(** X3. The error records of a run are tagged with the failed lookups, in
    input order, one record for each; the plan summaries are tagged with
    the summarized lookups, in input order, one for each; and every lookup
    is failed or summarized (or both). *)
Theorem X3_errors_and_summaries_in_input_order (mode : str) (total : nat)
        (lookups : list str) :
  forall (i : nat) (st : run_state) (w : World),
  exists failed summarized : list bool,
    List.length failed = List.length lookups
    /\ List.length summarized = List.length lookups
    /\ forallb (fun p => fst p || snd p) (combine failed summarized) = true
    /\ map lookup_of (errors (fst (loop generate_content mode total i lookups (st, w))))
       = map lookup_of (errors st) ++ map tag (marked failed lookups)
    /\ map lookup_of
         (run_summaries (fst (loop generate_content mode total i lookups (st, w))))
       = map lookup_of (run_summaries st) ++ map tag (marked summarized lookups).
Proof.
  induction lookups as [|q rest IH]; intros i st w.
  - exists [], []. cbn. now rewrite !app_nil_r.
  - cbn [loop].
    destruct (process_lookup_adds mode total i q st w)
      as [f [s [n [O [HE [HS _]]]]]].
    destruct (process_lookup generate_content mode total i q (st, w))
      as [st1 w1]. cbn [fst] in HE, HS.
    destruct (IH (S i) st1 w1) as [fs [ss [L1 [L2 [A [HE' HS']]]]]].
    exists (f :: fs), (s :: ss).
    split; [cbn; now rewrite L1|]. split; [cbn; now rewrite L2|].
    split; [cbn; now rewrite O, A|].
    rewrite HE', HS', HE, HS. unfold marked. cbn [combine filter fst].
    destruct f, s; cbn [map snd]; now rewrite <- !app_assoc.
Qed.

(** X4. The rows of a run are grouped by lookup, the groups in input
    order: each lookup contributes a run of rows tagged with it (none when
    it failed early or had no expanded query). *)
Theorem X4_rows_grouped_by_lookup (mode : str) (total : nat)
        (lookups : list str) :
  forall (i : nat) (st : run_state) (w : World),
  exists counts : list nat,
    List.length counts = List.length lookups
    /\ map lookup_of (all_rows (fst (loop generate_content mode total i lookups (st, w))))
       = map lookup_of (all_rows st)
           ++ flat_map (fun qn => repeat (tag (fst qn)) (snd qn))
                (combine lookups counts).
Proof.
  induction lookups as [|q rest IH]; intros i st w.
  - exists []. cbn. now rewrite app_nil_r.
  - cbn [loop].
    destruct (process_lookup_adds mode total i q st w)
      as [f [s [n [_ [_ [_ R]]]]]].
    destruct (process_lookup generate_content mode total i q (st, w))
      as [st1 w1]. cbn [fst] in R.
    destruct (IH (S i) st1 w1) as [counts [L R']].
    exists (n :: counts). split; [cbn; now rewrite L|].
    rewrite R', R. cbn [combine flat_map fst snd]. now rewrite <- app_assoc.
Qed.

(** The row made from the fields [d] of one expanded query. *)
Definition expanded_row (q : str) (d : dict) : dict :=
  [ (k_lookup_query, VStr q);
    (k_query, ParserClaims.field d k_query (VStr []));
    (k_type, ParserClaims.field d k_type (VStr []));
    (k_user_intent, ParserClaims.field d k_user_intent (VStr []));
    (k_reasoning, ParserClaims.field d k_reasoning (VStr []));
    (k_routing_format, ParserClaims.field d k_routing_format (VStr []));
    (k_format_reason, ParserClaims.field d k_format_reason (VStr [])) ].

Lemma flatten_objects (q : str) (ds : list dict) :
  flatten q (map VDict ds) = (map (expanded_row q) ds, None).
Proof.
  induction ds as [|d ds IH]; [reflexivity|].
  cbn [map flatten]. rewrite row_of_dict, IH. reflexivity.
Qed.

(** X5. When the plan is an object and the expanded queries are a list of
    objects, the turn adds one row for each of them, in the order of the
    model, and no error record. *)
Theorem X5_rows_follow_the_model_order (mode : str) (total i : nat) (q : str)
        (st : run_state) (w : World) (plan : dict) (ds : list dict) (raw : str) :
  fst (generate_fanout generate_content q mode w)
  = Ok (VDict plan, VList (map VDict ds), raw) ->
  all_rows (fst (process_lookup generate_content mode total i q (st, w)))
  = all_rows st ++ map (expanded_row q) ds
  /\ errors (fst (process_lookup generate_content mode total i q (st, w)))
     = errors st.
Proof.
  intros A. rewrite process_lookup_cases, A. unfold try_body_cases.
  cbn [summary_of py_get bind py_iter py_len].
  rewrite flatten_objects. cbn. auto.
Qed.

(** ** The accumulators do not depend on the counting of the turns *)

(** The three accumulators, without the Streamlit calls. *)
Definition results (st : run_state) : list dict * list dict * list dict :=
  (all_rows st, run_summaries st, errors st).

Definition results_app (a b : list dict * list dict * list dict)
  : list dict * list dict * list dict :=
  let '(r1, s1, e1) := a in
  let '(r2, s2, e2) := b in
  (r1 ++ r2, s1 ++ s2, e1 ++ e2).

Lemma results_state_app (a b : run_state) :
  results (state_app a b) = results_app (results a) (results b).
Proof. reflexivity. Qed.

Lemma results_emit (ev : ui_event) (st : run_state) :
  results (emit ev st) = results st.
Proof. reflexivity. Qed.

Lemma process_lookup_index_free (mode : str) (total total' i i' : nat)
      (q : str) (st : run_state) (w : World) :
  results (fst (process_lookup generate_content mode total i q (st, w)))
  = results (fst (process_lookup generate_content mode total' i' q (st, w))).
Proof. now rewrite !process_lookup_cases, !results_emit. Qed.

Lemma loop_index_free (mode : str) (total total' : nat) (lookups : list str) :
  forall (i i' : nat) (w : World),
    results (fst (loop generate_content mode total i lookups (empty_state, w)))
    = results (fst (loop generate_content mode total' i' lookups (empty_state, w))).
Proof.
  induction lookups as [|q rest IH]; intros i i' w; [reflexivity|].
  cbn [loop].
  pose proof (process_lookup_index_free mode total total' i i' q empty_state w) as P.
  pose proof (process_lookup_world mode total i q empty_state w) as W1.
  pose proof (process_lookup_world mode total' i' q empty_state w) as W2.
  destruct (process_lookup generate_content mode total i q (empty_state, w))
    as [st1 w1].
  destruct (process_lookup generate_content mode total' i' q (empty_state, w))
    as [st2 w2].
  cbn [fst snd] in *. subst w1 w2.
  rewrite (loop_from generate_content mode total (S i) rest st1).
  rewrite (loop_from generate_content mode total' (S i') rest st2).
  cbn [fst]. rewrite !results_state_app, P. f_equal. apply IH.
Qed.

End Client.

(** A client whose answer depends on the prompt alone. *)
Definition stateless (answer : str -> result str) (prompt : str) (w : unit)
  : result str * unit :=
  (answer prompt, w).

Lemma stateless_early_failure (answer : str -> result str)
      (mode : str) (total i : nat) (q : str) (e : exn) :
  fst (generate_fanout (stateless answer) q mode tt) = Raise e ->
  results (fst (process_lookup (stateless answer) mode total i q (empty_state, tt)))
  = ([], [], [error_record q e]).
Proof.
  intros A. rewrite process_lookup_cases, A. unfold try_body_cases, handler.
  now destruct (is_JSONDecodeError e).
Qed.

(** X6. With a client whose answers depend on the prompt alone, a lookup
    for which [generate_fanout] raises changes nothing but the error list:
    the rows and the plan summaries of the batch are those of the batch
    without that lookup, and the error list is that of the lookups before,
    its record, and that of the lookups after. *)
Theorem X6_failed_lookup_can_be_dropped (answer : str -> result str)
        (mode : str) (total i : nat) (pre : list str) (q : str)
        (post : list str) (e : exn) :
  fst (generate_fanout (stateless answer) q mode tt) = Raise e ->
  let with_q := fst (loop (stateless answer) mode total i (pre ++ q :: post)
                       (empty_state, tt)) in
  let without := fst (loop (stateless answer) mode total i (pre ++ post)
                        (empty_state, tt)) in
  all_rows with_q = all_rows without
  /\ run_summaries with_q = run_summaries without
  /\ errors with_q
     = errors (fst (loop (stateless answer) mode total i pre (empty_state, tt)))
         ++ [error_record q e]
         ++ errors (fst (loop (stateless answer) mode total i post (empty_state, tt))).
Proof.
  intros A with_q without.
  assert (U : forall (sw : run_state * unit), sw = (fst sw, tt))
    by (intros [st []]; reflexivity).
  set (before := fst (loop (stateless answer) mode total i pre (empty_state, tt))).
  set (after := fst (loop (stateless answer) mode total i post (empty_state, tt))).
  assert (W : results with_q
              = results_app
                  (results_app (results before) ([], [], [error_record q e]))
                  (results after)).
  { unfold with_q. rewrite loop_split.
    rewrite (U (loop (stateless answer) mode total i pre (empty_state, tt))).
    fold before. cbn [loop].
    rewrite (U (process_lookup (stateless answer) mode total
                  (i + List.length pre) q (before, tt))).
    rewrite loop_from. cbn [fst].
    rewrite <- (state_app_empty_r before) at 1.
    rewrite process_lookup_app. cbn [fst].
    rewrite !results_state_app.
    rewrite (stateless_early_failure answer mode total _ q A).
    rewrite (loop_index_free (stateless answer) mode total total post
               (S (i + List.length pre)) i tt).
    reflexivity. }
  assert (O : results without = results_app (results before) (results after)).
  { unfold without. rewrite loop_split.
    rewrite (U (loop (stateless answer) mode total i pre (empty_state, tt))).
    fold before. rewrite loop_from. cbn [fst].
    rewrite results_state_app.
    rewrite (loop_index_free (stateless answer) mode total total post
               (i + List.length pre) i tt).
    reflexivity. }
  unfold results, results_app in W, O.
  injection W as W1 W2 W3. injection O as O1 O2 O3.
  rewrite W1, W2, W3, O1, O2. rewrite !app_nil_r, <- app_assoc. auto.
Qed.

Lemma X5_witness :
  all_rows (fst (process_lookup (scripted [Ok answer_a]) mode_simple 1 1
                   (lit "a") (empty_state, 0)))
  = [ expanded_row (lit "a")
        [(lit "query", VStr (lit "a1")); (lit "type", VStr (lit "related"))];
      expanded_row (lit "a") [(lit "query", VStr (lit "a2"))] ].
Proof.
  exact (proj1 (@X5_rows_follow_the_model_order nat (scripted [Ok answer_a])
                  mode_simple 1 1 (lit "a") empty_state 0
                  [(lit "target_query_count", VInt 2);
                   (lit "reasoning_for_count", VStr (lit "two"))]
                  [[(lit "query", VStr (lit "a1")); (lit "type", VStr (lit "related"))];
                   [(lit "query", VStr (lit "a2"))]]
                  _ eq_refl)).
Defined.

(** A client that fails for lookup ["b"] and answers every other prompt
    alike. *)
Definition fails_for_b (prompt : str) : result str :=
  if Py.eqb prompt (QUERY_FANOUT_PROMPT (lit "b") mode_simple)
  then Raise quota else Ok answer_a.

Lemma X6_witness :
  fst (generate_fanout (stateless fails_for_b) (lit "b") mode_simple tt)
  = Raise quota
  /\ all_rows (fst (loop (stateless fails_for_b) mode_simple 3 1
                      [lit "a"; lit "b"; lit "c"] (empty_state, tt)))
     = all_rows (fst (loop (stateless fails_for_b) mode_simple 3 1
                        [lit "a"; lit "c"] (empty_state, tt))).
Proof.
  split; [reflexivity|].
  exact (proj1 (@X6_failed_lookup_can_be_dropped fails_for_b mode_simple 3 1
                  [lit "a"] (lit "b") [lit "c"] quota eq_refl)).
Defined.

(** ** A run in which every call fails *)

Definition error_cols : list str := [k_lookup_query; k_error].

Lemma df_columns_errors (records : list dict) :
  records <> [] -> Forall (fun d => dict_keys d = error_cols) records ->
  df_columns records = error_cols.
Proof.
  unfold df_columns. destruct records as [|d ds]; [congruence|].
  intros _ H. inversion H as [|? ? K F]; subst. cbn [fold_left].
  rewrite K. change (fold_left add_column error_cols []) with error_cols.
  clear H K. induction F as [|r rs K _ IH]; [reflexivity|].
  cbn [fold_left]. rewrite K.
  change (fold_left add_column error_cols error_cols) with error_cols.
  exact IH.
Qed.

Lemma show_rows_none (st : run_state) :
  all_rows st = [] -> show_rows st = emit (UiWarning msg_no_rows) st.
Proof. unfold show_rows. now intros ->. Qed.

Lemma show_summaries_none (st : run_state) :
  run_summaries st = [] -> show_summaries st = st.
Proof. unfold show_summaries. now intros ->. Qed.

Lemma show_errors_some (st : run_state) :
  errors st <> [] ->
  show_errors st = emit (UiTable (df_columns (errors st)) (errors st)) st.
Proof. unfold show_errors. destruct (errors st); [congruence | reflexivity]. Qed.

Section AllFail.

Variable World : Type.
Variable generate_content : str -> World -> result str * World.
Hypothesis always_raises :
  forall prompt w, exists e, fst (generate_content prompt w) = Raise e.

Lemma failing_turn (mode : str) (total i : nat) (q : str) (st : run_state)
      (w : World) :
  exists e,
    results (fst (process_lookup generate_content mode total i q (st, w)))
    = (all_rows st, run_summaries st, errors st ++ [error_record q e]).
Proof.
  destruct (always_raises (QUERY_FANOUT_PROMPT q mode) w) as [e E].
  exists e. rewrite process_lookup_cases.
  assert (A : fst (generate_fanout generate_content q mode w) = Raise e).
  { unfold generate_fanout.
    destruct (generate_content (QUERY_FANOUT_PROMPT q mode) w) as [r w'].
    cbn [fst] in *. now subst r. }
  rewrite A. unfold try_body_cases, handler.
  now destruct (is_JSONDecodeError e).
Qed.

Lemma failing_loop (mode : str) (total : nat) (lookups : list str) :
  forall (i : nat) (st : run_state) (w : World),
  exists records,
    results (fst (loop generate_content mode total i lookups (st, w)))
    = (all_rows st, run_summaries st, errors st ++ records)
    /\ map lookup_of records = map tag lookups
    /\ Forall (fun d => dict_keys d = error_cols) records.
Proof.
  induction lookups as [|q rest IH]; intros i st w.
  - exists []. cbn. unfold results. now rewrite app_nil_r.
  - cbn [loop]. destruct (failing_turn mode total i q st w) as [e P].
    destruct (process_lookup generate_content mode total i q (st, w))
      as [st1 w1]. cbn [fst] in P.
    destruct (IH (S i) st1 w1) as [records [R [T K]]].
    unfold results in P. injection P as P1 P2 P3.
    exists (error_record q e :: records).
    rewrite R, P1, P2, P3, <- app_assoc. repeat split.
    + cbn. now rewrite T.
    + constructor; [reflexivity | exact K].
Qed.

(** X7. When every call of the generation client raises, the run still
    completes: it has no row and no plan summary, one error record for
    each lookup in input order, and it shows the warning that no query was
    generated together with the table of the errors. *)
Theorem X7_every_call_fails (i : input) (mode : str) (w : World) :
  let st := fst (run generate_content i mode w) in
  all_rows st = []
  /\ run_summaries st = []
  /\ map lookup_of (errors st) = map tag (build_lookups i)
  /\ (build_lookups i <> [] ->
      In (UiWarning msg_no_rows) (ui st)
      /\ In (UiTable error_cols (errors st)) (ui st)).
Proof.
  intros st. unfold st, run.
  destruct (build_lookups i) as [|q rest] eqn:B.
  { cbn. repeat split; congruence. }
  set (total := List.length (q :: rest)).
  destruct (failing_loop mode total (q :: rest) 1
              (emit (UiProgress 0 total) empty_state) w) as [records [R [T K]]].
  destruct (loop generate_content mode total 1 (q :: rest)
              (emit (UiProgress 0 total) empty_state, w)) as [st1 w1].
  cbn [fst] in *. unfold results in R. cbn in R. injection R as R1 R2 R3.
  assert (N : records <> []) by (intros ->; discriminate).
  set (st2 := emit UiStatusComplete st1).
  assert (A1 : all_rows st2 = []) by exact R1.
  assert (A2 : run_summaries st2 = []) by exact R2.
  assert (A3 : errors st2 = records) by exact R3.
  unfold show_results.
  rewrite (show_rows_none st2 A1).
  rewrite show_summaries_none by exact A2.
  rewrite show_errors_some by (cbn [emit errors]; now rewrite A3).
  cbn [emit all_rows run_summaries errors ui].
  rewrite A1, A2, A3, (df_columns_errors N K).
  split; [reflexivity|]. split; [reflexivity|]. split; [exact T|].
  intros _. split; apply in_or_app.
  - left. apply in_or_app. right. now left.
  - right. now left.
Qed.

End AllFail.

Lemma X7_witness :
  let st := fst (run (scripted [])
                   (BulkList (lit "a" ++ [nl] ++ lit "b")) mode_simple 0) in
  errors st
  = [error_record (lit "a") (OtherException (lit "script exhausted"));
     error_record (lit "b") (OtherException (lit "script exhausted"))]
  /\ In (UiWarning msg_no_rows) (ui st).
Proof.
  split; [reflexivity|].
  refine (proj1 (proj2 (proj2 (proj2
           (@X7_every_call_fails nat (scripted []) _
              (BulkList (lit "a" ++ [nl] ++ lit "b")) mode_simple 0))) _)).
  - intros prompt calls. eexists. unfold scripted. cbn [fst].
    destruct calls as [|[|n]]; reflexivity.
  - discriminate.
Defined.

End LoopExtras.

(* ================================================================== *)
(** * More on the response parser *)
(* ================================================================== *)

Module ParserExtras.

Import PyFacts FenceFacts JsonFacts ParserClaims.

Lemma forallb_isspace_app (a b : str) :
  forallb isspace a = true -> forallb isspace b = true ->
  forallb isspace (a ++ b) = true.
Proof. intros A B. now rewrite forallb_app, A, B. Qed.

(** ** A body between optional fences and blank separators *)

Section Body.

(** The body: a core that starts and ends with a character that is
    neither whitespace nor a backtick, between blank margins. *)
Variables (w1 w2 core rest : str) (c0 c : char).
Hypothesis margin1 : forallb isspace w1 = true.
Hypothesis margin2 : forallb isspace w2 = true.
Hypothesis head : core ++ [c] = c0 :: rest.
Hypothesis head_solid : solid c0 = true.
Hypothesis last_solid : solid c = true.

Let body : str := w1 ++ (core ++ [c]) ++ w2.

Lemma core_lstrip : lstrip (core ++ [c]) = core ++ [c].
Proof. rewrite head. apply lstrip_solid. now apply solid_isspace. Qed.

Lemma core_no_close (m : str) :
  strip_close_fence (m ++ core ++ [c]) = m ++ core ++ [c].
Proof.
  unfold strip_close_fence.
  replace (m ++ core ++ [c]) with ((m ++ core) ++ [c]) by now rewrite app_assoc.
  change fence with (lit "``" ++ [backtick]).
  rewrite endswith_other_last; [reflexivity | now apply solid_backtick].
Qed.

Lemma core_no_open (m : str) :
  strip_open_fence ((core ++ [c]) ++ m) = (core ++ [c]) ++ m.
Proof.
  apply open_fence_kept. rewrite head.
  change fence_json with (backtick :: lit "``json").
  apply startswith_other_head. now apply solid_backtick.
Qed.

Lemma strip_around_core (p1 p2 : str) :
  forallb isspace p1 = true -> forallb isspace p2 = true ->
  strip (p1 ++ (core ++ [c]) ++ p2) = core ++ [c].
Proof.
  intros P1 P2. apply strip_margins; auto.
  - now apply solid_isspace.
  - apply core_lstrip.
Qed.

Lemma clean_bare : clean_fences body = core ++ [c].
Proof.
  unfold clean_fences, body. rewrite strip_around_core by assumption.
  pose proof (core_no_open []) as O. rewrite app_nil_r in O. rewrite O.
  pose proof (core_no_close []) as K. cbn [app] in K. rewrite K.
  pose proof (@strip_around_core [] [] eq_refl eq_refl) as S.
  cbn [app] in S. now rewrite app_nil_r in S.
Qed.

Lemma clean_open_only (p1 p2 : str) :
  forallb isspace p1 = true -> forallb isspace p2 = true ->
  clean_fences (fence_json ++ p1 ++ body ++ p2) = core ++ [c].
Proof.
  intros P1 P2. unfold clean_fences, body.
  assert (S : strip (fence_json ++ p1 ++ (w1 ++ (core ++ [c]) ++ w2) ++ p2)
              = fence_json ++ (p1 ++ w1) ++ core ++ [c]).
  { pose proof (@strip_margins [] (w2 ++ p2) (fence_json ++ (p1 ++ w1) ++ core) c
                  eq_refl (forallb_isspace_app _ _ margin2 P2)
                  (solid_isspace _ last_solid) eq_refl) as M.
    cbn [app] in M. rewrite <- !app_assoc in M. rewrite <- !app_assoc.
    exact M. }
  rewrite S, open_fence_cut, core_no_close, <- app_assoc.
  pose proof (@strip_around_core (p1 ++ w1) []
                (forallb_isspace_app _ _ P1 margin1) eq_refl) as T.
  rewrite app_nil_r, <- !app_assoc in T. exact T.
Qed.

Lemma clean_close_only (p1 p2 : str) :
  forallb isspace p1 = true -> forallb isspace p2 = true ->
  clean_fences (p1 ++ body ++ p2 ++ fence) = core ++ [c].
Proof.
  intros P1 P2. unfold clean_fences, body.
  assert (S : strip (p1 ++ (w1 ++ (core ++ [c]) ++ w2) ++ p2 ++ fence)
              = (core ++ [c]) ++ (w2 ++ p2) ++ fence).
  { pose proof (@strip_margins (p1 ++ w1) []
                  ((core ++ [c]) ++ (w2 ++ p2) ++ lit "``") backtick
                  (forallb_isspace_app _ _ P1 margin1) eq_refl eq_refl) as M.
    rewrite app_nil_r in M.
    assert (L : lstrip ((((core ++ [c]) ++ (w2 ++ p2) ++ lit "``") ++ [backtick]))
                = ((core ++ [c]) ++ (w2 ++ p2) ++ lit "``") ++ [backtick]).
    { rewrite head. apply lstrip_solid. now apply solid_isspace. }
    specialize (M L).
    replace (p1 ++ (w1 ++ (core ++ [c]) ++ w2) ++ p2 ++ fence)
      with ((p1 ++ w1) ++ ((core ++ [c]) ++ (w2 ++ p2) ++ lit "``") ++ [backtick])
      by (rewrite <- !app_assoc; reflexivity).
    rewrite M. rewrite <- !app_assoc. reflexivity. }
  rewrite S, core_no_open.
  unfold strip_close_fence.
  assert (E : endswith ((core ++ [c]) ++ (w2 ++ p2) ++ fence) fence = true).
  { apply endswith_spec. exists ((core ++ [c]) ++ (w2 ++ p2)).
    now rewrite <- !app_assoc. }
  rewrite E.
  replace ((core ++ [c]) ++ (w2 ++ p2) ++ fence)
    with (((core ++ [c]) ++ (w2 ++ p2)) ++ fence) by now rewrite <- !app_assoc.
  rewrite cut_close.
  pose proof (@strip_around_core [] (w2 ++ p2) eq_refl
                (forallb_isspace_app _ _ margin2 P2)) as T.
  exact T.
Qed.

End Body.

(** Between both fences any text is laid bare. *)
Lemma clean_between_fences (x : str) :
  clean_fences (fence_json ++ x ++ fence) = strip x.
Proof.
  unfold clean_fences.
  assert (S : strip (fence_json ++ x ++ fence) = fence_json ++ x ++ fence).
  { pose proof (@strip_margins [] [] (fence_json ++ x ++ lit "``") backtick
                  eq_refl eq_refl eq_refl eq_refl) as M.
    rewrite app_nil_r in M. cbn [app] in M.
    replace (fence_json ++ x ++ fence)
      with ((fence_json ++ x ++ lit "``") ++ [backtick])
      by (rewrite <- !app_assoc; reflexivity).
    exact M. }
  rewrite S, open_fence_cut.
  unfold strip_close_fence.
  assert (E : endswith (x ++ fence) fence = true)
    by (apply endswith_spec; now exists x).
  now rewrite E, cut_close.
Qed.

(** X8. For a text [t] that [json.loads] accepts, the clean-up gives the
    same string whether [t] comes bare, after an opening [```json] fence
    only, before a closing fence only, or between both, whatever
    whitespace separates the fences from [t]. *)
Theorem X8_fence_variants (t : str) (v : value) (p1 p2 : str) :
  Json.loads t = Ok v ->
  forallb isspace p1 = true -> forallb isspace p2 = true ->
  clean_fences (fence_json ++ p1 ++ t ++ p2) = clean_fences t
  /\ clean_fences (p1 ++ t ++ p2 ++ fence) = clean_fences t
  /\ clean_fences (fence_json ++ (p1 ++ t ++ p2) ++ fence) = clean_fences t.
Proof.
  intros L P1 P2.
  pose proof (@clean_of_json _ _ L) as B.
  apply loads_ok_shape in L
    as [w1 [c0 [core [c [w2 [E [F1 [F2 [[rest R] [V SC]]]]]]]]]].
  apply all_ws_isspace in F1, F2. apply starts_value_solid in V.
  pose proof (@clean_bare w1 w2 core rest c0 c F1 F2 R V SC) as K.
  rewrite <- E in K.
  pose proof (@clean_open_only w1 w2 core rest c0 c F1 F2 R V SC p1 p2 P1 P2) as O.
  pose proof (@clean_close_only w1 w2 core rest c0 c F1 F2 R V SC p1 p2 P1 P2) as C.
  rewrite <- E in O, C.
  split; [now rewrite O, K|]. split; [now rewrite C, K|].
  rewrite clean_between_fences, B. now apply strip_pad.
Qed.

Lemma X8_witness :
  clean_fences (fence_json ++ [13%N; nl] ++ body_no_plan ++ [nl])
  = clean_fences body_no_plan
  /\ clean_fences ([nl] ++ body_no_plan ++ lit "  " ++ fence)
     = clean_fences body_no_plan.
Proof.
  pose proof (@X8_fence_variants body_no_plan _ [13%N; nl] [nl]
                eq_refl eq_refl eq_refl) as [H _].
  pose proof (@X8_fence_variants body_no_plan _ [nl] (lit "  ")
                eq_refl eq_refl eq_refl) as [_ [G _]].
  split; [exact H | exact G].
Defined.

(** The clean-up leaves a text alone that [json.loads] accepts and that
    is already trimmed. *)
Lemma clean_of_clean (t : str) (v : value) :
  Json.loads t = Ok v -> clean_fences (clean_fences t) = clean_fences t.
Proof.
  intros L.
  pose proof L as L'. apply loads_ok_shape in L'
    as [w1 [c0 [core [c [w2 [E [F1 [F2 [[rest R] [V SC]]]]]]]]]].
  apply all_ws_isspace in F1, F2. apply starts_value_solid in V.
  pose proof (@clean_bare w1 w2 core rest c0 c F1 F2 R V SC) as K.
  rewrite <- E in K. rewrite K.
  pose proof (@clean_bare [] [] core rest c0 c eq_refl eq_refl R V SC) as K2.
  cbn [app] in K2. now rewrite app_nil_r in K2.
Qed.

(** X9. On a text that [json.loads] accepts the clean-up is idempotent,
    and [generate_fanout] of the bulk script returns the same result for
    a response and for its cleaned form. *)
Theorem X9_clean_up_idempotent_on_json (t : str) (v : value) :
  Json.loads t = Ok v ->
  clean_fences (clean_fences t) = clean_fences t
  /\ forall (World : Type) (gc_raw gc_clean : str -> World -> result str * World)
            query mode w w',
      gc_raw (Bulk.QUERY_FANOUT_PROMPT query mode) w = (Ok t, w') ->
      gc_clean (Bulk.QUERY_FANOUT_PROMPT query mode) w = (Ok (clean_fences t), w') ->
      Bulk.generate_fanout gc_raw query mode w
      = Bulk.generate_fanout gc_clean query mode w.
Proof.
  intros L. pose proof (@clean_of_clean _ _ L) as I. split; [exact I|].
  intros World g1 g2 query mode w w' H1 H2.
  rewrite (@bulk_generate_fanout_text _ _ _ _ _ _ _ H1).
  rewrite (@bulk_generate_fanout_text _ _ _ _ _ _ _ H2). now rewrite I.
Qed.

Lemma X9_witness :
  clean_fences (clean_fences (lit "  " ++ body_no_plan ++ [nl]))
  = clean_fences (lit "  " ++ body_no_plan ++ [nl]).
Proof.
  exact (proj1 (@X9_clean_up_idempotent_on_json
                  (lit "  " ++ body_no_plan ++ [nl]) _ eq_refl)).
Defined.

(** ** The cleaned text is a piece of the response *)

Lemma occurs_trans (a b x : str) :
  occurs_in a b -> occurs_in b x -> occurs_in a x.
Proof.
  intros [u [v ->]] [u' [v' ->]]. exists (u' ++ u), (v ++ v').
  now rewrite <- !app_assoc.
Qed.

Lemma occurs_lstrip (s : str) : occurs_in (lstrip s) s.
Proof.
  destruct (lstrip_split s) as [w [E _]]. exists w, [].
  now rewrite app_nil_r.
Qed.

Lemma occurs_rstrip (s : str) : occurs_in (rstrip s) s.
Proof.
  unfold rstrip. destruct (lstrip_split (rev s)) as [w [E _]].
  exists [], (rev w). cbn [app].
  rewrite <- rev_app_distr, <- E. now rewrite rev_involutive.
Qed.

Lemma occurs_strip (s : str) : occurs_in (strip s) s.
Proof.
  unfold strip. eapply occurs_trans; [apply occurs_rstrip | apply occurs_lstrip].
Qed.

Lemma occurs_open (s : str) : occurs_in (strip_open_fence s) s.
Proof.
  unfold strip_open_fence, slice_from.
  destruct (startswith s fence_json).
  - exists (firstn 7 s), []. now rewrite app_nil_r, firstn_skipn.
  - exists [], []. cbn. now rewrite app_nil_r.
Qed.

Lemma occurs_close (s : str) : occurs_in (strip_close_fence s) s.
Proof.
  unfold strip_close_fence, slice_to_neg.
  destruct (endswith s fence).
  - exists [], (skipn (List.length s - 3) s). cbn [app]. now rewrite firstn_skipn.
  - exists [], []. cbn. now rewrite app_nil_r.
Qed.

Lemma occurs_length (a b : str) :
  occurs_in a b -> List.length a <= List.length b.
Proof. intros [u [v ->]]. rewrite !length_app. lia. Qed.

(** X10. The text that the clean-up hands to [json.loads] is a contiguous
    piece of the response, never longer than it, and it is trimmed. *)
Theorem X10_cleaned_text_is_a_piece (text : str) :
  occurs_in (clean_fences text) text
  /\ List.length (clean_fences text) <= List.length text
  /\ strip (clean_fences text) = clean_fences text.
Proof.
  assert (O : occurs_in (clean_fences text) text).
  { unfold clean_fences.
    eapply occurs_trans; [apply occurs_strip|].
    eapply occurs_trans; [apply occurs_close|].
    eapply occurs_trans; [apply occurs_open | apply occurs_strip]. }
  split; [exact O|]. split; [now apply occurs_length|].
  unfold clean_fences. apply strip_idem.
Qed.

(** ** Responses that are valid JSON but no object, and blank responses *)

Definition no_get_attribute (v : value) : exn :=
  AttributeError ([39%N] ++ type_name v ++ lit "' object has no attribute 'get'").

(** X11. When the cleaned response is valid JSON but not an object (a
    list, a string, a number, [true], [false] or [null]), [data.get]
    raises [AttributeError] naming the type.  The bulk [generate_fanout]
    lets it through to the loop; the single one reports it as an
    unexpected error, returns [None] and leaves the stored plan alone. *)
Theorem X11_response_that_is_no_object (text : str) (v : value) :
  Json.loads (clean_fences text) = Ok v ->
  (forall d, v <> VDict d) ->
  (forall (World : Type) (generate_content : str -> World -> result str * World)
          query mode w w',
      generate_content (Bulk.QUERY_FANOUT_PROMPT query mode) w = (Ok text, w') ->
      Bulk.generate_fanout generate_content query mode w
      = (Raise (no_get_attribute v), w'))
  /\ (forall (World : Type) (generate_content : str -> World -> result str * World)
             query mode s w w',
         generate_content (Single.QUERY_FANOUT_PROMPT query mode) w = (Ok text, w') ->
         Single.generate_fanout generate_content query mode (s, w)
         = (VNone,
            (Single.emit (UiError (Single.msg_unexpected (no_get_attribute v))) s,
             w'))).
Proof.
  intros L N. split.
  - intros World gc query mode w w' G.
    rewrite (@bulk_generate_fanout_text _ _ _ _ _ _ _ G).
    unfold bulk_parse. rewrite L.
    destruct v; try reflexivity. now destruct (N d).
  - intros World gc query mode s w w' G.
    rewrite (@single_generate_fanout_text _ _ _ _ _ s _ _ G).
    unfold single_parse. rewrite L.
    destruct v; try reflexivity. now destruct (N d).
Qed.

Lemma X11_witness :
  Bulk.generate_fanout (canned (lit "[1, 2]")) (lit "q") mode_simple tt
  = (Raise (AttributeError (lit "'list' object has no attribute 'get'")), tt).
Proof.
  exact (proj1 (@X11_response_that_is_no_object (lit "[1, 2]")
                  (VList [VInt 1; VInt 2]) eq_refl
                  ltac:(intros d; discriminate))
           unit (canned (lit "[1, 2]")) (lit "q") mode_simple tt tt eq_refl).
Defined.

Definition expecting_value_at_start : exn := JSONDecodeError Json.msg_value [] 0.

Lemma clean_blank (t : str) :
  forallb isspace t = true -> clean_fences t = [].
Proof.
  intros B. unfold clean_fences. apply strip_nil_iff in B. now rewrite B.
Qed.

(** X12. A blank response, bare or between fences, is cleaned to the
    empty string, on which [json.loads] raises "Expecting value: line 1
    column 1 (char 0)"; [generate_fanout] of the bulk script raises that
    error. *)
Theorem X12_blank_response (t text : str) :
  forallb isspace t = true ->
  text = t \/ text = fence_json ++ t ++ fence ->
  clean_fences text = []
  /\ str_of_exn expecting_value_at_start
     = lit "Expecting value: line 1 column 1 (char 0)"
  /\ forall (World : Type) (generate_content : str -> World -> result str * World)
            query mode w w',
      generate_content (Bulk.QUERY_FANOUT_PROMPT query mode) w = (Ok text, w') ->
      Bulk.generate_fanout generate_content query mode w
      = (Raise expecting_value_at_start, w').
Proof.
  intros B T.
  assert (C : clean_fences text = []).
  { destruct T as [-> | ->]; [now apply clean_blank|].
    rewrite clean_between_fences. now apply strip_nil_iff. }
  split; [exact C|]. split; [reflexivity|].
  intros World gc query mode w w' G.
  rewrite (@bulk_generate_fanout_text _ _ _ _ _ _ _ G).
  unfold bulk_parse. now rewrite C.
Qed.

Lemma X12_witness :
  Bulk.generate_fanout (canned (fence_json ++ [nl; nl] ++ fence)) (lit "q")
    mode_simple tt
  = (Raise expecting_value_at_start, tt).
Proof.
  exact (proj2 (proj2 (@X12_blank_response [nl; nl] _ eq_refl
                         (or_intror eq_refl)))
           unit (canned (fence_json ++ [nl; nl] ++ fence)) (lit "q")
           mode_simple tt tt eq_refl).
Defined.

End ParserExtras.

(* ================================================================== *)
(** * More on the prompts *)
(* ================================================================== *)

Module PromptExtras.

Import PyFacts PromptFacts.

(** [x in s], decided from left to right. *)
Fixpoint occursb (x s : str) : bool :=
  startswith s x
  || match s with
     | [] => false
     | _ :: s' => occursb x s'
     end.

Lemma occursb_sound (x s : str) : occursb x s = true -> occurs_in x s.
Proof.
  induction s as [|c s IH]; cbn [occursb]; intros H;
    apply orb_true_iff in H as [H | H]; try discriminate.
  - apply startswith_spec in H as [r ->]. apply occurs_here.
  - apply startswith_spec in H as [r ->]. apply occurs_here.
  - change (c :: s) with ([c] ++ s). apply occurs_skip. auto.
Qed.

Lemma occurs_join (sep : str) (l : list str) (x : str) :
  In x l -> occurs_in x (join sep l).
Proof.
  induction l as [|y l IH]; [contradiction|].
  intros [-> | I].
  - destruct l; [apply occurs_refl | apply occurs_here].
  - destruct l as [|z l]; [contradiction|].
    change (join sep (y :: z :: l)) with (y ++ sep ++ join sep (z :: l)).
    do 2 apply occurs_skip. auto.
Qed.

Lemma occurs_in_routing_note (x : str) :
  In x Bulk.ALLOWED_FORMATS -> occurs_in x Bulk.routing_note.
Proof.
  intros I. unfold Bulk.routing_note.
  do 4 apply occurs_skip. apply occurs_keep. now apply occurs_join.
Qed.

Lemma routing_note_in_prompt (x q mode : str) :
  occurs_in x Bulk.routing_note -> occurs_in x (Bulk.QUERY_FANOUT_PROMPT q mode).
Proof.
  intros H. unfold Bulk.QUERY_FANOUT_PROMPT.
  find_piece ltac:(apply occurs_keep; exact H).
Qed.

Lemma bulk_schema_in_prompt (x q mode : str) :
  occurs_in x Bulk.schema_text -> occurs_in x (Bulk.QUERY_FANOUT_PROMPT q mode).
Proof.
  intros H. unfold Bulk.QUERY_FANOUT_PROMPT.
  find_piece ltac:(exact H).
Qed.

Lemma single_schema_in_prompt (x q mode : str) :
  occurs_in x Single.schema_text -> occurs_in x (Single.QUERY_FANOUT_PROMPT q mode).
Proof.
  intros H. unfold Single.QUERY_FANOUT_PROMPT.
  find_piece ltac:(exact H).
Qed.

Lemma mode_in_bulk_prompt (q mode : str) :
  occurs_in (quoted mode) (Bulk.QUERY_FANOUT_PROMPT q mode).
Proof.
  unfold Bulk.QUERY_FANOUT_PROMPT.
  find_piece ltac:(apply occurs_here).
Qed.

Lemma mode_in_single_prompt (q mode : str) :
  occurs_in (quoted mode) (Single.QUERY_FANOUT_PROMPT q mode).
Proof.
  unfold Single.QUERY_FANOUT_PROMPT.
  find_piece ltac:(apply occurs_here).
Qed.

(** X13. The test of the mode is against the label of the simple mode
    only: for any other mode string both prompt builders state the
    minimum count of the complex mode, 20; the mode string itself is
    quoted in the prompt. *)
Theorem X13_any_other_mode_is_complex (q mode : str) :
  mode <> mode_simple ->
  occurs_in (lit "This number must be at least 20.")
    (Bulk.QUERY_FANOUT_PROMPT q mode)
  /\ occurs_in (lit "(" ++ [Single.ge_sign] ++ lit "20)")
       (Single.QUERY_FANOUT_PROMPT q mode)
  /\ occurs_in (quoted mode) (Bulk.QUERY_FANOUT_PROMPT q mode)
  /\ occurs_in (quoted mode) (Single.QUERY_FANOUT_PROMPT q mode).
Proof.
  intros N. apply eqb_neq in N.
  pose proof (bulk_prompt_minimum q mode) as B.
  pose proof (single_prompt_minimum q mode) as S.
  rewrite N in B, S.
  repeat split; [exact B | exact S | apply mode_in_bulk_prompt
                 | apply mode_in_single_prompt].
Qed.

Lemma X13_witness :
  occurs_in (lit "This number must be at least 20.")
    (Bulk.QUERY_FANOUT_PROMPT (lit "q") (lit "ai overview (simple)")).
Proof.
  exact (proj1 (@X13_any_other_mode_is_complex (lit "q")
                  (lit "ai overview (simple)") ltac:(discriminate))).
Defined.

(** X14. The prompt of the bulk script names every one of the allowed
    routing formats, whatever the query and the mode. *)
Theorem X14_prompt_lists_every_format (q mode label : str) :
  In label Bulk.ALLOWED_FORMATS ->
  occurs_in label (Bulk.QUERY_FANOUT_PROMPT q mode).
Proof.
  intros I. now apply routing_note_in_prompt, occurs_in_routing_note.
Qed.

Lemma X14_witness :
  occurs_in (lit "api_reference")
    (Bulk.QUERY_FANOUT_PROMPT (lit "q") mode_simple).
Proof.
  apply X14_prompt_lists_every_format. vm_compute. tauto.
Defined.

(** The keys that the bulk script reads from the response. *)
Definition keys_read_by_bulk : list str :=
  [ Bulk.k_generation_details; Bulk.k_expanded_queries;
    Bulk.k_target_query_count; Bulk.k_reasoning_for_count;
    Bulk.k_query; Bulk.k_type; Bulk.k_user_intent; Bulk.k_reasoning;
    Bulk.k_routing_format; Bulk.k_format_reason ].

(** The keys that the single script reads from the response. *)
Definition keys_read_by_single : list str :=
  [ Single.k_generation_details; Single.k_expanded_queries;
    Single.k_target_query_count; Single.k_reasoning_for_count ].

(** X15. Every key that a script reads from the response is asked for in
    the schema of its prompt, between double quotes. *)
Theorem X15_keys_read_are_in_the_schema (q mode key : str) :
  (In key keys_read_by_bulk ->
   occurs_in (quoted key) (Bulk.QUERY_FANOUT_PROMPT q mode))
  /\ (In key keys_read_by_single ->
      occurs_in (quoted key) (Single.QUERY_FANOUT_PROMPT q mode)).
Proof.
  split; intros I.
  - apply bulk_schema_in_prompt. cbn [In keys_read_by_bulk] in I.
    repeat (destruct I as [<- | I];
            [apply occursb_sound; vm_compute; reflexivity|]).
    destruct I.
  - apply single_schema_in_prompt. cbn [In keys_read_by_single] in I.
    repeat (destruct I as [<- | I];
            [apply occursb_sound; vm_compute; reflexivity|]).
    destruct I.
Qed.

Lemma X15_witness :
  occurs_in (quoted (lit "routing_format"))
    (Bulk.QUERY_FANOUT_PROMPT (lit "q") mode_complex)
  /\ occurs_in (quoted (lit "expanded_queries"))
       (Single.QUERY_FANOUT_PROMPT (lit "q") mode_complex).
Proof.
  split.
  - apply (proj1 (X15_keys_read_are_in_the_schema (lit "q") mode_complex
                    (lit "routing_format"))).
    vm_compute. tauto.
  - apply (proj2 (X15_keys_read_are_in_the_schema (lit "q") mode_complex
                    (lit "expanded_queries"))).
    vm_compute. tauto.
Defined.

End PromptExtras.

(* ================================================================== *)
(** * More on the single-query script *)
(* ================================================================== *)

Module SingleExtras.

Import PyFacts ParserClaims ParserExtras.

Definition is_text (ev : ui_event) : Prop :=
  match ev with
  | UiText _ => True
  | _ => False
  end.

(** What [len] says of an object that has no length. *)
Definition no_len (v : value) : exn :=
  TypeError (lit "object of type '" ++ type_name v ++ lit "' has no len()").

Lemma show_table_details (dataframe download_csv : value -> result unit)
      (results : value) (s : Single.session) :
  Single.generation_details (snd (Single.show_table dataframe download_csv results s))
  = Single.generation_details s.
Proof.
  unfold Single.show_table.
  destruct (dataframe results); [|reflexivity].
  destruct (download_csv results); reflexivity.
Qed.

Lemma show_results_details (dataframe download_csv : value -> result unit)
      (results : value) (s : Single.session) :
  Single.generation_details
    (snd (Single.show_results dataframe download_csv results s))
  = Single.generation_details s.
Proof.
  unfold Single.show_results.
  destruct (py_len results) as [n|e]; [|reflexivity]. cbn [bind].
  destruct (py_get _ Single.k_target_query_count _) as [t|e]; [|reflexivity].
  cbn [bind].
  destruct (py_get _ Single.k_reasoning_for_count _) as [r|e]; [|reflexivity].
  cbn [bind]. rewrite show_table_details.
  destruct (Single.count_mismatch t n); reflexivity.
Qed.

Section Client.

Variable World : Type.
Variable generate_content : str -> World -> result str * World.
Variable dataframe : value -> result unit.
Variable download_csv : value -> result unit.

Lemma generate_fanout_outcomes (query mode : str) (s : Single.session) (w : World) :
  let out := Single.generate_fanout generate_content query mode (s, w) in
  snd (snd out) = snd (generate_content (Single.QUERY_FANOUT_PROMPT query mode) w)
  /\ ((exists text d,
          fst (generate_content (Single.QUERY_FANOUT_PROMPT query mode) w) = Ok text
          /\ Json.loads (clean_fences text) = Ok (VDict d)
          /\ fst out = field d Single.k_expanded_queries (VList [])
          /\ fst (snd out)
             = Single.set_details (field d Single.k_generation_details (VDict [])) s)
      \/ (fst out = VNone
          /\ Single.generation_details (fst (snd out)) = Single.generation_details s
          /\ exists m rest,
               Single.ui (fst (snd out)) = Single.ui s ++ UiError m :: rest
               /\ Forall is_text rest)).
Proof.
  cbv zeta. unfold Single.generate_fanout.
  destruct (generate_content (Single.QUERY_FANOUT_PROMPT query mode) w)
    as [[text|e] w'] eqn:G; cbn [fst snd].
  - destruct (Json.loads (clean_fences text)) as [data|e] eqn:L.
    + destruct data as [| b | z | f | x | l | d];
        try (cbn [py_get bind fst snd]; split; [reflexivity|]; right;
             split; [reflexivity|]; split; [reflexivity|];
             eexists; exists []; split; [reflexivity | constructor]).
      cbn [py_get bind fst snd]. split; [reflexivity|]. left.
      exists text, d. repeat split; try reflexivity. exact L.
    + split; [destruct (is_JSONDecodeError e); reflexivity|]. right.
      destruct (is_JSONDecodeError e); cbn [fst snd].
      * split; [reflexivity|]. split; [reflexivity|].
        exists Single.msg_parse_failed,
               [UiText Single.msg_raw; UiText (clean_fences text)].
        split; [|repeat constructor].
        cbn [Single.emit Single.ui]. now rewrite <- !app_assoc.
      * split; [reflexivity|]. split; [reflexivity|].
        eexists; exists []; split; [reflexivity | constructor].
  - split; [reflexivity|]. right.
    split; [reflexivity|]. split; [reflexivity|].
    eexists; exists []; split; [reflexivity | constructor].
Qed.

(** X16. [generate_fanout] of the single script calls the client once and
    has two outcomes only.  Either the response, cleaned, parses to an
    object: the function returns its [expanded_queries] (default the empty
    list), stores its [generation_details] (default the empty object) and
    shows nothing.  Or it returns [None], leaves the stored plan as it
    was, and shows one [st.error], followed by nothing but [st.text]
    lines. *)
Theorem X16_single_generate_fanout_outcomes
        (query mode : str) (s : Single.session) (w : World) :
  let out := Single.generate_fanout generate_content query mode (s, w) in
  snd (snd out) = snd (generate_content (Single.QUERY_FANOUT_PROMPT query mode) w)
  /\ ((exists text d,
          fst (generate_content (Single.QUERY_FANOUT_PROMPT query mode) w) = Ok text
          /\ Json.loads (clean_fences text) = Ok (VDict d)
          /\ fst out = field d Single.k_expanded_queries (VList [])
          /\ fst (snd out)
             = Single.set_details (field d Single.k_generation_details (VDict [])) s)
      \/ (fst out = VNone
          /\ Single.generation_details (fst (snd out)) = Single.generation_details s
          /\ exists m rest,
               Single.ui (fst (snd out)) = Single.ui s ++ UiError m :: rest
               /\ Forall is_text rest)).
Proof. apply generate_fanout_outcomes. Qed.

Lemma run_on_object
      (user_query mode text : str) (s : Single.session) (w w' : World) (d : dict) :
  truthy (strip user_query) = true ->
  generate_content (Single.QUERY_FANOUT_PROMPT user_query mode) w = (Ok text, w') ->
  Json.loads (clean_fences text) = Ok (VDict d) ->
  let results := field d Single.k_expanded_queries (VList []) in
  let s1 := Single.mk_session (field d Single.k_generation_details (VDict []))
              (Single.ui s) in
  Single.run generate_content dataframe download_csv user_query mode (s, w)
  = if py_truthy results then
      (fst (Single.show_results dataframe download_csv results s1),
       (snd (Single.show_results dataframe download_csv results s1), w'))
    else (Ok tt, (Single.emit (UiWarning Single.msg_none) s1, w')).
Proof.
  intros T G L. cbv zeta. unfold Single.run. rewrite T. cbn [negb].
  rewrite (@single_generate_fanout_text _ generate_content user_query mode text
             (Single.set_details VNone s) w w' G).
  unfold single_parse. rewrite L. cbn [py_get bind fst snd].
  fold (field d Single.k_expanded_queries (VList [])).
  fold (field d Single.k_generation_details (VDict [])).
  destruct (py_truthy (field d Single.k_expanded_queries (VList [])));
    [|reflexivity].
  unfold Single.set_details. cbn [Single.ui].
  now destruct (Single.show_results _ _ _ _).
Qed.

(** X17. The display part of the single script is outside every [try].
    With a response object whose [expanded_queries] is [true] or an
    integer other than zero, the handler shows its success message and then ends
    with the [TypeError] of [len]; with a non-empty list of queries and a
    [generation_details] that is a non-empty string, a non-empty list,
    [true] or an integer other than zero, it ends with the
    [AttributeError] of [details.get]. *)
Theorem X17_display_faults_are_not_caught
        (user_query mode text : str) (s : Single.session) (w w' : World)
        (d : dict) :
  truthy (strip user_query) = true ->
  generate_content (Single.QUERY_FANOUT_PROMPT user_query mode) w = (Ok text, w') ->
  Json.loads (clean_fences text) = Ok (VDict d) ->
  let results := field d Single.k_expanded_queries (VList []) in
  let details := field d Single.k_generation_details (VDict []) in
  let shown :=
    (Single.mk_session details (Single.ui s ++ [UiSuccess Single.msg_complete]),
     w') in
  ((results = VBool true \/ exists z, z <> 0%Z /\ results = VInt z) ->
   Single.run generate_content dataframe download_csv user_query mode (s, w)
   = (Raise (no_len results), shown))
  /\ ((exists q l, results = VList (q :: l)) ->
      py_truthy details = true ->
      (forall plan, details <> VDict plan) ->
      (forall numeral, details <> VFloat numeral) ->
      Single.run generate_content dataframe download_csv user_query mode (s, w)
      = (Raise (no_get_attribute details), shown)).
Proof.
  intros T G L. cbv zeta.
  rewrite (@run_on_object user_query mode text s w w' d T G L). cbv zeta.
  split.
  - intros [E | [z [N E]]]; rewrite E; [reflexivity|].
    cbn [py_truthy]. apply Z.eqb_neq in N. rewrite N. reflexivity.
  - intros [q [l E]] P ND NF. rewrite E. cbn [py_truthy].
    unfold Single.show_results.
    cbn [Single.emit Single.generation_details Single.ui py_len bind].
    rewrite P.
    destruct (field d Single.k_generation_details (VDict []))
      as [| b | z | f | x | pl | plan] eqn:F;
      try discriminate; try reflexivity.
    exfalso. exact (ND plan eq_refl).
Qed.

(** X18. A run of the single script with a blank query makes no call and
    only warns.  With any other query it makes exactly one call, with the
    prompt of the query as typed; and the plan stored when it ends is
    never that of an earlier run: it is [None], or the
    [generation_details] of the object this call's response parsed to. *)
Theorem X18_one_call_and_no_stale_plan
        (user_query mode : str) (s : Single.session) (w : World) :
  let out :=
    Single.run generate_content dataframe download_csv user_query mode (s, w) in
  let reply := generate_content (Single.QUERY_FANOUT_PROMPT user_query mode) w in
  (truthy (strip user_query) = false ->
   out = (Ok tt,
          (Single.mk_session VNone
             (Single.ui s ++ [UiWarning Single.msg_enter_query]), w)))
  /\ (truthy (strip user_query) = true ->
      snd (snd out) = snd reply
      /\ (Single.generation_details (fst (snd out)) = VNone
          \/ exists text d,
               fst reply = Ok text
               /\ Json.loads (clean_fences text) = Ok (VDict d)
               /\ Single.generation_details (fst (snd out))
                  = field d Single.k_generation_details (VDict []))).
Proof.
  cbv zeta. split; intros T; unfold Single.run; rewrite T; cbn [negb];
    [reflexivity|].
  pose proof (generate_fanout_outcomes user_query mode
                (Single.set_details VNone s) w) as [W O].
  cbv zeta in W, O.
  destruct (Single.generate_fanout generate_content user_query mode
              (Single.set_details VNone s, w)) as [results [s1 w1]].
  cbn [fst snd] in W, O.
  assert (K : Single.generation_details s1 = VNone
              \/ exists text d,
                   fst (generate_content
                          (Single.QUERY_FANOUT_PROMPT user_query mode) w) = Ok text
                   /\ Json.loads (clean_fences text) = Ok (VDict d)
                   /\ Single.generation_details s1
                      = field d Single.k_generation_details (VDict [])).
  { destruct O as [[text [d [G [L [_ S1]]]]] | [_ [D _]]].
    - right. exists text, d. now rewrite S1.
    - left. exact D. }
  destruct (py_truthy results).
  - pose proof (show_results_details dataframe download_csv results s1) as SR.
    destruct (Single.show_results dataframe download_csv results s1) as [r s2].
    cbn [fst snd] in *. split; [exact W|]. now rewrite SR.
  - cbn [fst snd]. split; [exact W | exact K].
Qed.

End Client.

Definition answer_count_only : str :=
  BatchFacts.json_text "{'generation_details': {'target_query_count': 3}, 'expanded_queries': 3}".

Lemma X17_witness :
  Single.run (BatchFacts.scripted [Ok answer_count_only])
    CountFacts.accepts CountFacts.accepts (lit "q") mode_simple
    (CountFacts.fresh, 0)
  = (Raise (TypeError (lit "object of type 'int' has no len()")),
     (Single.mk_session (VDict [(lit "target_query_count", VInt 3)])
        [UiSuccess Single.msg_complete], 1)).
Proof.
  refine (proj1 (@X17_display_faults_are_not_caught nat
                   (BatchFacts.scripted [Ok answer_count_only])
                   CountFacts.accepts CountFacts.accepts (lit "q") mode_simple
                   answer_count_only CountFacts.fresh 0 1 _
                   eq_refl eq_refl eq_refl) _).
  right. exists 3%Z. split; [discriminate | reflexivity].
Defined.

Lemma X18_witness :
  snd (snd (Single.run (BatchFacts.scripted [Ok answer_count_only])
              CountFacts.accepts CountFacts.accepts (lit " q ") mode_simple
              (CountFacts.fresh, 0))) = 1.
Proof.
  exact (proj1 (proj2 (@X18_one_call_and_no_stale_plan nat
                         (BatchFacts.scripted [Ok answer_count_only])
                         CountFacts.accepts CountFacts.accepts (lit " q ")
                         mode_simple CountFacts.fresh 0) eq_refl)).
Defined.

End SingleExtras.

(* ================================================================== *)
(** * A run in which the model returns no query *)
(* ================================================================== *)

Module EmptyRun.

Import Bulk ParserClaims BatchFacts LoopExtras.

Definition summary_cols : list str :=
  [k_lookup_query; k_target_query_count; k_reasoning_for_count].

(** The plan summary of lookup [q] for the plan object [plan]. *)
Definition summary (q : str) (plan : dict) : dict :=
  [ (k_lookup_query, VStr q);
    (k_target_query_count, field plan k_target_query_count VNone);
    (k_reasoning_for_count, field plan k_reasoning_for_count (VStr [])) ].

Lemma df_columns_summaries (records : list dict) :
  records <> [] -> Forall (fun d => dict_keys d = summary_cols) records ->
  df_columns records = summary_cols.
Proof.
  unfold df_columns. destruct records as [|d ds]; [congruence|].
  intros _ H. inversion H as [|? ? K F]; subst. cbn [fold_left].
  rewrite K. change (fold_left add_column summary_cols []) with summary_cols.
  clear H K. induction F as [|r rs K _ IH]; [reflexivity|].
  cbn [fold_left]. rewrite K.
  change (fold_left add_column summary_cols summary_cols) with summary_cols.
  exact IH.
Qed.

Lemma show_summaries_some (st : run_state) :
  run_summaries st <> [] ->
  show_summaries st
  = emit (UiTable (df_columns (run_summaries st)) (run_summaries st)) st.
Proof.
  unfold show_summaries. destruct (run_summaries st); [congruence | reflexivity].
Qed.

Lemma show_errors_none (st : run_state) :
  errors st = [] -> show_errors st = st.
Proof. unfold show_errors. now intros ->. Qed.

Section AllEmpty.

Variable World : Type.
Variable generate_content : str -> World -> result str * World.
Hypothesis always_empty :
  forall prompt w, exists text d plan,
    fst (generate_content prompt w) = Ok text
    /\ Json.loads (clean_fences text) = Ok (VDict d)
    /\ field d k_generation_details (VDict []) = VDict plan
    /\ field d k_expanded_queries (VList []) = VList [].

Lemma empty_turn (mode : str) (total i : nat) (q : str) (st : run_state)
      (w : World) :
  exists plan,
    results (fst (process_lookup generate_content mode total i q (st, w)))
    = (all_rows st, run_summaries st ++ [summary q plan], errors st).
Proof.
  destruct (always_empty (QUERY_FANOUT_PROMPT q mode) w)
    as [text [d [plan [G [L [P E]]]]]].
  exists plan. rewrite process_lookup_cases.
  assert (A : fst (generate_fanout generate_content q mode w)
              = Ok (VDict plan, VList [], clean_fences text)).
  { destruct (generate_content (QUERY_FANOUT_PROMPT q mode) w) as [r w'] eqn:GC.
    cbn [fst] in G. subst r.
    rewrite (@bulk_generate_fanout_text _ generate_content q mode text w w' GC).
    cbn [fst]. unfold bulk_parse. rewrite L. cbn [bind py_get].
    fold (field d k_generation_details (VDict [])).
    fold (field d k_expanded_queries (VList [])).
    now rewrite P, E. }
  rewrite A. unfold try_body_cases, summary_of, summary, field, results.
  cbn [py_get bind py_iter py_len]. change (flatten q []) with (@nil dict, @None exn).
  cbn [fst snd]. rewrite add_rows_nil. reflexivity.
Qed.

Lemma empty_loop (mode : str) (total : nat) (lookups : list str) :
  forall (i : nat) (st : run_state) (w : World),
  exists records,
    results (fst (loop generate_content mode total i lookups (st, w)))
    = (all_rows st, run_summaries st ++ records, errors st)
    /\ map lookup_of records = map tag lookups
    /\ Forall (fun d => dict_keys d = summary_cols) records.
Proof.
  induction lookups as [|q rest IH]; intros i st w.
  - exists []. cbn. unfold results. now rewrite app_nil_r.
  - cbn [loop]. destruct (empty_turn mode total i q st w) as [plan P].
    destruct (process_lookup generate_content mode total i q (st, w))
      as [st1 w1]. cbn [fst] in P.
    destruct (IH (S i) st1 w1) as [records [R [T K]]].
    unfold results in P. injection P as P1 P2 P3.
    exists (summary q plan :: records).
    rewrite R, P1, P2, P3, <- app_assoc. repeat split.
    + cbn. now rewrite T.
    + constructor; [reflexivity | exact K].
Qed.

(** X19. When every response parses to an object with a plan object and
    no expanded query, the run has no row and no error record and one
    plan summary for each lookup, in input order; with at least one
    lookup, what it shows after the loop is the warning that no query was
    generated and then the table of the plan summaries, and no table of
    errors. *)
Theorem X19_every_lookup_comes_back_empty (i : input) (mode : str) (w : World) :
  let st := fst (run generate_content i mode w) in
  all_rows st = []
  /\ errors st = []
  /\ map lookup_of (run_summaries st) = map tag (build_lookups i)
  /\ (build_lookups i <> [] ->
      ui st
      = ui (fst (loop generate_content mode (List.length (build_lookups i)) 1
                   (build_lookups i)
                   (emit (UiProgress 0 (List.length (build_lookups i)))
                      empty_state, w)))
          ++ [UiStatusComplete; UiWarning msg_no_rows;
              UiTable summary_cols (run_summaries st)]).
Proof.
  intros st. unfold st, run.
  destruct (build_lookups i) as [|q rest] eqn:B.
  { cbn. repeat split; congruence. }
  set (total := List.length (q :: rest)).
  destruct (empty_loop mode total (q :: rest) 1
              (emit (UiProgress 0 total) empty_state) w) as [records [R [T K]]].
  destruct (loop generate_content mode total 1 (q :: rest)
              (emit (UiProgress 0 total) empty_state, w)) as [st1 w1].
  cbn [fst] in *. unfold results in R. cbn in R. injection R as R1 R2 R3.
  assert (N : records <> []) by (intros ->; discriminate).
  set (st2 := emit UiStatusComplete st1).
  assert (A1 : all_rows st2 = []) by exact R1.
  assert (A2 : run_summaries st2 = records) by exact R2.
  assert (A3 : errors st2 = []) by exact R3.
  unfold show_results.
  rewrite (show_rows_none st2 A1).
  rewrite show_summaries_some by (cbn [emit run_summaries]; now rewrite A2).
  rewrite show_errors_none by exact A3.
  cbn [emit all_rows run_summaries errors ui].
  rewrite A1, A2, A3, (df_columns_summaries N K).
  split; [reflexivity|]. split; [reflexivity|]. split; [exact T|].
  intros _. unfold st2. cbn [emit ui]. now rewrite <- !app_assoc.
Qed.

End AllEmpty.

Definition answer_empty : str :=
  json_text "{'generation_details': {'target_query_count': 12}, 'expanded_queries': []}".

(** A client that gives the same answer to every prompt. *)
Definition constant_client (text prompt : str) (calls : nat) : result str * nat :=
  (Ok text, S calls).

Lemma X19_witness :
  let st := fst (run (constant_client answer_empty)
                   (BulkList (lit "a" ++ [nl] ++ lit "b")) mode_simple 0) in
  run_summaries st
  = [summary (lit "a") [(k_target_query_count, VInt 12)];
     summary (lit "b") [(k_target_query_count, VInt 12)]]
  /\ errors st = [].
Proof.
  split; [reflexivity|].
  refine (proj1 (proj2
           (@X19_every_lookup_comes_back_empty nat (constant_client answer_empty) _
              (BulkList (lit "a" ++ [nl] ++ lit "b")) mode_simple 0))).
  intros prompt calls.
  exists answer_empty, [(k_generation_details, VDict [(k_target_query_count, VInt 12)]);
                        (k_expanded_queries, VList [])],
         [(k_target_query_count, VInt 12)].
  repeat split; reflexivity.
Defined.

End EmptyRun.
